(* ===== verification/_CoqProject ===== *)
-Q . S2P
Prelude.v
PyStr.v
Paths.v
Graph.v
Traversal.v
Levels.v
Related.v
Store.v
Assembler.v
Prompt.v
Services.v
Settings.v
Typing.v
Endpoint.v
Indexer.v
IndexRun.v
System.v
