(* ===== verification/Prelude.v ===== *)
(** * rag-assistant: a verification development

    The repository is a small retrieval-augmented assistant for a TypeScript
    code base.  Its sources are three Python files:

    - [src/indexer/graph_utils.py]: loads the file dependency graph from JSON
      ([load_dependency_graph]) and expands it breadth first to a bounded
      depth ([get_related_files]);
    - [src/rag_api/main.py]: the request handler [rag_endpoint] (embedding of
      the question, similarity search, graph expansion, deduplicated
      context, prompt, chat completion) with its point lookup
      [_load_file_payload], and the editor adapter [zed_proxy];
    - [src/indexer/index_codebase.py]: bulk ingestion of files into the vector
      store ([index_codebase]).

    The handler calls [get_related_files] for the target file of a request,
    looks the related files up in the collection that [index_codebase]
    filled, and sends the prompt of the context to the chat model.

    ** Files of the development, in dependency order

    - [Prelude] (this file): the error type [outcome] with the exceptions the
      modelled code raises, its bind notation in [py_scope], the tactics
      [case_res] and [res_simpl], the hint databases [py] and [py_rw], and
      the list lemmas the components share.
    - [PyStr]: Python [str] as UTF-8 byte strings: [sorted] (the builtin, on
      strings), [join], [startswith], [endswith], [split_on] (a split at one
      character, with the lemmas that [Paths] and [Prompt] share), iteration
      over a string by code point ([utf8_chars]), truthiness.
    - [Paths]: the interface [PathFlavour] (what [Path(p).as_posix()] promises:
      a function and its idempotence) and the POSIX implementation
      [posix_as_posix] of pathlib's pure path parsing.
    - [Graph]: the values [json.load] returns ([pyval]) and
      [load_dependency_graph] on them, every exception included.
    - [Traversal]: the loop of [get_related_files]: its state [bfs_state], the
      inner [for] ([visit_neighbour]), one iteration of the [while]
      ([bfs_step]), the loop with fuel ([bfs_loop]), the fuel that is always
      enough ([bfs_fuel]), the function after its guard ([related]) and the
      function itself ([get_related_files]).
    - [Levels]: the reference specification of the traversal, level by level
      ([level_lists], [bfs_spec]), the proof that the queue loop computes
      it, and reachability within a number of edges ([hops], [within]).
    - [Related]: the contract of [get_related_files], proved from the two
      files before it.
    - [Store]: the collection as the handler reads it: points with a
      payload, [scroll] with a path filter, [_load_file_payload].
    - [Assembler]: steps 2 and 3 of the handler on a store that answers:
      [add_hit], [add_related], [add_target], [build_context], and the
      specification [assemble].
    - [Prompt]: the prompt template ([context_part], [build_prompt]) and a
      reference reader of it ([parse_prompt], no code of the repository).
    - [Services]: computations that call services and can raise ([io], with
      the trace of the calls, and [io_try] for [try]/[except]), protocols
      of calls as automata ([run_protocol]), HTTP replies ([post_json]), the
      bodies of the requests ([embed_payload], [chat_payload]), and
      subscripts, [get] and truth tests on JSON values.
    - [Settings]: the environment variables that both programs read when
      their module is loaded ([QDRANT_HOST], [LMSTUDIO_API],
      [EMBEDDING_ENDPOINT]), with [os.getenv] and [load_dotenv], and the
      addresses of the store and of the embedding endpoint that follow.
    - [Typing]: the annotations of the sources as types of Python values
      ([pytype], [has_type]): the type of the graph file and of the
      configuration of the indexer; [Endpoint] has the type of the request
      of [zed_proxy].
    - [Endpoint]: the handlers as a whole, [rag_endpoint] and [zed_proxy],
      over a [world] of services; the specification [rag_spec] of the calls
      and the outcome, and the protocol of the calls ([run_phase]).
    - [Indexer]: the loop of [index_codebase] over files that are given,
      with [should_ignore], [get_embedding] and the upsert of the store.
    - [IndexRun]: [index_codebase] as a whole, as a computation with its
      calls, over a [project]: [load_config] and the reads of the
      configuration, the two calls of [rglob] ([find_files]), the guard that
      creates the collection ([ensure_collection]), and the loop with its
      [try] ([index_step_io]); the specification [run_spec] and the
      protocol of the calls ([next_index_phase]).
    - [System]: the indexer and the handler together.

    ** How the model corresponds to the code

    Every definition that models code keeps the name of the function, the
    variable or the loop it models; its comment names the lines.  Strings
    are [string] (lists of bytes): a Python [str] is read as its UTF-8
    encoding.  Comparing UTF-8 encodings byte by byte orders strings as
    Python orders them by code point, so [sorted] is the merge sort of stdpp
    on [String.le]; on a total antisymmetric order every sorting function
    returns the same list ([PyStr.sorted_unique]), so nothing depends on the
    sorting algorithm.

    [depth] and the distances of the queue are Python [int]s: they are [Z],
    with no bound.  A [dict] read only through [get] is a [gmap]; the items
    of a JSON object, whose order decides which of two keys with the same
    normal form wins, are an association list.  The [set]s of visited and
    of seen paths are [gset string].  Exceptions are values: a function that
    can raise returns an [outcome].  A handler is an [io] computation: it
    maps the trace of the calls made so far to the trace after it and its
    outcome, so that an exception keeps the calls made before it.

    [Path] is library code.  What the repository needs of it is the interface
    [Paths.PathFlavour]; the graph, the traversal, the assembler and the
    handlers are proved against the interface, and [Paths.posix_flavour]
    implements it for POSIX hosts, following pathlib ([splitroot], the
    removal of empty and [.] parts).  Examples and witnesses are evaluated
    with the POSIX flavour.

    The services are inputs.  [Endpoint.world] gives, for every request, the
    reply of the embedding endpoint and of the chat endpoint
    ([Services.http_reply]: no connection, an error status, a body that is
    no JSON, or a JSON value of any shape), the ranking of the store for a
    vector or the exception of the search, the points of the collection
    in the order of [scroll], for every path whether its lookup raises and
    what ([scroll_error], so that a request can end at any of its
    lookups), and the graph file: missing, unreadable with the exception
    of [open] or of the read, no JSON, or a JSON value.  [Indexer] takes
    the files that were found with the outcome of reading each, the hash
    function of the process and the replies of the embedding endpoint.
    [IndexRun.project] adds what comes before the loop: the configuration
    file as parsed (or the failure to open, to read or to parse it), the
    paths below a base path in the order of the walk, the collections of
    the store by name or the exception of listing them, and the exception
    of [recreate_collection] when the collection cannot be created.  The
    configuration is
    any YAML value, so the patterns of [should_ignore] are read on every
    value ([IndexRun.should_ignore_dyn]); [Indexer.should_ignore] is the
    same function on the values of its annotation, a list of strings.
    The vector of a point is whatever value the embedding endpoint
    returned; whether the client takes it as a vector, whether the store
    answers the upsert and whether the vector fits the collection is an
    input too ([Indexer.vector_verdict]).

    ** Fuel

    The [while] loop of [get_related_files] is the only recursion that is
    not structural.  [Traversal.bfs_loop] takes fuel, one unit per
    iteration; [Traversal.bfs_fuel] is one more than the number of distinct
    neighbour paths of the graph, and [Traversal.bfs_loop_terminates] shows
    that it is always enough, whatever the depth and whatever cycles the
    graph has: the sum of the length of the queue and the number of
    neighbour paths not yet visited decreases by one in every iteration.
    [Traversal.related], which runs the loop on [bfs_fuel], is therefore
    the result of the loop, and every theorem about it is a theorem about a
    run that ends.

    ** What the theorems show

    - [Paths]: idempotence of the POSIX normal form, and that two paths
      have the same normal form exactly when they have the same root and
      the same parts.
    - [Graph]: which inputs load and which raise what; that a loaded graph
      is normalised; what a lookup in the loaded graph returns, in terms
      of the items of the file: the last item of a normalised key wins,
      and a value that is a string or an object is read as its characters
      or its keys.
    - [Typing]: a graph file of the annotated type always loads, to the
      graph that it denotes; a field of a typed dict is read without an
      exception.
    - [Traversal]: termination, the invariant of the loop on every state
      that is reached, the bound on the number of iterations.
    - [Levels] and [Related]: [get_related_files] refines [bfs_spec]; the
      result has no path twice and never the start; it is exactly the set
      of paths within [depth] edges, in the order of their distance; a
      smaller depth gives a prefix; the result depends on the graph file
      only through the neighbours of every path, not on the order of the
      neighbour lists, nor on the order of the items when their normalised
      keys are distinct.
    - [Assembler]: [build_context] refines [assemble]; no path twice; hits
      before related files before the target file; when the target file is
      part of the context; a related or target file is found only under a
      path in normal form; which entries a context has
      ([elem_of_build_context]), and from it when a file is in the context
      under two spellings and when an entry has an empty text.
    - [Prompt]: the length of the prompt, the separation of path and text;
      the prompt reads back as the question and the context when question
      and paths are one line each and no line of a text starts with the
      label; a text that holds a label line renders and reads as two
      entries.
    - [Endpoint]: [rag_endpoint] refines [rag_spec] on every reply of every
      service; the protocol of its calls; the chat model is asked once, last,
      only when every step and every lookup before it succeeded, and with
      the prompt of the context of [build_context], which reads back as the
      question and that context when the question, the paths and the stored
      texts are plain; what a failing graph and a failing lookup do; what
      [zed_proxy] makes of its request, the type of the requests that it
      reads without an exception, and the exception of every request that
      is malformed.
    - [Indexer]: a failing file does not end the run; what is indexed can be
      looked up; a run removes no point, keeps one point for an id and
      keeps every point whose id is the hash of none of its files, so that
      ids that change between processes leave stale points.
    - [IndexRun]: a whole run refines the loop of [Indexer] and makes the
      calls of [run_spec]; on a configuration of the expected type only the
      store can make it raise, by failing to list or to create the
      collection; every file found is passed over, printed as
      failed or upserted, whatever happened to the files before it; the
      number of calls is bounded by the size of the tree; the calls follow
      the protocol of a run on every input; no path is taken twice by the
      two patterns; patterns that cannot be iterated end the run at the
      first file, after the collection was created.
    - [Settings]: when the indexer and the API, started in the same
      environment, address the same store and the same embedding endpoint:
      no value of [LMSTUDIO_API] suits both, and a file [.env] moves the
      indexer only.
    - [System]: a request served from the collection of an indexing run has
      the text of its target file and of its related files in the prompt.

    ** Not modelled

    HTTP transport and timeouts, the similarity ranking, the validation of
    a vector and the size check of the store, FastAPI with the parsing of
    requests and the serialising of responses it does, the JSON and YAML
    parsers, the walk of the file system and the progress bar are library
    code or I/O; their results enter the model as inputs.  Every call to a
    service can fail on its own: the listing and the creation of the
    collection, the upsert of each file, the search and the lookup of each
    path.  The content of the collection is one list of points for the
    time of a request; since no path is looked up twice, a request reads
    each path once.  Payload fields are strings or absent, as the indexer
    writes them; payloads that another program wrote with other JSON
    values (a path that is a list cannot be put in [seen]) are outside the
    model, and so are YAML values that are no JSON values (dates, keys
    that are no strings).
    The Windows flavour of pathlib is not modelled: [IndexRun] is about a
    POSIX host, where [str(path)] and [path.as_posix()] are the same
    string.  [posix_as_posix] (pathlib), [validate_str] (pydantic),
    [upsert] (the store), [vector_verdict], [getenv] and [load_dotenv]
    (with the parsed file [.env] as an input) and [has_type] (the meaning
    of an annotation) follow the documentation of their libraries.  The
    repository pins no version of pydantic: [validate_str] is the strict
    validation of version 2, under which a value that is no string is
    refused; the version matters only where a question, a target file or
    an answer of the chat model is no string.  [System] takes the
    indexer and the API at the same store; [Settings] says when the
    environment gives that. *)

From stdpp Require Import base tactics option list.

Declare Scope py_scope.
Delimit Scope py_scope with py.

(** ** Exceptions and results *)

(** The exception classes the modelled code can raise. *)
Inductive pyexn : Set :=
| FileNotFoundError
| PermissionError
| IsADirectoryError
| UnicodeDecodeError
| JSONDecodeError
| YAMLError
| AttributeError
| TypeError
| KeyError
| IndexError
| ValidationError
| ConnectError
| HTTPStatusError
| UnexpectedResponse
| ResponseHandlingException.

#[export] Instance pyexn_eq_dec : EqDecision pyexn.
Proof. solve_decision. Defined.

(** The outcome of a call: a value, or the exception it raised. *)
Inductive outcome (A : Type) : Type :=
| Ok (a : A)
| Raise (e : pyexn).
Arguments Ok {A} a.
Arguments Raise {A} e.

#[export] Instance outcome_eq_dec `{EqDecision A} : EqDecision (outcome A).
Proof. solve_decision. Defined.

Definition bind {A B} (r : outcome A) (k : A -> outcome B) : outcome B :=
  match r with
  | Ok a => k a
  | Raise e => Raise e
  end.

Notation "x <- e ;; k" := (bind e (fun x => k))
  (at level 60, e at next level, right associativity) : py_scope.
Notation "e1 ;;; e2" := (bind e1 (fun _ => e2))
  (at level 60, right associativity) : py_scope.

Definition is_ok {A} (r : outcome A) : bool :=
  match r with Ok _ => true | Raise _ => false end.

(** The value of an outcome that did not raise. *)
Definition res_to_option {A} (r : outcome A) : option A :=
  match r with Ok a => Some a | Raise _ => None end.

(** [mapM f l]: a list comprehension whose body can raise.  The first
    exception, in list order, is the comprehension's. *)
Fixpoint mapM {A B} (f : A -> outcome B) (l : list A) : outcome (list B) :=
  match l with
  | [] => Ok []
  | x :: l' =>
      bind (f x) (fun y => bind (mapM f l') (fun ys => Ok (y :: ys)))
  end.

(** ** Tactics *)

(** Case analysis on the outcome scrutinised by the goal or a hypothesis. *)
Ltac case_res :=
  match goal with
  | |- context [bind ?r _] => destruct r eqn:?; simpl
  | H : context [bind ?r _] |- _ => destruct r eqn:?; simpl in H
  | |- context [match ?r with Ok _ => _ | Raise _ => _ end] =>
      destruct r eqn:?; simpl
  | H : context [match ?r with Ok _ => _ | Raise _ => _ end] |- _ =>
      destruct r eqn:?; simpl in H
  end.

Ltac res_simpl := repeat (simplify_eq /=; try case_res); simplify_eq /=.

(** ** Laws of [bind] *)

Lemma bind_Ok_l {A B} (a : A) (k : A -> outcome B) : bind (Ok a) k = k a.
Proof. done. Qed.

Lemma bind_Ok_r {A} (r : outcome A) : bind r Ok = r.
Proof. by destruct r. Qed.

Lemma bind_assoc {A B C} (r : outcome A) (k : A -> outcome B)
  (h : B -> outcome C) :
  bind (bind r k) h = bind r (fun a => bind (k a) h).
Proof. by destruct r. Qed.

Lemma bind_Ok_inv {A B} (r : outcome A) (k : A -> outcome B) b :
  bind r k = Ok b <-> exists a, r = Ok a /\ k a = Ok b.
Proof.
  destruct r as [a|e]; simpl; split; try done.
  - intros ?. by exists a.
  - by intros (a' & [= <-] & ?).
  - by intros (? & [=] & _).
Qed.

Lemma bind_Raise_inv {A B} (r : outcome A) (k : A -> outcome B) e :
  bind r k = Raise e <-> r = Raise e \/ exists a, r = Ok a /\ k a = Raise e.
Proof.
  destruct r as [a|e']; simpl; split.
  - intros ?. right. by exists a.
  - by intros [[=] | (a' & [= <-] & ?)].
  - intros [= ->]. by left.
  - by intros [[= ->] | (? & [=] & _)].
Qed.

(** ** [mapM] *)

Lemma mapM_Ok_Forall2 {A B} (f : A -> outcome B) l k :
  mapM f l = Ok k <-> Forall2 (fun x y => f x = Ok y) l k.
Proof.
  revert k. induction l as [|x l IH]; intros k; simpl.
  - split; [intros [= <-]; constructor | by inversion 1].
  - rewrite bind_Ok_inv. split.
    + intros (y & Hy & (ys & Hys & [= <-])%bind_Ok_inv).
      constructor; [done | by apply IH].
    + inversion 1 as [|? y ? ys Hy Hys]; subst.
      exists y. split; [done |]. apply bind_Ok_inv.
      exists ys. by rewrite IH.
Qed.

Lemma mapM_total {A B} (f : A -> B) l :
  mapM (fun x => Ok (f x)) l = Ok (f <$> l).
Proof. induction l as [|x l IH]; simpl; [done | by rewrite IH]. Qed.

Lemma mapM_ext_Forall {A B} (f g : A -> outcome B) l :
  Forall (fun x => f x = g x) l -> mapM f l = mapM g l.
Proof. induction 1 as [|x l Hx _ IH]; simpl; [done | by rewrite Hx, IH]. Qed.

Lemma mapM_length {A B} (f : A -> outcome B) l k :
  mapM f l = Ok k -> length k = length l.
Proof. rewrite mapM_Ok_Forall2. intros H. symmetry. by eapply Forall2_length. Qed.

(** The comprehension raises exactly when its body raises on some element,
    and then it raises what the body raises on the first such element. *)
Lemma mapM_Raise_first {A B} (f : A -> outcome B) l e :
  mapM f l = Raise e <->
  exists l1 x l2, l = l1 ++ x :: l2 /\ f x = Raise e /\
                  Forall (fun y => is_ok (f y) = true) l1.
Proof.
  induction l as [|x l IH]; simpl.
  - split; [done | intros (l1 & ? & ? & ? & _); by destruct l1].
  - rewrite bind_Raise_inv. split.
    + intros [Hx | (y & Hy & H)].
      * exists []. by exists x, l.
      * apply bind_Raise_inv in H as [H | (? & _ & [=])].
        apply IH in H as (l1 & z & l2 & -> & Hz & Hl1).
        exists (x :: l1), z, l2. split_and!; [done .. |].
        constructor; [by rewrite Hy | done].
    + intros ([|x' l1] & z & l2 & [= <- ->] & Hz & Hl1); [by left |].
      apply Forall_cons in Hl1 as [Hx Hl1].
      destruct (f x) as [y|] eqn:Hy; [| done]. right. exists y.
      split; [done |]. apply bind_Raise_inv. left. apply IH.
      by exists l1, z, l2.
Qed.

(** ** Lists *)

Lemma NoDup_snoc {A} (l : list A) x : NoDup l -> x ∉ l -> NoDup (l ++ [x]).
Proof.
  intros Hl Hx. apply NoDup_app. split_and!; [done | | apply NoDup_singleton].
  intros y Hy ->%list_elem_of_singleton. done.
Qed.

(** The first elements of a list are a sublist of it. *)
Lemma prefix_sublist {A} (l1 l2 : list A) : l1 `prefix_of` l2 -> l1 `sublist_of` l2.
Proof. intros [k ->]. by apply sublist_inserts_r. Qed.

(** A function is injective on a list whose image has no duplicates. *)
Lemma NoDup_fmap_inj {A B} (f : A -> B) (l : list A) x y :
  NoDup (f <$> l) -> x ∈ l -> y ∈ l -> f x = f y -> x = y.
Proof.
  induction l as [|z l IH]; simpl; [by intros _ ?%elem_of_nil |].
  intros [Hz Hl]%NoDup_cons [-> | Hx]%elem_of_cons [-> | Hy]%elem_of_cons Heq;
    [done | | | by apply IH].
  - destruct Hz. rewrite Heq. by apply list_elem_of_fmap_2.
  - destruct Hz. rewrite <- Heq. by apply list_elem_of_fmap_2.
Qed.

Lemma length_omap {A B} (f : A -> option B) (l : list A) :
  length (omap f l) <= length l.
Proof.
  induction l as [|x l IH]; [done |]. csimpl. destruct (f x); simpl; lia.
Qed.

Lemma foldl_ext_in {A B} (f g : A -> B -> A) l a :
  (forall a x, x ∈ l -> f a x = g a x) -> foldl f a l = foldl g a l.
Proof.
  revert a. induction l as [|x l IH]; intros a Hfg; simpl; [done |].
  rewrite Hfg by left. apply IH. intros. apply Hfg. by right.
Qed.

(** An invariant of the accumulator of a [for] loop. *)
Lemma foldl_invariant {A B} (P : A -> Prop) (f : A -> B -> A) l a :
  P a -> (forall a x, x ∈ l -> P a -> P (f a x)) -> P (foldl f a l).
Proof.
  revert a. induction l as [|x l IH]; intros a Ha Hf; simpl; [done |].
  apply IH; [apply Hf; [left | done] |].
  intros. apply Hf; [by right | done].
Qed.

Lemma prefix_snoc_r {A} (l k : list A) x : l `prefix_of` k -> l `prefix_of` k ++ [x].
Proof. apply prefix_app_r. Qed.

(** ** Hints *)

Create HintDb py discriminated.
Create Rewrite HintDb py_rw.

#[export] Hint Resolve NoDup_nil_2 NoDup_snoc prefix_snoc_r : py.
#[export] Hint Rewrite @bind_Ok_l @bind_Ok_r @bind_assoc : py_rw.
#[export] Hint Rewrite @mapM_total : py_rw.
