(* ===== verification/PyStr.v ===== *)
(** * PyStr: Python strings

    A Python [str] is modelled by the bytes of its UTF-8 encoding.  This file
    holds the operations of [str] and the builtins on strings that the
    sources call: [sorted], [str.join], [str.startswith], iteration over a
    string, and truthiness; [endswith], which is how a glob pattern
    [*.ts] tests a name; and [split_on], [str.split] with a separator of
    one character, which pathlib uses on paths and which reads a text as
    its lines. *)

From stdpp Require Import base tactics list strings sorting.
From S2P Require Import Prelude.


(** ** Concatenation *)

Lemma append_nil_l (s : string) : "" +:+ s = s.
Proof. done. Qed.

Lemma append_cons c (s1 s2 : string) : String c s1 +:+ s2 = String c (s1 +:+ s2).
Proof. done. Qed.

Lemma append_nil_r (s : string) : s +:+ "" = s.
Proof. induction s as [|c s IH]; [done | by rewrite append_cons, IH]. Qed.

Lemma append_assoc (s1 s2 s3 : string) :
  (s1 +:+ s2) +:+ s3 = s1 +:+ (s2 +:+ s3).
Proof. induction s1 as [|c s1 IH]; [done | by rewrite !append_cons, IH]. Qed.

Lemma length_append (s1 s2 : string) :
  String.length (s1 +:+ s2) = String.length s1 + String.length s2.
Proof.
  induction s1 as [|c s1 IH]; [done |]. rewrite append_cons. simpl. by rewrite IH.
Qed.

Lemma append_eq_nil (s1 s2 : string) : s1 +:+ s2 = "" -> s1 = "" /\ s2 = "".
Proof. by destruct s1. Qed.

(** ** Truthiness *)

(** [bool(s)] for a string: the empty string is falsy. *)
Definition truthy (s : string) : bool :=
  match s with
  | "" => false
  | String _ _ => true
  end.

Lemma truthy_spec s : truthy s = true <-> s <> "".
Proof. by destruct s. Qed.

(** [bool(o)] for a value that is a string or [None]. *)
Definition truthy_opt (o : option string) : bool :=
  match o with
  | Some s => truthy s
  | None => false
  end.

(** ** [sorted] *)

(** The builtin [sorted] on a list of strings: ascending in the order of
    [str], which is the order of code points, that is, of UTF-8 bytes. *)
Definition sorted (l : list string) : list string :=
  merge_sort String.le l.

Lemma sorted_Sorted l : Sorted String.le (sorted l).
Proof. apply (Sorted_merge_sort _). Qed.

Lemma sorted_Permutation l : sorted l ≡ₚ l.
Proof. apply merge_sort_Permutation. Qed.

Lemma elem_of_sorted l x : x ∈ sorted l <-> x ∈ l.
Proof. by rewrite sorted_Permutation. Qed.

Lemma length_sorted l : length (sorted l) = length l.
Proof. by rewrite sorted_Permutation. Qed.

(** [sorted l] is the only sorted rearrangement of [l]: the model does not
    depend on the sorting algorithm. *)
Lemma sorted_unique l k : Sorted String.le k -> k ≡ₚ l -> k = sorted l.
Proof.
  intros Hk Hkl. apply (Sorted_unique String.le); [done | apply sorted_Sorted |].
  by rewrite sorted_Permutation.
Qed.

#[export] Instance sorted_proper : Proper (Permutation ==> eq) sorted.
Proof.
  intros l k Hlk. apply sorted_unique; [apply sorted_Sorted |].
  by rewrite sorted_Permutation.
Qed.

Lemma sorted_id l : Sorted String.le l -> sorted l = l.
Proof. intros Hl. symmetry. by apply sorted_unique. Qed.

Lemma sorted_idemp l : sorted (sorted l) = sorted l.
Proof. apply sorted_id, sorted_Sorted. Qed.

Lemma sorted_nil : sorted [] = [].
Proof. done. Qed.

Lemma sorted_singleton x : sorted [x] = [x].
Proof. done. Qed.

Lemma NoDup_sorted l : NoDup (sorted l) <-> NoDup l.
Proof. by rewrite sorted_Permutation. Qed.

(** ** [str.join] *)

(** The line feed, Python's ["\n"]. *)
Definition lf : Ascii.ascii := Ascii.ascii_of_nat 10.
Definition nl : string := String lf "".

(** [sep.join(l)]. *)
Fixpoint join (sep : string) (l : list string) : string :=
  match l with
  | [] => ""
  | x :: l' =>
      match l' with
      | [] => x
      | _ :: _ => x +:+ sep +:+ join sep l'
      end
  end.

Lemma join_cons sep x y l : join sep (x :: y :: l) = x +:+ sep +:+ join sep (y :: l).
Proof. done. Qed.

Lemma join_app_cons sep l x k :
  l <> [] -> join sep (l ++ x :: k) = join sep l +:+ sep +:+ join sep (x :: k).
Proof.
  induction l as [|y l IH]; [done |]. intros _. destruct l as [|z l].
  - done.
  - change (join sep ((y :: z :: l) ++ x :: k))
      with (y +:+ sep +:+ join sep ((z :: l) ++ x :: k)).
    rewrite IH by done. rewrite join_cons. by rewrite !append_assoc.
Qed.

Lemma length_join sep l :
  String.length (join sep l) =
  sum_list (String.length <$> l) + String.length sep * pred (length l).
Proof.
  induction l as [|x l IH]; [simpl; lia |].
  destruct l as [|y l]; [simpl; lia |].
  rewrite join_cons, !length_append, IH. simpl. lia.
Qed.

(** ** [str.split] *)

Section split.
Context (c : Ascii.ascii).

(** [s.split(c)] for a separator of one character: never the empty list. *)
Fixpoint split_on (s : string) : list string :=
  match s with
  | "" => [""]
  | String a s' =>
      if Ascii.eqb a c then "" :: split_on s'
      else
        match split_on s' with
        | [] => [String a ""]
        | hd :: tl => String a hd :: tl
        end
  end.

(** A string that holds no [c]. *)
Fixpoint char_free (s : string) : bool :=
  match s with
  | "" => true
  | String a s' => negb (Ascii.eqb a c) && char_free s'
  end.

Lemma split_on_nonempty s : split_on s <> [].
Proof.
  destruct s as [|a s]; simpl; [done |].
  destruct (Ascii.eqb a c); [done |]. by destruct (split_on s).
Qed.

Lemma split_on_char_free s : Forall (fun x => char_free x = true) (split_on s).
Proof.
  induction s as [|a s IH]; simpl; [by repeat constructor |].
  destruct (Ascii.eqb a c) eqn:Ha; [by constructor |].
  destruct (split_on s) as [|hd tl]; [by repeat constructor; simpl; rewrite Ha |].
  apply Forall_cons in IH as [Hhd Htl]. constructor; [| done].
  simpl. by rewrite Ha, Hhd.
Qed.

Lemma split_on_free s : char_free s = true -> split_on s = [s].
Proof.
  induction s as [|a s IH]; simpl; [done |].
  intros [Ha Hs]%andb_prop. apply negb_true_iff in Ha. rewrite Ha.
  by rewrite (IH Hs).
Qed.

(** Splitting takes the parts before and after a separator apart. *)
Lemma split_on_app x s :
  split_on (x +:+ String c s) = split_on x ++ split_on s.
Proof.
  induction x as [|a x IH].
  - rewrite append_nil_l. simpl. by rewrite Ascii.eqb_refl.
  - rewrite append_cons. simpl. rewrite IH.
    destruct (Ascii.eqb a c); [done |].
    pose proof (split_on_nonempty x). by destruct (split_on x).
Qed.

Lemma split_on_append x s :
  char_free x = true -> split_on (x +:+ String c s) = x :: split_on s.
Proof. intros Hx. by rewrite split_on_app, split_on_free. Qed.

(** Splitting a joined list gives the parts of its elements. *)
Lemma split_on_join_bind l :
  l <> [] -> split_on (join (String c "") l) = l ≫= split_on.
Proof.
  induction l as [|x l IH]; [done |]. intros _.
  destruct l as [|y l]; [simpl; by rewrite app_nil_r |].
  rewrite join_cons. change (String c "" +:+ ?s) with (String c s).
  rewrite split_on_app, IH by done. by rewrite bind_cons.
Qed.

(** Splitting undoes joining, for parts without separator. *)
Lemma split_on_join l :
  l <> [] -> Forall (fun x => char_free x = true) l ->
  split_on (join (String c "") l) = l.
Proof.
  intros Hl Hfree. rewrite split_on_join_bind by done. clear Hl.
  induction Hfree as [|x l Hx _ IH]; [done |].
  by rewrite bind_cons, IH, split_on_free.
Qed.

(** Joining undoes splitting. *)
Lemma join_split_on s : join (String c "") (split_on s) = s.
Proof.
  induction s as [|a s IH]; [done |]. simpl.
  pose proof (split_on_nonempty s) as Hne.
  destruct (Ascii.eqb_spec a c) as [-> | _].
  - destruct (split_on s) as [|hd tl]; [done |]. rewrite join_cons, IH. done.
  - destruct (split_on s) as [|hd [|y tl]]; [done | |].
    + simpl in *. by rewrite IH.
    + rewrite join_cons in *. rewrite <- IH. by rewrite append_cons.
Qed.

Lemma char_free_append x y :
  char_free (x +:+ y) = char_free x && char_free y.
Proof.
  induction x as [|a x IH]; [done |]. rewrite append_cons. simpl.
  rewrite IH. by rewrite andb_assoc.
Qed.

End split.

(** The lines of a text: [s.split("\n")]. *)
Definition lines (s : string) : list string := split_on lf s.

(** ** [str.startswith] *)

(** [s.startswith(p)]. *)
Definition startswith (s p : string) : bool := String.prefix p s.

Lemma startswith_spec s p : startswith s p = true <-> exists r, s = p +:+ r.
Proof.
  unfold startswith. revert s.
  induction p as [|c p IH]; intros [|c' s]; simpl.
  - split; [intros _; by exists "" | done].
  - split; [intros _; by exists (String c' s) | done].
  - split; [done | by intros (? & ?)].
  - destruct (Ascii.ascii_dec c c') as [<-|Hne].
    + rewrite IH. split; [intros (r & ->); by exists r |].
      intros (r & [= ->]). by exists r.
    + split; [done | intros (r & [= ? _]); done].
Qed.

Lemma startswith_nil s : startswith s "" = true.
Proof. apply startswith_spec. by exists s. Qed.

Lemma startswith_append p r : startswith (p +:+ r) p = true.
Proof. apply startswith_spec. by exists r. Qed.

(** [s[len(p):]] when [s] starts with [p]. *)
Fixpoint strip_prefix (p s : string) : option string :=
  match p, s with
  | "", _ => Some s
  | String a p', String b s' =>
      if Ascii.eqb a b then strip_prefix p' s' else None
  | String _ _, "" => None
  end.

Lemma strip_prefix_append p r : strip_prefix p (p +:+ r) = Some r.
Proof.
  induction p as [|a p IH]; [by destruct r |].
  rewrite append_cons. simpl. by rewrite Ascii.eqb_refl.
Qed.

Lemma strip_prefix_Some p s r : strip_prefix p s = Some r <-> s = p +:+ r.
Proof.
  split; [| intros ->; apply strip_prefix_append].
  revert s. induction p as [|a p IH]; intros [|b s]; simpl; try done.
  - by intros [= <-].
  - by intros [= <-].
  - destruct (Ascii.eqb_spec a b) as [<- |]; [| done].
    intros ->%IH. by rewrite append_cons.
Qed.

Lemma strip_prefix_None p s : strip_prefix p s = None <-> startswith s p = false.
Proof.
  rewrite <- not_true_iff_false, startswith_spec. split.
  - intros Hn (r & ->). by rewrite strip_prefix_append in Hn.
  - intros Hn. destruct (strip_prefix p s) as [r|] eqn:Hr; [| done].
    destruct Hn. exists r. by apply strip_prefix_Some.
Qed.

(** ** Suffixes *)

(** [s.endswith(p)]. *)
Fixpoint endswith (s p : string) : bool :=
  if String.eqb s p then true
  else match s with
       | "" => false
       | String _ s' => endswith s' p
       end.

(** The last character of a string. *)
Fixpoint last_char (s : string) : option Ascii.ascii :=
  match s with
  | "" => None
  | String c "" => Some c
  | String _ s' => last_char s'
  end.

Lemma endswith_spec s p : endswith s p = true <-> exists r, s = r +:+ p.
Proof.
  induction s as [|c s IH]; cbn [endswith].
  - destruct (String.eqb_spec "" p) as [<- | Hne].
    + split; [by exists "" | done].
    + split; [done |]. intros (r & Hr). symmetry in Hr.
      by apply append_eq_nil in Hr as [_ ->].
  - destruct (String.eqb_spec (String c s) p) as [<- | Hne].
    + split; [by exists "" | done].
    + rewrite IH. split.
      * intros (r & ->). by exists (String c r).
      * intros ([|c' r] & Hr); [done |]. rewrite append_cons in Hr.
        injection Hr as _ ->. by exists r.
Qed.

Lemma endswith_append r p : endswith (r +:+ p) p = true.
Proof. apply endswith_spec. by exists r. Qed.

Lemma last_char_append r p : p <> "" -> last_char (r +:+ p) = last_char p.
Proof.
  intros Hp. induction r as [|c r IH]; [done |]. rewrite append_cons.
  simpl. rewrite IH. destruct (r +:+ p) eqn:E; [| done].
  by apply append_eq_nil in E as [_ ->].
Qed.

(** Two suffixes of a string end in the same character. *)
Lemma endswith_last_char s p q :
  p <> "" -> q <> "" -> endswith s p = true -> endswith s q = true ->
  last_char p = last_char q.
Proof.
  intros Hp Hq (r & ->)%endswith_spec (r' & Hr')%endswith_spec.
  rewrite <- (last_char_append r p Hp), Hr'. by apply last_char_append.
Qed.

(** ** Iterating over a string *)

(** A byte [10xxxxxx] continues the code point of the byte before it. *)
Definition is_continuation (c : Ascii.ascii) : bool :=
  match c with
  | Ascii.Ascii _ _ _ _ _ _ b6 b7 => b7 && negb b6
  end.

(** Whether the string starts in the middle of a code point. *)
Definition continues (s : string) : bool :=
  match s with
  | "" => false
  | String c _ => is_continuation c
  end.

(** [list(s)]: the code points of [s], each as a string of its own. *)
Fixpoint utf8_chars (s : string) : list string :=
  match s with
  | "" => []
  | String c s' =>
      match utf8_chars s' with
      | [] => [String c ""]
      | hd :: tl =>
          if continues s' then String c hd :: tl else String c "" :: hd :: tl
      end
  end.

Lemma utf8_chars_join s : join "" (utf8_chars s) = s.
Proof.
  induction s as [|c s IH]; [done |]. simpl.
  destruct (utf8_chars s) as [|hd tl] eqn:E; [by rewrite <- IH |].
  destruct (continues s).
  - destruct tl as [|y tl]; [simpl in *; by rewrite IH |].
    rewrite join_cons in *. by rewrite <- IH.
  - rewrite join_cons. by rewrite IH.
Qed.

Lemma utf8_chars_nonempty s x : x ∈ utf8_chars s -> x <> "".
Proof.
  revert x. induction s as [|c s IH]; intros x; simpl; [by intros ?%elem_of_nil |].
  destruct (utf8_chars s) as [|hd tl] eqn:E.
  { by intros ->%list_elem_of_singleton. }
  destruct (continues s).
  - intros [-> | Hx]%elem_of_cons; [done |]. apply IH. by right.
  - intros [-> | Hx]%elem_of_cons; [done | by apply IH].
Qed.

(** ** Hints *)

#[export] Hint Resolve sorted_Sorted sorted_Permutation : py.
#[export] Hint Rewrite append_nil_l append_cons append_nil_r append_assoc : py_rw.
#[export] Hint Rewrite length_append : py_rw.
#[export] Hint Rewrite sorted_nil sorted_singleton sorted_idemp length_sorted : py_rw.
