(* ===== verification/Paths.v ===== *)
(** * Paths: [Path(p).as_posix()]

    Every path that enters the graph or the context goes through
    [Path(p).as_posix()] (graph_utils.py lines 15, 16, 26 and 38; main.py
    lines 83 and 92).  [Path] is pathlib's, so the repository relies on an
    interface: [PathFlavour], a function with the law the code needs,
    idempotence.  The other files are proved against the interface.

    [posix_flavour] implements it as pathlib does on a POSIX host
    ([PurePosixPath]): [splitroot] finds the root (["/"], or ["//"] for
    exactly two leading slashes), the rest is split at ["/"], empty and ["."]
    parts are dropped, and the string is the root followed by the parts
    joined by ["/"], or ["."] when there is nothing at all.  A backslash is
    an ordinary character there and [".."] is kept. *)

From stdpp Require Import base tactics list strings.
From S2P Require Import Prelude PyStr.


(** ** The interface *)

Class PathFlavour := {
  as_posix : string -> string;
  as_posix_idemp : forall p, as_posix (as_posix p) = as_posix p
}.

(** A path is normalised when [as_posix] leaves it as it is. *)
Definition normalised `{PathFlavour} (p : string) : Prop := as_posix p = p.

#[export] Instance normalised_dec `{PathFlavour} p : Decision (normalised p).
Proof. unfold normalised. apply _. Defined.

Lemma as_posix_normalised `{PathFlavour} p : normalised (as_posix p).
Proof. apply as_posix_idemp. Qed.

Lemma Forall_normalised_fmap `{PathFlavour} (l : list string) :
  Forall normalised (as_posix <$> l).
Proof. apply Forall_fmap, Forall_true. intros p. apply as_posix_normalised. Qed.

Lemma fmap_as_posix_normalised `{PathFlavour} (l : list string) :
  Forall normalised l -> as_posix <$> l = l.
Proof.
  induction 1 as [|p l Hp _ IH]; [done |]. rewrite fmap_cons. by rewrite Hp, IH.
Qed.

(** ** The POSIX flavour *)

(** The separator. *)
Definition sep : Ascii.ascii := Ascii.ascii_of_nat 47.

(** [s.split("/")]: never the empty list. *)
Fixpoint split_sep (s : string) : list string :=
  match s with
  | "" => [""]
  | String c s' =>
      if Ascii.eqb c sep then "" :: split_sep s'
      else
        match split_sep s' with
        | [] => [String c ""]
        | hd :: tl => String c hd :: tl
        end
  end.

(** [posixpath.splitroot], without the drive, which is always empty. *)
Definition splitroot (p : string) : string * string :=
  match p with
  | String c0 r0 =>
      if Ascii.eqb c0 sep then
        match r0 with
        | String c1 r1 =>
            if Ascii.eqb c1 sep then
              match r1 with
              | String c2 _ =>
                  if Ascii.eqb c2 sep then ("/", r0) else ("//", r1)
              | "" => ("//", r1)
              end
            else ("/", r0)
        | "" => ("/", r0)
        end
      else ("", p)
  | "" => ("", p)
  end.

(** A part that is kept: neither empty nor ["."]. *)
Definition kept_part (x : string) : bool :=
  match x with
  | "" => false
  | String c "" => negb (Ascii.eqb c (Ascii.ascii_of_nat 46))
  | _ => true
  end.

(** The parts of the path after its root. *)
Definition posix_parts (rel : string) : list string :=
  List.filter kept_part (split_sep rel).

(** [str(PurePosixPath(p))], which [as_posix] returns unchanged. *)
Definition posix_as_posix (p : string) : string :=
  let '(root, rel) := splitroot p in
  let tail := posix_parts rel in
  match root with
  | "" => match tail with [] => "." | _ :: _ => join "/" tail end
  | _ => root +:+ join "/" tail
  end.

(** ** Splitting and joining *)

(** A string that holds no separator. *)
Fixpoint sep_free (s : string) : bool :=
  match s with
  | "" => true
  | String c s' => negb (Ascii.eqb c sep) && sep_free s'
  end.

(** A string that does not start with the separator. *)
Definition no_leading_sep (s : string) : bool :=
  match s with
  | "" => true
  | String c _ => negb (Ascii.eqb c sep)
  end.

(** The normal form, from its root and parts. *)
Definition posix_format (root : string) (tail : list string) : string :=
  match root with
  | "" => match tail with [] => "." | _ :: _ => join "/" tail end
  | _ => root +:+ join "/" tail
  end.

(** A root and parts as [splitroot] and [posix_parts] return them. *)
Definition parsed_path (root : string) (tail : list string) : Prop :=
  (root = "" \/ root = "/" \/ root = "//") /\
  Forall (fun x => kept_part x = true) tail /\
  Forall (fun x => sep_free x = true) tail.

(** The backslash, which a string literal cannot escape. *)
Definition backslash : string := String (Ascii.ascii_of_nat 92) "".

(** [split_sep] and [sep_free] are [split_on] and [char_free] at the
    separator, and take their lemmas from there. *)
Lemma split_sep_split_on s : split_sep s = split_on sep s.
Proof. induction s as [|c s IH]; simpl; by rewrite ?IH. Qed.

Lemma sep_free_char_free s : sep_free s = char_free sep s.
Proof. induction s as [|c s IH]; simpl; by rewrite ?IH. Qed.

Lemma split_sep_nonempty s : split_sep s <> [].
Proof. rewrite split_sep_split_on. apply split_on_nonempty. Qed.

Lemma split_sep_sep_free s : Forall (fun x => sep_free x = true) (split_sep s).
Proof.
  rewrite split_sep_split_on.
  eapply Forall_impl; [apply split_on_char_free |].
  intros x Hx. by rewrite sep_free_char_free.
Qed.

(** Splitting undoes joining, for parts without separator. *)
Lemma split_sep_join l :
  l <> [] -> Forall (fun x => sep_free x = true) l -> split_sep (join "/" l) = l.
Proof.
  intros Hl Hfree. rewrite split_sep_split_on.
  apply (split_on_join sep); [done |].
  eapply Forall_impl; [apply Hfree |].
  intros x Hx. by rewrite <- sep_free_char_free.
Qed.

Lemma kept_part_nonempty x : kept_part x = true -> x <> "".
Proof. by destruct x. Qed.

Lemma posix_parts_kept rel : Forall (fun x => kept_part x = true) (posix_parts rel).
Proof.
  unfold posix_parts. apply List.Forall_forall. intros x Hx.
  by apply List.filter_In in Hx as [_ ?].
Qed.

Lemma posix_parts_sep_free rel :
  Forall (fun x => sep_free x = true) (posix_parts rel).
Proof.
  unfold posix_parts. apply List.Forall_forall. intros x Hx.
  apply List.filter_In in Hx as [Hx _].
  by apply (proj1 (List.Forall_forall _ _) (split_sep_sep_free rel)).
Qed.

Lemma filter_kept_id l :
  Forall (fun x => kept_part x = true) l -> List.filter kept_part l = l.
Proof. induction 1 as [|x l Hx _ IH]; simpl; [done | by rewrite Hx, IH]. Qed.

(** The parts of a joined list of parts are the parts. *)
Lemma posix_parts_join l :
  Forall (fun x => kept_part x = true) l ->
  Forall (fun x => sep_free x = true) l ->
  posix_parts (join "/" l) = l.
Proof.
  intros Hk Hs. unfold posix_parts. destruct l as [|x l]; [done |].
  rewrite split_sep_join by done. by apply filter_kept_id.
Qed.

Lemma join_no_leading_sep l :
  Forall (fun x => kept_part x = true) l ->
  Forall (fun x => sep_free x = true) l ->
  no_leading_sep (join "/" l) = true.
Proof.
  destruct l as [|x l]; [done |].
  intros [Hk _]%Forall_cons [Hs _]%Forall_cons.
  destruct x as [|c x]; [done |]. simpl in Hs. apply andb_prop in Hs as [Hc _].
  destruct l; [done |]. by rewrite join_cons, append_cons.
Qed.

(** ** The root of a normal form *)

Lemma splitroot_relative s : no_leading_sep s = true -> splitroot s = ("", s).
Proof.
  destruct s as [|c s]; [done |]. simpl. intros Hc%negb_true_iff. by rewrite Hc.
Qed.

Lemma splitroot_root1 s :
  no_leading_sep s = true -> splitroot ("/" +:+ s) = ("/", s).
Proof.
  change ("/" +:+ s) with (String sep s). simpl.
  destruct s as [|c s]; [done |]. simpl. intros Hc%negb_true_iff. by rewrite Hc.
Qed.

Lemma splitroot_root2 s :
  no_leading_sep s = true -> splitroot ("//" +:+ s) = ("//", s).
Proof.
  change ("//" +:+ s) with (String sep (String sep s)). simpl.
  destruct s as [|c s]; [done |]. simpl. intros Hc%negb_true_iff. by rewrite Hc.
Qed.

(** The roots [splitroot] can return. *)
Lemma splitroot_cases p :
  let '(root, rel) := splitroot p in
  root = "" /\ rel = p \/ root = "/" \/ root = "//".
Proof.
  destruct p as [|c0 [|c1 [|c2 r]]]; simpl; auto.
  - destruct (Ascii.eqb c0 sep); auto.
  - destruct (Ascii.eqb c0 sep); [| auto]. destruct (Ascii.eqb c1 sep); auto.
  - destruct (Ascii.eqb c0 sep); [| auto]. destruct (Ascii.eqb c1 sep); [| auto].
    destruct (Ascii.eqb c2 sep); auto.
Qed.

Lemma posix_as_posix_format p :
  posix_as_posix p = posix_format (splitroot p).1 (posix_parts (splitroot p).2).
Proof. unfold posix_as_posix. by destruct (splitroot p). Qed.

Lemma parsed_path_parse p : parsed_path (splitroot p).1 (posix_parts (splitroot p).2).
Proof.
  split_and!; [| apply posix_parts_kept | apply posix_parts_sep_free].
  pose proof (splitroot_cases p) as Hc. destruct (splitroot p) as [root rel].
  simpl. destruct Hc as [[-> _] | [-> | ->]]; auto.
Qed.

(** Parsing a formatted path gives back its root and parts. *)
Lemma posix_parse_format root tail :
  parsed_path root tail ->
  (splitroot (posix_format root tail)).1 = root /\
  posix_parts (splitroot (posix_format root tail)).2 = tail.
Proof.
  intros (Hroot & Hk & Hs).
  pose proof (join_no_leading_sep tail Hk Hs) as Hj.
  pose proof (posix_parts_join tail Hk Hs) as Hp.
  destruct Hroot as [-> | [-> | ->]].
  - destruct tail as [|x tail]; [done |].
    change (posix_format "" (x :: tail)) with (join "/" (x :: tail)).
    by rewrite splitroot_relative.
  - change (posix_format "/" tail) with ("/" +:+ join "/" tail).
    by rewrite splitroot_root1.
  - change (posix_format "//" tail) with ("//" +:+ join "/" tail).
    by rewrite splitroot_root2.
Qed.

(** The POSIX normal form is a fixed point of normalisation: the law of the
    interface. *)
#[export] Program Instance posix_flavour : PathFlavour := {|
  as_posix := posix_as_posix
|}.
Next Obligation.
  intros p. rewrite (posix_as_posix_format p).
  destruct (posix_parse_format _ _ (parsed_path_parse p)) as [Hr Ht].
  by rewrite posix_as_posix_format, Hr, Ht.
Qed.

#[export] Hint Resolve as_posix_normalised Forall_normalised_fmap : py.
#[export] Hint Rewrite @as_posix_idemp : py_rw.

(** ** Theorems *)

(** C23: normalising a path that is already normalised changes nothing:
    [Path(Path(p).as_posix()).as_posix() == Path(p).as_posix()] on a POSIX
    host. *)
Theorem posix_as_posix_idemp (p : string) :
  posix_as_posix (posix_as_posix p) = posix_as_posix p.
Proof. apply (as_posix_idemp (PathFlavour := posix_flavour)). Qed.

(** C37: two paths have the same normal form exactly when they have the same
    root and the same parts, that is, when they differ in repeated or
    trailing separators and in ["."] parts only: a backslash, a [".."]
    part or a different case makes two paths that the index, the graph
    and the context keep apart. *)
Theorem posix_as_posix_eq_iff (p q : string) :
  posix_as_posix p = posix_as_posix q <->
  (splitroot p).1 = (splitroot q).1 /\
  posix_parts (splitroot p).2 = posix_parts (splitroot q).2.
Proof.
  rewrite !posix_as_posix_format. split; [| by intros [-> ->]].
  intros Heq.
  destruct (posix_parse_format _ _ (parsed_path_parse p)) as [Hp1 Hp2].
  destruct (posix_parse_format _ _ (parsed_path_parse q)) as [Hq1 Hq2].
  rewrite Heq in Hp1, Hp2. split; congruence.
Qed.

(** The normal form is never the empty string, and a path with no part
    and no root is ["."]. *)
Theorem posix_as_posix_nonempty (p : string) : truthy (posix_as_posix p) = true.
Proof.
  rewrite posix_as_posix_format.
  destruct (parsed_path_parse p) as ([-> | [-> | ->]] & Hk & _); [| done ..].
  simpl. destruct (posix_parts _) as [|x l]; [done |].
  apply Forall_cons in Hk as [Hx _]. destruct x; [done |].
  destruct l; [done |]. by rewrite join_cons, append_cons.
Qed.

(** The POSIX flavour keeps backslashes and [".."]: ["a\b.ts"] and
    ["a/b.ts"] are two paths with two normal forms, and ["a/../b.ts"] is its
    own normal form; ["."] parts and repeated or trailing separators are
    removed. *)
Example posix_not_collapsed :
  posix_as_posix ("a" +:+ backslash +:+ "b.ts") = "a" +:+ backslash +:+ "b.ts" /\
  posix_as_posix ("a" +:+ backslash +:+ "b.ts") <> posix_as_posix "a/b.ts" /\
  posix_as_posix "a/../b.ts" = "a/../b.ts" /\
  posix_as_posix "./b.ts" = "b.ts" /\
  posix_as_posix "a//b.ts" = "a/b.ts" /\
  posix_as_posix "a/./b.ts/" = "a/b.ts".
Proof. by vm_compute. Qed.
