(* ===== verification/Graph.v ===== *)
(** * Graph: [load_dependency_graph]

    [load_dependency_graph] (graph_utils.py lines 7 to 17) opens
    [dependency_graph.json], parses it and normalises every key and every
    neighbour with [Path(...).as_posix()].  Opening and parsing are library
    code: their outcome is the input [graph_file], with every exception
    that opening, decoding or parsing can raise.  What the function does
    with the parsed value is modelled on all Python values JSON can give
    ([pyval]), so that every exception of the function is a value of the
    model: a value that is no object has no [items] ([AttributeError]), a
    neighbour list that cannot be iterated or holds a value that is no
    string raises [TypeError].

    The loaded graph is only read through [get], so it is a [gmap].
    [read_items] says what an object that loads denotes, item by item: a
    list gives its strings, a string its characters, an object its keys;
    [load_outcome] gives the outcome on every input and [load_lookup] the
    neighbours that the loaded graph has for a key. *)

From stdpp Require Import base tactics list strings gmap.
From S2P Require Import Prelude PyStr Paths.

#[local] Open Scope py_scope.

(** ** Python values *)

(** What [json.load] returns.  The items of an object are in the order of the
    file, as the items of a [dict] are; the keys of a [dict] are distinct,
    which no theorem needs.  A number that is no integer is a [PFloat]
    of a mantissa and a decimal exponent, of
    which only the test for zero is ever looked at. *)
#[warnings="-register-all"]
Inductive pyval : Type :=
| PNone
| PBool (b : bool)
| PInt (n : Z)
| PFloat (m e : Z)
| PStr (s : string)
| PList (l : list pyval)
| PDict (d : list (string * pyval)).

(** The outcome of opening and parsing the graph file: there is no file
    ([FileNotFoundError]), it cannot be opened or read as UTF-8 text (with
    the exception of [open] or of the decoder: [PermissionError],
    [IsADirectoryError], [UnicodeDecodeError]), its text is no JSON
    ([JSONDecodeError]), or it parses to a value. *)
Inductive graph_file : Type :=
| FileMissing
| FileUnreadable (e : pyexn)
| FileMalformed
| FileJson (raw_graph : pyval).

(** The loaded graph: normalised path to neighbours. *)
Abbreviation graph := (gmap string (list string)).

(** [graph.get(current, [])]. *)
Definition graph_get (g : graph) (current : string) : list string :=
  default [] (g !! current).

(** Two graphs list the same neighbours for every path, in any order. *)
Definition graph_equiv (g1 g2 : graph) : Prop :=
  forall u, graph_get g1 u ≡ₚ graph_get g2 u.

(** [iter(v)], as a list: the elements of a list, the keys of a dict, the
    code points of a string; other values are not iterable. *)
Definition py_iter (v : pyval) : outcome (list pyval) :=
  match v with
  | PList l => Ok l
  | PDict d => Ok (PStr <$> d.*1)
  | PStr s => Ok (PStr <$> utf8_chars s)
  | PNone | PBool _ | PInt _ | PFloat _ _ => Raise TypeError
  end.

Definition is_str (v : pyval) : bool :=
  match v with
  | PStr _ => true
  | _ => false
  end.

(** The string that a value is. *)
Definition str_of (v : pyval) : option string :=
  match v with
  | PStr s => Some s
  | _ => None
  end.

(** The values the comprehension of line 16 accepts as a neighbour list. *)
Definition values_ok (v : pyval) : bool :=
  match v with
  | PList l => forallb is_str l
  | PDict _ | PStr _ => true
  | PNone | PBool _ | PInt _ | PFloat _ _ => false
  end.

(** A graph file as the indexing side writes it: an object of lists of
    strings. *)
Abbreviation adjacency := (list (string * list string)).

Definition encode_adj (adj : adjacency) : pyval :=
  PDict ((fun kv => (kv.1, PList (PStr <$> kv.2))) <$> adj).

(** The strings that the comprehension of line 16 takes from a value that
    it accepts: the elements of a list, the characters of a string, the
    keys of an object. *)
Definition value_strings (v : pyval) : list string :=
  match v with
  | PList l => omap str_of l
  | PStr s => utf8_chars s
  | PDict d => d.*1
  | PNone | PBool _ | PInt _ | PFloat _ _ => []
  end.

(** The adjacency that the items of an object are read as. *)
Definition read_items (items : list (string * pyval)) : adjacency :=
  (fun kv => (kv.1, value_strings kv.2)) <$> items.

Section graph.
Context `{PathFlavour}.

(** [Path(v).as_posix()] for a Python value [v]. *)
Definition path_of (v : pyval) : outcome string :=
  match v with
  | PStr s => Ok (as_posix s)
  | _ => Raise TypeError
  end.

(** [[Path(v).as_posix() for v in values]]. *)
Definition normalise_values (values : pyval) : outcome (list string) :=
  vs <- py_iter values ;; mapM path_of vs.

(** The loop of lines 14 to 16 over the items that remain. *)
Fixpoint normalise_items (items : list (string * pyval)) (normalized : graph)
  : outcome graph :=
  match items with
  | [] => Ok normalized
  | (key, values) :: rest =>
      let norm_key := as_posix key in
      norm_values <- normalise_values values ;;
      normalise_items rest (<[norm_key := norm_values]> normalized)
  end.

(** [load_dependency_graph()], lines 7 to 17, on the outcome of opening and
    parsing the graph file. *)
Definition load_dependency_graph (f : graph_file) : outcome graph :=
  match f with
  | FileMissing => Raise FileNotFoundError
  | FileUnreadable e => Raise e
  | FileMalformed => Raise JSONDecodeError
  | FileJson raw_graph =>
      match raw_graph with
      | PDict items => normalise_items items ∅
      | _ => Raise AttributeError
      end
  end.

(** Every key and every neighbour of the graph is in normal form. *)
Definition graph_normalised (g : graph) : Prop :=
  map_Forall (fun k vs => normalised k /\ Forall normalised vs) g.

(** The graph an adjacency denotes: later items replace earlier items with
    the same normal form of the key. *)
Definition graph_of_adj (adj : adjacency) : graph :=
  foldl (fun m kv => <[as_posix kv.1 := as_posix <$> kv.2]> m) ∅ adj.

(** An item with its key and its neighbours normalised. *)
Definition normalise_item (kv : string * list string) : string * list string :=
  (as_posix kv.1, as_posix <$> kv.2).

(** The neighbours the last item of [adj] for the path [k] lists. *)
Definition last_item (adj : adjacency) (k : string) : option (list string) :=
  snd <$> last (filter (fun kv => as_posix kv.1 = k) adj).

(** ** Lemmas *)

Lemma graph_get_insert (g : graph) k vs u :
  graph_get (<[k := vs]> g) u = if decide (k = u) then vs else graph_get g u.
Proof. unfold graph_get. rewrite lookup_insert. by case_decide. Qed.

#[export] Instance graph_equiv_equivalence : Equivalence graph_equiv.
Proof.
  split.
  - by intros g u.
  - intros g1 g2 Hg u. by symmetry.
  - intros g1 g2 g3 H12 H23 u. by rewrite (H12 u).
Qed.

Lemma graph_equiv_insert g1 g2 k vs1 vs2 :
  graph_equiv g1 g2 -> vs1 ≡ₚ vs2 ->
  graph_equiv (<[k := vs1]> g1) (<[k := vs2]> g2).
Proof. intros Hg Hvs u. rewrite !graph_get_insert. by case_decide. Qed.

Lemma path_of_str (l : list string) : mapM path_of (PStr <$> l) = Ok (as_posix <$> l).
Proof.
  induction l as [|s l IH]; [done |]. rewrite !fmap_cons. simpl. by rewrite IH.
Qed.

Lemma path_of_ok v : is_ok (path_of v) = is_str v.
Proof. by destruct v. Qed.

Lemma mapM_path_of_ok l : is_ok (mapM path_of l) = forallb is_str l.
Proof.
  induction l as [|v l IH]; [done |]. simpl.
  destruct v; simpl; try done. rewrite <- IH. by destruct (mapM path_of l).
Qed.

Lemma normalise_values_ok v : is_ok (normalise_values v) = values_ok v.
Proof.
  unfold normalise_values. destruct v as [| | | | s | l | d]; simpl; try done.
  - by rewrite path_of_str.
  - apply mapM_path_of_ok.
  - by rewrite path_of_str.
Qed.

Lemma mapM_path_of_raises l e : mapM path_of l = Raise e -> e = TypeError.
Proof.
  intros (_ & v & _ & _ & Hv & _)%mapM_Raise_first. by destruct v; simplify_eq /=.
Qed.

Lemma normalise_values_raises v e : normalise_values v = Raise e -> e = TypeError.
Proof.
  unfold normalise_values. intros [Hv | (l & _ & Hl)]%bind_Raise_inv.
  - by destruct v; simplify_eq /=.
  - by eapply mapM_path_of_raises.
Qed.

Lemma normalise_values_normalised v l :
  normalise_values v = Ok l -> Forall normalised l.
Proof.
  unfold normalise_values. intros (vs & _ & Hl)%bind_Ok_inv.
  apply mapM_Ok_Forall2 in Hl. clear v.
  induction Hl as [|v p vs l Hv _ IH]; constructor; [| done].
  destruct v; simplify_eq /=. apply as_posix_normalised.
Qed.

Lemma omap_str_of (vs : list pyval) :
  forallb is_str vs = true -> PStr <$> omap str_of vs = vs.
Proof.
  induction vs as [|v vs IH]; [done |]. simpl. intros [Hv Hvs]%andb_true_iff.
  destruct v; try done. csimpl. by rewrite IH.
Qed.

(** A value that is accepted is read as its strings, normalised, in their
    order. *)
Lemma normalise_values_strings v :
  values_ok v = true -> normalise_values v = Ok (as_posix <$> value_strings v).
Proof.
  unfold normalise_values. destruct v as [| | | | s | l | d]; simpl; try done.
  - intros _. apply path_of_str.
  - intros Hl. rewrite <- (omap_str_of l Hl) at 1. apply path_of_str.
  - intros _. apply path_of_str.
Qed.

Lemma normalise_values_list (vs : list string) :
  normalise_values (PList (PStr <$> vs)) = Ok (as_posix <$> vs).
Proof. unfold normalise_values. simpl. apply path_of_str. Qed.

Lemma graph_normalised_empty : graph_normalised ∅.
Proof. apply map_Forall_empty. Qed.

Lemma graph_normalised_insert g k vs :
  graph_normalised g -> normalised k -> Forall normalised vs ->
  graph_normalised (<[k := vs]> g).
Proof. intros. by apply map_Forall_insert_2. Qed.

Lemma normalise_items_normalised items g0 g :
  graph_normalised g0 -> normalise_items items g0 = Ok g -> graph_normalised g.
Proof.
  revert g0. induction items as [|[key values] items IH]; intros g0 Hg0; simpl.
  - by intros [= <-].
  - intros (l & Hl & Hg)%bind_Ok_inv. eapply IH; [| done].
    apply graph_normalised_insert;
      eauto using as_posix_normalised, normalise_values_normalised.
Qed.

Lemma normalise_items_ok items g0 :
  is_ok (normalise_items items g0) = forallb (fun kv => values_ok kv.2) items.
Proof.
  revert g0. induction items as [|[key values] items IH]; intros g0; [done |].
  simpl. rewrite <- normalise_values_ok.
  destruct (normalise_values values); simpl; [apply IH | done].
Qed.

Lemma normalise_items_raises items g0 e :
  normalise_items items g0 = Raise e -> e = TypeError.
Proof.
  revert g0. induction items as [|[key values] items IH]; intros g0; [done |].
  simpl. intros [Hv | (l & _ & Hr)]%bind_Raise_inv; [| by eapply IH].
  by eapply normalise_values_raises.
Qed.

Lemma normalise_items_encode adj g0 :
  normalise_items ((fun kv => (kv.1, PList (PStr <$> kv.2))) <$> adj) g0 =
  Ok (foldl (fun m kv => <[as_posix kv.1 := as_posix <$> kv.2]> m) g0 adj).
Proof.
  revert g0. induction adj as [|[k vs] adj IH]; intros g0; [done |].
  rewrite fmap_cons. simpl. rewrite normalise_values_list. simpl. apply IH.
Qed.

(** An object whose values are accepted loads as the adjacency that its
    items are read as. *)
Lemma normalise_items_read items g0 :
  forallb (fun kv => values_ok kv.2) items = true ->
  normalise_items items g0 =
  Ok (foldl (fun m kv => <[as_posix kv.1 := as_posix <$> kv.2]> m) g0
        (read_items items)).
Proof.
  revert g0. induction items as [|[k v] items IH]; intros g0; [done |].
  cbn [forallb]. intros [Hv Hitems]%andb_true_iff. simpl in Hv.
  unfold read_items. rewrite fmap_cons. simpl.
  rewrite (normalise_values_strings v Hv). simpl. by apply IH.
Qed.

Lemma read_items_encode (adj : adjacency) :
  read_items ((fun kv => (kv.1, PList (PStr <$> kv.2))) <$> adj) = adj.
Proof.
  unfold read_items. rewrite <- list_fmap_compose.
  rewrite <- (list_fmap_id adj) at 2. apply list_fmap_ext.
  intros _ [k vs] _. simpl. f_equal.
  induction vs as [|x vs IH]; [done |]. rewrite fmap_cons. csimpl. by rewrite IH.
Qed.

Lemma graph_of_adj_snoc adj k vs :
  graph_of_adj (adj ++ [(k, vs)]) = <[as_posix k := as_posix <$> vs]> (graph_of_adj adj).
Proof. unfold graph_of_adj. by rewrite foldl_snoc. Qed.

Lemma last_item_snoc adj k vs k' :
  last_item (adj ++ [(k, vs)]) k' =
  if decide (as_posix k = k') then Some vs else last_item adj k'.
Proof.
  unfold last_item. rewrite filter_app, filter_cons, filter_nil. simpl.
  case_decide; [by rewrite last_snoc | by rewrite app_nil_r].
Qed.

Lemma graph_of_adj_lookup (adj : adjacency) (k : string) :
  graph_of_adj adj !! k = (fun vs : list string => as_posix <$> vs) <$> last_item adj k.
Proof.
  induction adj as [|[k' vs] adj IH] using rev_ind; [done |].
  rewrite graph_of_adj_snoc, last_item_snoc, lookup_insert.
  case_decide; [done | apply IH].
Qed.

(** The graph of an adjacency as a map built from its items, last first. *)
Lemma graph_of_adj_list_to_map (adj : adjacency) :
  graph_of_adj adj = list_to_map (reverse (normalise_item <$> adj)).
Proof.
  induction adj as [|[k vs] adj IH] using rev_ind; [done |].
  rewrite graph_of_adj_snoc, fmap_app, reverse_app, IH. done.
Qed.

(** Items whose keys stay distinct after normalisation may come in any
    order. *)
Lemma graph_of_adj_perm_items (adj1 adj2 : adjacency) :
  NoDup (as_posix <$> adj1.*1) -> adj1 ≡ₚ adj2 ->
  graph_of_adj adj1 = graph_of_adj adj2.
Proof.
  intros Hnd Hp. rewrite !graph_of_adj_list_to_map. apply list_to_map_proper.
  - rewrite fmap_reverse, reverse_Permutation, <- list_fmap_compose.
    by rewrite <- list_fmap_compose in Hnd.
  - by rewrite !reverse_Permutation, Hp.
Qed.

(** The neighbours of an item may come in any order. *)
Lemma foldl_insert_equiv (adj1 adj2 : adjacency) (g1 g2 : graph) :
  Forall2 (fun kv1 kv2 => kv1.1 = kv2.1 /\ kv1.2 ≡ₚ kv2.2) adj1 adj2 ->
  graph_equiv g1 g2 ->
  graph_equiv
    (foldl (fun m kv => <[as_posix kv.1 := as_posix <$> kv.2]> m) g1 adj1)
    (foldl (fun m kv => <[as_posix kv.1 := as_posix <$> kv.2]> m) g2 adj2).
Proof.
  intros Hadj. revert g1 g2.
  induction Hadj as [|[k1 vs1] [k2 vs2] adj1 adj2 [Hk Hvs] _ IH];
    intros g1 g2 Hg; [done |].
  simpl in *. subst k2. apply IH, graph_equiv_insert; [done |].
  by apply fmap_Permutation.
Qed.

Lemma graph_of_adj_perm_values (adj1 adj2 : adjacency) :
  Forall2 (fun kv1 kv2 => kv1.1 = kv2.1 /\ kv1.2 ≡ₚ kv2.2) adj1 adj2 ->
  graph_equiv (graph_of_adj adj1) (graph_of_adj adj2).
Proof. intros Hadj. by apply foldl_insert_equiv. Qed.

End graph.

#[export] Hint Resolve graph_normalised_empty graph_normalised_insert : py.

(** ** Theorems *)

Section graph_theorems.
Context `{PathFlavour}.

(** A graph file that holds an object of lists of strings loads, and the
    loaded graph is the one the adjacency denotes: every key and every
    neighbour normalised, a later item replacing an earlier one whose key
    has the same normal form. *)
Theorem load_adjacency (adj : adjacency) :
  load_dependency_graph (FileJson (encode_adj adj)) = Ok (graph_of_adj adj).
Proof. apply normalise_items_encode. Qed.

(** An object whose values are accepted loads as the graph of the
    adjacency that its items are read as. *)
Theorem load_read_items (items : list (string * pyval)) :
  forallb (fun kv => values_ok kv.2) items = true ->
  load_dependency_graph (FileJson (PDict items)) = Ok (graph_of_adj (read_items items)).
Proof. intros Hitems. by apply normalise_items_read. Qed.

(** C34: what the loaded graph lists for a path, for every object that
    loads: the strings of the value of the last item of the file whose key
    normalises to that path, each normalised, in the order of the file and
    as often as the file has them, and nothing when there is no such item.
    The strings of a value are the elements of a list, but also the
    characters of a string and the keys of an object; of two keys with the
    same normal form the later one replaces the earlier, and neighbours
    that coincide once they are normalised are kept twice. *)
Theorem load_lookup (items : list (string * pyval)) (k : string) :
  forallb (fun kv => values_ok kv.2) items = true ->
  (g <- load_dependency_graph (FileJson (PDict items)) ;; Ok (graph_get g k)) =
  Ok (as_posix <$> default [] (last_item (read_items items) k)).
Proof.
  intros Hitems. simpl. rewrite normalise_items_read by done. simpl. f_equal.
  unfold graph_get. fold (graph_of_adj (read_items items)).
  rewrite graph_of_adj_lookup. by destruct (last_item (read_items items) k).
Qed.

(** C18: whatever the file holds, a graph that loads is normalised: its keys
    and its neighbours are fixed points of [as_posix]. *)
Theorem load_normalised (f : graph_file) (g : graph) :
  load_dependency_graph f = Ok g -> graph_normalised g.
Proof.
  destruct f as [| | |[]]; try done. simpl.
  apply normalise_items_normalised, graph_normalised_empty.
Qed.

(** C6: the outcome of loading, for every input: a missing file raises
    [FileNotFoundError], a file that cannot be opened or decoded raises the
    exception of [open] or of the decoder, a file that is not JSON
    [JSONDecodeError], a JSON value that is no object [AttributeError]; an
    object loads when every value of it is a list of strings, a string or
    an object, and raises [TypeError] otherwise. *)
Theorem load_outcome (f : graph_file) :
  match f with
  | FileMissing => load_dependency_graph f = Raise FileNotFoundError
  | FileUnreadable e => load_dependency_graph f = Raise e
  | FileMalformed => load_dependency_graph f = Raise JSONDecodeError
  | FileJson (PDict items) =>
      if forallb (fun kv => values_ok kv.2) items
      then exists g, load_dependency_graph f = Ok g
      else load_dependency_graph f = Raise TypeError
  | FileJson _ => load_dependency_graph f = Raise AttributeError
  end.
Proof.
  destruct f as [| | |[| | | | | |items]]; try done. simpl.
  rewrite <- (normalise_items_ok items ∅).
  destruct (normalise_items items ∅) as [g|e] eqn:E; simpl; [by exists g |].
  by rewrite (normalise_items_raises _ _ _ E).
Qed.

End graph_theorems.

(** The witness of [load_normalised]: a graph file with a key and a
    neighbour that are not in normal form. *)
Lemma load_normalised_witness :
  graph_normalised (H := posix_flavour)
    (graph_of_adj (H := posix_flavour) [("./a.ts", ["lib//b.ts"; "c.ts"])]).
Proof.
  apply (load_normalised (H := posix_flavour)
           (FileJson (encode_adj [("./a.ts", ["lib//b.ts"; "c.ts"])]))).
  apply normalise_items_encode.
Defined.

(** The witness of [load_lookup]: a value that is a string is read as its
    characters, a later key replaces an earlier one with the same normal
    form, and a neighbour that is listed under two spellings is kept
    twice. *)
Lemma load_lookup_witness :
  (g <- load_dependency_graph (H := posix_flavour)
          (FileJson (PDict [("./a.ts", PStr "xy");
                            ("a.ts", PList [PStr "b.ts"; PStr "./b.ts"])])) ;;
   Ok (graph_get g "a.ts")) =
  Ok (@as_posix posix_flavour <$>
      default [] (last_item (H := posix_flavour)
                    (read_items [("./a.ts", PStr "xy");
                                 ("a.ts", PList [PStr "b.ts"; PStr "./b.ts"])])
                    "a.ts")).
Proof.
  apply (load_lookup (H := posix_flavour)
           [("./a.ts", PStr "xy"); ("a.ts", PList [PStr "b.ts"; PStr "./b.ts"])]
           "a.ts").
  reflexivity.
Defined.
