(* ===== verification/Traversal.v ===== *)
(** * Traversal: [get_related_files]

    The breadth-first expansion of graph_utils.py lines 20 to 44.  The state
    of the [while] loop is [bfs_state]: the set [visited], the [queue] of
    (path, distance) pairs and the list [result].  [visit_neighbour] is the
    body of the inner [for] (lines 38 to 42), [bfs_step] one iteration of the
    [while] (lines 33 to 42), [bfs_loop] the loop, with fuel, and
    [get_related_files] the function, from the guard on [depth] to the
    [return].

    The theorems of this file are about the loop as it is written: it
    terminates on every graph ([bfs_loop_terminates]), and its state keeps
    the invariant [bfs_inv].  What the loop computes is the subject of
    [Levels]. *)

From stdpp Require Import base tactics list strings gmap.
From S2P Require Import Prelude PyStr Paths Graph.

#[local] Open Scope py_scope.
#[local] Open Scope Z_scope.

(** ** State *)

Record bfs_state : Type := BfsState {
  visited : gset string;
  queue : list (string * Z);
  result : list string
}.

(** The state before the loop: lines 28 to 30. *)
Definition bfs_init (start : string) : bfs_state :=
  {| visited := {[start]}; queue := [(start, 0)]; result := [] |}.

Section traversal.
Context `{PathFlavour}.

(** ** Operations *)

(** The body of [for neighbour in sorted(neighbours)]: lines 38 to 42. *)
Definition visit_neighbour (dist : Z) (st : bfs_state) (neighbour : string)
  : bfs_state :=
  let neighbour := as_posix neighbour in
  if decide (neighbour ∈ visited st) then st
  else {| visited := {[neighbour]} ∪ visited st;
          queue := queue st ++ [(neighbour, dist + 1)];
          result := result st ++ [neighbour] |}.

(** One iteration of [while queue]: lines 33 to 42.  [None] when the queue is
    empty and the loop is left. *)
Definition bfs_step (graph : graph) (depth : Z) (st : bfs_state)
  : option bfs_state :=
  match queue st with
  | [] => None
  | (current, dist) :: rest =>
      let st := {| visited := visited st; queue := rest; result := result st |} in
      if decide (dist = depth) then Some st
      else
        let neighbours := graph_get graph current in
        Some (foldl (visit_neighbour dist) st (sorted neighbours))
  end.

(** The [while] loop, one unit of fuel per iteration: the [result] when the
    queue runs empty, [None] when the fuel runs out first. *)
Fixpoint bfs_loop (fuel : nat) (graph : graph) (depth : Z) (st : bfs_state)
  : option (list string) :=
  match bfs_step graph depth st with
  | None => Some (result st)
  | Some st' =>
      match fuel with
      | O => None
      | S fuel' => bfs_loop fuel' graph depth st'
      end
  end.

(** The paths the graph lists as neighbours, normalised. *)
Definition graph_targets (g : graph) : gset string :=
  ⋃ ((fun kv : string * list string => list_to_set (as_posix <$> kv.2))
       <$> map_to_list g).

(** Fuel that is enough for every start and depth. *)
Definition bfs_fuel (g : graph) : nat := S (size (graph_targets g)).

(** Lines 25 to 44, on a loaded graph. *)
Definition related (graph : graph) (filepath : string) (depth : Z)
  : list string :=
  let start := as_posix filepath in
  default [] (bfs_loop (bfs_fuel graph) graph depth (bfs_init start)).

(** [get_related_files(filepath, depth)], given the outcome of reading the
    graph file. *)
Definition get_related_files (f : graph_file) (filepath : string) (depth : Z)
  : outcome (list string) :=
  if decide (depth < 1) then Ok []
  else (graph <- load_dependency_graph f ;;
        Ok (related graph filepath depth)).

(** ** The measure of the loop *)

(** What is left to do: the entries of the queue and the neighbour paths not
    visited yet. *)
Definition bfs_measure (g : graph) (st : bfs_state) : nat :=
  length (queue st) + size (graph_targets g ∖ visited st).

(** ** The invariant of the loop *)

Definition bfs_inv (start : string) (depth : Z) (st : bfs_state) : Prop :=
  visited st = {[start]} ∪ list_to_set (result st) /\
  NoDup (result st) /\
  (start ∉ result st) /\
  Forall (fun vd => vd.1 ∈ visited st /\ 0 <= vd.2 <= depth) (queue st).

(** ** The loop as a transition system *)

(** The states the loop goes through: [bfs_steps] in any number of
    iterations, [bfs_nsteps] in exactly [n]. *)
Definition bfs_steps (g : graph) (depth : Z) : relation bfs_state :=
  rtc (fun st st' => bfs_step g depth st = Some st').

Definition bfs_nsteps (g : graph) (depth : Z) (n : nat) : relation bfs_state :=
  nsteps (fun st st' => bfs_step g depth st = Some st') n.

(** ** Lemmas on [visit_neighbour] *)

Lemma visit_neighbour_seen dist st n :
  as_posix n ∈ visited st -> visit_neighbour dist st n = st.
Proof. intros Hn. unfold visit_neighbour. by rewrite decide_True. Qed.

Lemma visit_neighbour_new dist st n :
  as_posix n ∉ visited st ->
  visit_neighbour dist st n =
  {| visited := {[as_posix n]} ∪ visited st;
     queue := queue st ++ [(as_posix n, dist + 1)];
     result := result st ++ [as_posix n] |}.
Proof. intros Hn. unfold visit_neighbour. by rewrite decide_False. Qed.

Lemma elem_of_graph_targets g x :
  x ∈ graph_targets g <-> exists k vs n, g !! k = Some vs /\ n ∈ vs /\ x = as_posix n.
Proof.
  unfold graph_targets. rewrite elem_of_union_list. split.
  - intros (X & ([k vs] & -> & Hkv%elem_of_map_to_list)%list_elem_of_fmap & Hx).
    apply elem_of_list_to_set, list_elem_of_fmap in Hx as (n & -> & Hn).
    by exists k, vs, n.
  - intros (k & vs & n & Hk & Hn & ->).
    exists (list_to_set (as_posix <$> vs)). split.
    + apply list_elem_of_fmap. exists (k, vs). by rewrite elem_of_map_to_list.
    + apply elem_of_list_to_set, list_elem_of_fmap. by exists n.
Qed.

Lemma graph_get_targets g current n :
  n ∈ graph_get g current -> as_posix n ∈ graph_targets g.
Proof.
  unfold graph_get. destruct (g !! current) as [vs|] eqn:Hg; simpl.
  - intros Hn. apply elem_of_graph_targets. by exists current, vs, n.
  - by intros ?%elem_of_nil.
Qed.

(** Visiting a new path leaves one path less to visit. *)
Lemma size_difference_new (X seen : gset string) x :
  x ∈ X -> x ∉ seen -> size (X ∖ seen) = S (size (X ∖ ({[x]} ∪ seen))).
Proof.
  intros Hx Hs.
  assert (X ∖ seen = {[x]} ∪ X ∖ ({[x]} ∪ seen)) as ->.
  { apply set_eq. intros y. destruct (decide (y = x)); set_solver. }
  rewrite (size_union (C:=gset string) {[x]}) by set_solver.
  by rewrite size_singleton.
Qed.

Lemma visit_neighbour_measure g dist st n :
  as_posix n ∈ graph_targets g ->
  bfs_measure g (visit_neighbour dist st n) = bfs_measure g st.
Proof.
  intros Hn. unfold bfs_measure, visit_neighbour.
  case_decide as Hv; [done |]. simpl. rewrite length_app. simpl.
  rewrite (size_difference_new _ (visited st) (as_posix n)) by done. lia.
Qed.

Lemma foldl_visit_measure g dist st l :
  (forall n, n ∈ l -> as_posix n ∈ graph_targets g) ->
  bfs_measure g (foldl (visit_neighbour dist) st l) = bfs_measure g st.
Proof.
  intros Hl. apply (foldl_invariant (fun s => bfs_measure g s = bfs_measure g st));
    [done |].
  intros s n Hn <-. by apply visit_neighbour_measure, Hl.
Qed.

(** Every iteration decreases the measure by one. *)
Lemma bfs_step_measure g depth st st' :
  bfs_step g depth st = Some st' ->
  (bfs_measure g st = S (bfs_measure g st'))%nat.
Proof.
  unfold bfs_step. destruct (queue st) as [|[current dist] rest] eqn:Hq; [done |].
  case_decide; intros [= <-].
  - unfold bfs_measure. by rewrite Hq.
  - rewrite foldl_visit_measure.
    + unfold bfs_measure. by rewrite Hq.
    + intros n Hn. rewrite elem_of_sorted in Hn. by apply (graph_get_targets _ current).
Qed.

Lemma bfs_nsteps_measure g depth n st st' :
  bfs_nsteps g depth n st st' -> (bfs_measure g st = n + bfs_measure g st')%nat.
Proof.
  induction 1 as [|n st1 st2 st3 Hstep _ IH]; [done |].
  apply bfs_step_measure in Hstep. lia.
Qed.

Lemma bfs_step_None g depth st : bfs_step g depth st = None <-> queue st = [].
Proof.
  unfold bfs_step. destruct (queue st) as [|[current dist] rest]; [done |].
  by case_decide.
Qed.

Lemma bfs_loop_enough g depth fuel st :
  (bfs_measure g st <= fuel)%nat -> is_Some (bfs_loop fuel g depth st).
Proof.
  revert st. induction fuel as [|fuel IH]; intros st Hm; simpl.
  - destruct (bfs_step g depth st) as [st'|] eqn:Hs; [| done].
    apply bfs_step_measure in Hs. lia.
  - destruct (bfs_step g depth st) as [st'|] eqn:Hs; [| done].
    apply IH. apply bfs_step_measure in Hs. lia.
Qed.

Lemma bfs_measure_init g start : (bfs_measure g (bfs_init start) <= bfs_fuel g)%nat.
Proof.
  unfold bfs_measure, bfs_fuel. simpl.
  assert (size (graph_targets g ∖ {[start]}) <= size (graph_targets g))%nat;
    [apply subseteq_size; set_solver | lia].
Qed.

(** More fuel does not change the result. *)
Lemma bfs_loop_mono g depth fuel fuel' st r :
  bfs_loop fuel g depth st = Some r -> (fuel <= fuel')%nat ->
  bfs_loop fuel' g depth st = Some r.
Proof.
  revert fuel' st. induction fuel as [|fuel IH]; intros fuel' st; simpl.
  - destruct (bfs_step g depth st) eqn:Hs; [done |].
    intros [= <-] _. destruct fuel'; simpl; by rewrite Hs.
  - destruct (bfs_step g depth st) as [st'|] eqn:Hs.
    + intros Hr Hf. destruct fuel' as [|fuel']; [lia |]. simpl. rewrite Hs.
      apply IH; [done | lia].
    + intros [= <-] _. destruct fuel'; simpl; by rewrite Hs.
Qed.

Lemma bfs_loop_step g depth fuel st st' :
  bfs_step g depth st = Some st' ->
  bfs_loop (S fuel) g depth st = bfs_loop fuel g depth st'.
Proof. intros Hs. simpl. by rewrite Hs. Qed.

(** The result does not depend on the fuel, once the loop ends. *)
Lemma related_of_loop g filepath depth fuel r :
  bfs_loop fuel g depth (bfs_init (as_posix filepath)) = Some r ->
  related g filepath depth = r.
Proof.
  intros Hr. unfold related.
  destruct (bfs_loop_enough g depth (bfs_fuel g) (bfs_init (as_posix filepath)))
    as [r' Hr']; [apply bfs_measure_init |].
  rewrite Hr'. simpl.
  apply (bfs_loop_mono _ _ _ (max fuel (bfs_fuel g))) in Hr; [| lia].
  apply (bfs_loop_mono _ _ _ (max fuel (bfs_fuel g))) in Hr'; [| lia].
  congruence.
Qed.

Lemma bfs_loop_done g depth fuel st :
  queue st = [] -> bfs_loop fuel g depth st = Some (result st).
Proof.
  intros Hq%(bfs_step_None g depth). destruct fuel; simpl; by rewrite Hq.
Qed.

(** ** Lemmas on the invariant *)

Lemma bfs_inv_init start depth : 0 <= depth -> bfs_inv start depth (bfs_init start).
Proof.
  intros Hd. unfold bfs_inv, bfs_init. simpl.
  split_and!; [set_solver | constructor | set_solver |].
  repeat constructor; simpl; [set_solver | lia ..].
Qed.

Lemma bfs_inv_visit start depth dist st n :
  0 <= dist < depth ->
  bfs_inv start depth st -> bfs_inv start depth (visit_neighbour dist st n).
Proof.
  intros Hd (Hv & Hnd & Hs & Hq). unfold visit_neighbour.
  case_decide as Hn; [done |]. unfold bfs_inv. simpl. split_and!.
  - rewrite Hv, list_to_set_app_L. set_solver.
  - apply NoDup_snoc; [done |]. set_solver.
  - set_solver.
  - apply Forall_app. split.
    + eapply Forall_impl; [done |]. simpl. set_solver.
    + repeat constructor; simpl; [set_solver | lia ..].
Qed.

Lemma bfs_inv_step start g depth st st' :
  bfs_inv start depth st -> bfs_step g depth st = Some st' ->
  bfs_inv start depth st'.
Proof.
  intros (Hv & Hnd & Hs & Hq). unfold bfs_step.
  destruct (queue st) as [|[current dist] rest] eqn:Hqueue; [done |].
  apply Forall_cons in Hq as [[_ Hdist] Hrest]. simpl in Hdist.
  assert (bfs_inv start depth
            {| visited := visited st; queue := rest; result := result st |})
    as Hinv by done.
  case_decide as Hd; intros [= <-]; [done |].
  apply foldl_invariant; [done |]. intros s n _. apply bfs_inv_visit. lia.
Qed.

(** ** Theorems on the loop *)

(** C2: the [while] loop of [get_related_files] terminates, on every graph
    (cyclic ones included), from every start and for every depth, negative
    ones included: [bfs_fuel] iterations are enough, and more fuel gives the
    same list. *)
Theorem bfs_loop_terminates g depth start :
  exists r, forall fuel, (bfs_fuel g <= fuel)%nat ->
    bfs_loop fuel g depth (bfs_init start) = Some r.
Proof.
  destruct (bfs_loop_enough g depth (bfs_fuel g) (bfs_init start)) as [r Hr].
  { apply bfs_measure_init. }
  exists r. intros fuel Hfuel. by apply (bfs_loop_mono _ _ (bfs_fuel g)).
Qed.

(** C17: every state the loop reaches from its initial state satisfies
    [bfs_inv]: [visited] is the start and the paths of [result], [result]
    has no duplicates and does not hold the start, and every queued pair is
    a visited path with a distance between 0 and [depth]. *)
Theorem bfs_inv_reachable g start depth st :
  0 <= depth -> bfs_steps g depth (bfs_init start) st -> bfs_inv start depth st.
Proof.
  intros Hd. unfold bfs_steps. revert st. apply rtc_ind_r; [by apply bfs_inv_init |].
  intros st1 st2 _ Hstep Hinv. by apply (bfs_inv_step _ g _ st1).
Qed.

(** The number of iterations of the loop is bounded by the measure: a
    run of [n] iterations from a state leaves a state whose measure is [n]
    less, so no run from the initial state is longer than [bfs_fuel]. *)
Theorem bfs_steps_bounded g depth start n st :
  bfs_nsteps g depth n (bfs_init start) st ->
  (n + bfs_measure g st <= bfs_fuel g)%nat.
Proof.
  intros Hn. pose proof (bfs_measure_init g start) as Hinit.
  apply bfs_nsteps_measure in Hn. lia.
Qed.

End traversal.

#[export] Hint Resolve bfs_inv_init bfs_inv_step : py.

(** ** Witnesses *)

Lemma bfs_inv_reachable_witness :
  bfs_inv "a.ts" 2
    {| visited := {["a.ts"; "b.ts"; "c.ts"]};
       queue := [("b.ts", 1); ("c.ts", 1)];
       result := ["b.ts"; "c.ts"] |}.
Proof.
  apply (bfs_inv_reachable (H := posix_flavour)
           {["a.ts" := ["c.ts"; "./b.ts"; "b.ts"]]} "a.ts" 2); [lia |].
  eapply rtc_l; [| apply rtc_refl]. vm_compute. f_equal.
Defined.

Lemma bfs_steps_bounded_witness :
  (1 + bfs_measure (H := posix_flavour) {["a.ts" := ["b.ts"]; "b.ts" := ["a.ts"]]}
         {| visited := {["a.ts"; "b.ts"]}; queue := [("b.ts", 1%Z)];
            result := ["b.ts"] |}
   <= bfs_fuel (H := posix_flavour) {["a.ts" := ["b.ts"]; "b.ts" := ["a.ts"]]})%nat.
Proof.
  apply (bfs_steps_bounded (H := posix_flavour) _ 3 "a.ts").
  eapply nsteps_l; [| apply nsteps_O]. reflexivity.
Defined.
