(* ===== verification/Levels.v ===== *)
(** * Levels: what the traversal computes

    The reference specification of [get_related_files]: breadth-first search
    level by level.  The paths found at one level are the [fresh] ones among
    the [candidates] of the level before: the normalised neighbours, each
    list in sorted order, of its paths in their order.  [bfs_spec] is the
    concatenation of [depth] levels.

    The queue loop of [Traversal] refines it ([related_levels]): while the
    loop works through the entries of one distance, its queue is the rest of
    that level followed by what has been found of the next.

    The second half of the file relates the levels to the graph: [hops] is
    reachability in a number of edges, and the paths of level [k] are those
    within [k] hops that are not within [k - 1]. *)

From stdpp Require Import base tactics list strings gmap.
From S2P Require Import Prelude PyStr Paths Graph Traversal.

#[local] Open Scope Z_scope.

(** ** Specification *)

(** The elements of [l] that are not in [seen], each once, in the order of
    their first occurrence. *)
Fixpoint fresh (seen : gset string) (l : list string) : list string :=
  match l with
  | [] => []
  | x :: l' =>
      if decide (x ∈ seen) then fresh seen l'
      else x :: fresh ({[x]} ∪ seen) l'
  end.

Section levels.
Context `{PathFlavour}.

(** The neighbours of a path as the loop meets them. *)
Definition neighbours_of (g : graph) (current : string) : list string :=
  as_posix <$> sorted (graph_get g current).

(** What the paths of a level lead to, in the order of the loop. *)
Definition candidates (g : graph) (frontier : list string) : list string :=
  frontier ≫= neighbours_of g.

(** The next [n] levels, from the set of paths seen and the last level. *)
Fixpoint level_lists (g : graph) (n : nat) (seen : gset string)
  (frontier : list string) : list (list string) :=
  match n with
  | O => []
  | S n' =>
      let next := fresh seen (candidates g frontier) in
      next :: level_lists g n' (seen ∪ list_to_set next) next
  end.

(** The specification of the traversal from [start] to depth [depth]. *)
Definition bfs_spec (g : graph) (start : string) (depth : Z) : list string :=
  concat (level_lists g (Z.to_nat depth) {[start]} [start]).

(** The set of paths seen after [n] more levels. *)
Fixpoint seen_after (g : graph) (n : nat) (seen : gset string)
  (frontier : list string) : gset string :=
  match n with
  | O => seen
  | S n' =>
      let next := fresh seen (candidates g frontier) in
      seen_after g n' (seen ∪ list_to_set next) next
  end.

(** ** Reachability *)

(** There is an edge from [u] to [v]: [u] lists a neighbour whose normal form
    is [v]. *)
Definition edge (g : graph) (u v : string) : Prop := v ∈ neighbours_of g u.

(** [hops g k u v]: a path of exactly [k] edges leads from [u] to [v]. *)
Inductive hops (g : graph) (u : string) : nat -> string -> Prop :=
| hops_O : hops g u 0 u
| hops_S k v w : hops g u k v -> edge g v w -> hops g u (S k) w.

(** [v] is at most [k] edges away from [u]. *)
Definition within (g : graph) (u : string) (k : nat) (v : string) : Prop :=
  exists j, (j <= k)%nat /\ hops g u j v.

(** The invariant of the levels: [seen] is what lies within [k] hops, the
    frontier has been seen, and every edge from a seen path outside the
    frontier leads to a seen path. *)
Definition level_inv (g : graph) (s : string) (k : nat) (seen : gset string)
  (frontier : list string) : Prop :=
  (forall v, v ∈ seen <-> within g s k v) /\
  (forall u, u ∈ frontier -> u ∈ seen) /\
  (forall u v, u ∈ seen -> u ∉ frontier -> edge g u v -> v ∈ seen).

(** The distance tag of the queue entries of one level. *)
Definition tag (d : Z) (l : list string) : list (string * Z) :=
  (fun v => (v, d)) <$> l.

(** ** [fresh] *)

Lemma elem_of_fresh seen l x : x ∈ fresh seen l <-> x ∈ l /\ x ∉ seen.
Proof.
  revert seen. induction l as [|y l IH]; intros seen; simpl.
  - set_solver.
  - case_decide as Hy.
    + rewrite IH. set_solver.
    + rewrite !elem_of_cons, IH. destruct (decide (x = y)); set_solver.
Qed.

Lemma NoDup_fresh seen l : NoDup (fresh seen l).
Proof.
  revert seen. induction l as [|y l IH]; intros seen; simpl; [constructor |].
  case_decide; [done |]. constructor; [| done].
  rewrite elem_of_fresh. set_solver.
Qed.

Lemma fresh_seen_union seen l :
  seen ∪ list_to_set (fresh seen l) = seen ∪ list_to_set l.
Proof.
  apply set_eq. intros x. rewrite !elem_of_union, !elem_of_list_to_set.
  rewrite elem_of_fresh. destruct (decide (x ∈ seen)); tauto.
Qed.

Lemma fresh_proper_seen seen seen' l : seen = seen' -> fresh seen l = fresh seen' l.
Proof. by intros ->. Qed.

Lemma fresh_app seen l1 l2 :
  fresh seen (l1 ++ l2) = fresh seen l1 ++ fresh (seen ∪ list_to_set l1) l2.
Proof.
  revert seen. induction l1 as [|x l1 IH]; intros seen; simpl.
  - by rewrite union_empty_r_L.
  - case_decide as Hx.
    + rewrite IH. f_equal. apply fresh_proper_seen. set_solver.
    + rewrite IH. simpl. do 2 f_equal. apply fresh_proper_seen. set_solver.
Qed.

Lemma fresh_nil seen : fresh seen [] = [].
Proof. done. Qed.

(** A list that is new and without duplicates is its own [fresh] part. *)
Lemma fresh_id seen l :
  NoDup l -> (forall x, x ∈ l -> x ∉ seen) -> fresh seen l = l.
Proof.
  revert seen. induction l as [|x l IH]; intros seen Hnd Hl; simpl; [done |].
  apply NoDup_cons in Hnd as [Hx Hnd].
  rewrite decide_False by (apply Hl; left). f_equal. apply IH; [done |].
  intros y Hy. assert (y ∉ seen) by (apply Hl; by right). set_solver.
Qed.

(** ** [candidates] *)

#[local] Arguments candidates : simpl never.
#[local] Arguments neighbours_of : simpl never.

Lemma candidates_nil g : candidates g [] = [].
Proof. done. Qed.

Lemma candidates_cons g u frontier :
  candidates g (u :: frontier) = neighbours_of g u ++ candidates g frontier.
Proof. done. Qed.

Lemma elem_of_candidates g frontier v :
  v ∈ candidates g frontier <-> exists u, u ∈ frontier /\ edge g u v.
Proof. unfold candidates, edge. rewrite list_elem_of_bind. naive_solver. Qed.

Lemma neighbours_of_missing g u : g !! u = None -> neighbours_of g u = [].
Proof. intros Hu. unfold neighbours_of, graph_get. by rewrite Hu. Qed.

(** ** The inner loop computes [fresh] *)

Lemma tag_app d l k : tag d (l ++ k) = tag d l ++ tag d k.
Proof. apply fmap_app. Qed.

Lemma foldl_visit_fresh dist st l :
  foldl (visit_neighbour dist) st l =
  let new := fresh (visited st) (as_posix <$> l) in
  {| visited := visited st ∪ list_to_set new;
     queue := queue st ++ tag (dist + 1) new;
     result := result st ++ new |}.
Proof.
  revert st. induction l as [|n l IH]; intros [V Q R]; simpl.
  - by rewrite union_empty_r_L, !app_nil_r.
  - rewrite IH. unfold visit_neighbour. simpl. case_decide as Hn; simpl; [done |].
    rewrite <- !app_assoc. f_equal. set_solver.
Qed.

(** One level of the queue loop: the entries of distance [dist] that are
    left, [frontier], are worked off in [length frontier] iterations. *)
Lemma bfs_loop_level g depth dist frontier seen found res fuel :
  dist <> depth ->
  bfs_loop (length frontier + fuel) g depth
    {| visited := seen;
       queue := tag dist frontier ++ tag (dist + 1) found;
       result := res |} =
  let new := fresh seen (candidates g frontier) in
  bfs_loop fuel g depth
    {| visited := seen ∪ list_to_set new;
       queue := tag (dist + 1) (found ++ new);
       result := res ++ new |}.
Proof.
  intros Hd. revert seen found res.
  induction frontier as [|u frontier IH]; intros seen found res.
  - simpl. by rewrite union_empty_r_L, !app_nil_r.
  - change (length (u :: frontier) + fuel)%nat with (S (length frontier + fuel)).
    erewrite bfs_loop_step; last first.
    { unfold bfs_step. simpl. by rewrite decide_False. }
    rewrite foldl_visit_fresh. simpl.
    fold (neighbours_of g u). rewrite <- app_assoc, <- tag_app, IH.
    cbv zeta. rewrite candidates_cons, fresh_app, list_to_set_app_L.
    by rewrite union_assoc_L, !fresh_seen_union, <- !app_assoc.
Qed.

(** At the depth bound the entries are dropped one by one. *)
Lemma bfs_loop_drain g depth frontier seen res fuel :
  bfs_loop (length frontier + fuel) g depth
    {| visited := seen; queue := tag depth frontier; result := res |} = Some res.
Proof.
  induction frontier as [|u frontier IH]; simpl.
  - by apply bfs_loop_done.
  - unfold bfs_step at 1. simpl. by rewrite decide_True.
Qed.

(** The loop, started at a level boundary, returns the levels that the depth
    leaves. *)
Lemma bfs_loop_levels g depth n dist frontier seen res :
  dist + Z.of_nat n = depth ->
  exists fuel,
    bfs_loop fuel g depth
      {| visited := seen; queue := tag dist frontier; result := res |} =
    Some (res ++ concat (level_lists g n seen frontier)).
Proof.
  revert dist frontier seen res.
  induction n as [|n IH]; intros dist frontier seen res Hd.
  - exists (length frontier + 0)%nat. assert (dist = depth) as -> by lia.
    simpl. rewrite app_nil_r. apply bfs_loop_drain.
  - destruct (IH (dist + 1) (fresh seen (candidates g frontier))
                (seen ∪ list_to_set (fresh seen (candidates g frontier)))
                (res ++ fresh seen (candidates g frontier))) as [fuel Hfuel];
      [lia |].
    exists (length frontier + fuel)%nat.
    pose proof (bfs_loop_level g depth dist frontier seen [] res fuel) as Hl.
    simpl in Hl. rewrite app_nil_r in Hl. rewrite Hl by lia.
    rewrite Hfuel. simpl. by rewrite app_assoc.
Qed.

(** The queue loop refines the level specification. *)
Lemma related_levels g filepath depth :
  0 <= depth -> related g filepath depth = bfs_spec g (as_posix filepath) depth.
Proof.
  intros Hd. unfold bfs_spec.
  destruct (bfs_loop_levels g depth (Z.to_nat depth) 0 [as_posix filepath]
              {[as_posix filepath]} []) as [fuel Hfuel]; [lia |].
  by apply (related_of_loop _ _ _ fuel).
Qed.

(** ** The levels as lists *)

Lemma length_level_lists g n seen frontier :
  length (level_lists g n seen frontier) = n.
Proof.
  revert seen frontier. induction n as [|n IH]; intros seen frontier; simpl;
    [done | by rewrite IH].
Qed.

(** Fewer levels are a prefix of more levels. *)
Lemma level_lists_prefix g n m seen frontier :
  level_lists g n seen frontier `prefix_of` level_lists g (n + m) seen frontier.
Proof.
  revert seen frontier. induction n as [|n IH]; intros seen frontier; simpl.
  - apply prefix_nil.
  - apply prefix_cons, IH.
Qed.

Lemma concat_prefix {A} (ls ks : list (list A)) :
  ls `prefix_of` ks -> concat ls `prefix_of` concat ks.
Proof. intros [ms ->]. rewrite concat_app. by apply prefix_app_r. Qed.

Lemma seen_after_levels g n seen frontier :
  seen_after g n seen frontier =
  seen ∪ list_to_set (concat (level_lists g n seen frontier)).
Proof.
  revert seen frontier. induction n as [|n IH]; intros seen frontier; simpl.
  - by rewrite union_empty_r_L.
  - by rewrite IH, list_to_set_app_L, union_assoc_L.
Qed.

(** The levels hold nothing that was seen before, and nothing twice. *)
Lemma levels_new g n seen frontier v :
  v ∈ concat (level_lists g n seen frontier) -> v ∉ seen.
Proof.
  revert seen frontier. induction n as [|n IH]; intros seen frontier; simpl.
  - by intros ?%elem_of_nil.
  - intros [Hv | Hv]%elem_of_app.
    + by apply elem_of_fresh in Hv as [_ ?].
    + apply IH in Hv. set_solver.
Qed.

Lemma NoDup_levels g n seen frontier :
  NoDup (concat (level_lists g n seen frontier)).
Proof.
  revert seen frontier. induction n as [|n IH]; intros seen frontier; simpl.
  - constructor.
  - apply NoDup_app. split_and!; [apply NoDup_fresh | | apply IH].
    intros v Hv Hv'%levels_new. set_solver.
Qed.

(** Once a level is empty, every later level is. *)
Lemma level_lists_nil g n seen : concat (level_lists g n seen []) = [].
Proof.
  revert seen. induction n as [|n IH]; intros seen; simpl; [done |].
  apply IH.
Qed.

(** ** The levels and reachability *)

Lemma within_0 g s v : within g s 0 v <-> v = s.
Proof.
  split.
  - intros (j & Hj & Hh). assert (j = 0%nat) as -> by lia. by inversion Hh.
  - intros ->. exists 0%nat. split; [done | constructor].
Qed.

Lemma within_mono g s k k' v : (k <= k')%nat -> within g s k v -> within g s k' v.
Proof. intros Hk (j & Hj & Hh). exists j. split; [lia | done]. Qed.

Lemma within_S g s k w :
  within g s (S k) w <-> w = s \/ exists v, within g s k v /\ edge g v w.
Proof.
  split.
  - intros (j & Hj & Hh). inversion Hh as [|j' v w' Hv He]; subst; [by left |].
    right. exists v. split; [| done]. exists j'. split; [lia | done].
  - intros [-> | (v & (j & Hj & Hh) & He)].
    + exists 0%nat. split; [lia | constructor].
    + exists (S j). split; [lia | by econstructor].
Qed.

Lemma level_inv_init g s : level_inv g s 0 {[s]} [s].
Proof.
  split_and!.
  - intros v. rewrite within_0. set_solver.
  - set_solver.
  - set_solver.
Qed.

Lemma level_inv_step g s k seen frontier :
  level_inv g s k seen frontier ->
  let next := fresh seen (candidates g frontier) in
  level_inv g s (S k) (seen ∪ list_to_set next) next.
Proof.
  intros (Hseen & Hfront & Hclosed) next.
  assert (forall u v, u ∈ seen -> edge g u v -> v ∈ seen ∪ list_to_set next)
    as Hedge.
  { intros u v Hu He. destruct (decide (u ∈ frontier)) as [Hf|Hf].
    - unfold next. rewrite fresh_seen_union, elem_of_union, elem_of_list_to_set.
      right. apply elem_of_candidates. eauto.
    - apply elem_of_union_l. eauto. }
  split_and!.
  - intros w. rewrite within_S. split.
    + intros [Hw | Hw]%elem_of_union.
      * apply Hseen in Hw. apply (within_mono _ _ _ (S k)) in Hw; [| lia].
        by apply within_S.
      * apply elem_of_list_to_set, elem_of_fresh in Hw as [Hw _].
        apply elem_of_candidates in Hw as (u & Hu & He).
        right. exists u. split; [| done]. by apply Hseen, Hfront.
    + intros [-> | (v & Hv & He)].
      * apply elem_of_union_l, Hseen. exists 0%nat. split; [lia | constructor].
      * apply (Hedge v); [by apply Hseen | done].
  - intros u Hu. apply elem_of_union_r. by apply elem_of_list_to_set.
  - intros u v [Hu | Hu]%elem_of_union Hn He; [by apply (Hedge u) |].
    by apply elem_of_list_to_set in Hu.
Qed.

Lemma seen_after_within g s k n seen frontier :
  level_inv g s k seen frontier ->
  forall v, v ∈ seen_after g n seen frontier <-> within g s (k + n) v.
Proof.
  revert k seen frontier. induction n as [|n IH]; intros k seen frontier Hinv v.
  - rewrite Nat.add_0_r. apply Hinv.
  - simpl. rewrite (IH (S k)) by by apply level_inv_step.
    by replace (S k + n)%nat with (k + S n)%nat by lia.
Qed.

(** Level [i] holds the paths that are within [i + 1] more hops and not within
    [i]. *)
Lemma level_lists_lookup g s k n seen frontier i level :
  level_inv g s k seen frontier ->
  level_lists g n seen frontier !! i = Some level ->
  forall v, v ∈ level <-> within g s (k + S i) v /\ ~ within g s (k + i) v.
Proof.
  revert k seen frontier i.
  induction n as [|n IH]; intros k seen frontier i Hinv; [done |].
  pose proof (level_inv_step _ _ _ _ _ Hinv) as Hinv'. simpl in Hinv'.
  destruct i as [|i]; simpl.
  - intros [= <-] v. rewrite Nat.add_0_r, Nat.add_1_r.
    destruct Hinv as (Hseen & _), Hinv' as (Hseen' & _).
    rewrite <- Hseen, <- Hseen', elem_of_union, elem_of_list_to_set.
    rewrite elem_of_fresh. tauto.
  - intros Hl v. rewrite (IH (S k) _ _ i Hinv' Hl).
    replace (S k + S i)%nat with (k + S (S i))%nat by lia.
    by replace (S k + i)%nat with (k + S i)%nat by lia.
Qed.

(** ** Edges *)

Lemma edge_spec g u v :
  edge g u v <-> exists n, n ∈ graph_get g u /\ v = as_posix n.
Proof.
  unfold edge, neighbours_of. rewrite list_elem_of_fmap.
  split.
  - intros (n & -> & Hn). exists n. by rewrite elem_of_sorted in Hn.
  - intros (n & Hn & ->). exists n. by rewrite elem_of_sorted.
Qed.

Lemma edge_targets g u v : edge g u v -> v ∈ graph_targets g.
Proof. intros (n & Hn & ->)%edge_spec. by apply (graph_get_targets _ u). Qed.

(** On a graph with normalised neighbour lists, as [load_dependency_graph]
    returns them, the loop's own normalisation changes nothing. *)
Lemma neighbours_of_normalised g u :
  graph_normalised g -> neighbours_of g u = sorted (graph_get g u).
Proof.
  intros Hg. unfold neighbours_of. rewrite <- (list_fmap_id (sorted _)) at 2.
  apply list_fmap_ext. intros i n Hn. simpl.
  apply list_elem_of_lookup_2 in Hn. clear i. rewrite elem_of_sorted in Hn.
  unfold graph_get in Hn. destruct (g !! u) as [vs|] eqn:Hu; simpl in Hn.
  - destruct (Hg u vs Hu) as [_ Hvs]. rewrite Forall_forall in Hvs. by apply Hvs.
  - by apply elem_of_nil in Hn.
Qed.

(** ** Properties of the specification *)

Lemma bfs_spec_NoDup g s depth : NoDup (bfs_spec g s depth).
Proof. apply NoDup_levels. Qed.

Lemma elem_of_bfs_spec g s depth v :
  v ∈ bfs_spec g s depth <-> v <> s /\ within g s (Z.to_nat depth) v.
Proof.
  pose proof (seen_after_within g s 0 (Z.to_nat depth) {[s]} [s]
                (level_inv_init g s) v) as Hw.
  simpl in Hw. rewrite <- Hw, seen_after_levels. unfold bfs_spec. split.
  - intros Hv. split; [| set_solver]. apply levels_new in Hv. set_solver.
  - set_solver.
Qed.

Lemma bfs_spec_prefix g s d d' :
  d <= d' -> bfs_spec g s d `prefix_of` bfs_spec g s d'.
Proof.
  intros Hd. unfold bfs_spec. apply concat_prefix.
  replace (Z.to_nat d') with (Z.to_nat d + (Z.to_nat d' - Z.to_nat d))%nat by lia.
  apply level_lists_prefix.
Qed.

Lemma bfs_spec_1 g s : bfs_spec g s 1 = fresh {[s]} (neighbours_of g s).
Proof.
  unfold bfs_spec. simpl. by rewrite candidates_cons, candidates_nil, !app_nil_r.
Qed.

Lemma bfs_spec_no_neighbours g s depth :
  graph_get g s = [] -> bfs_spec g s depth = [].
Proof.
  intros Hs. unfold bfs_spec. destruct (Z.to_nat depth) as [|n]; [done |].
  simpl. rewrite candidates_cons, candidates_nil. unfold neighbours_of.
  rewrite Hs. simpl. apply level_lists_nil.
Qed.

(** ** Graphs that list the same neighbours *)

#[export] Instance neighbours_of_proper :
  Proper (graph_equiv ==> eq ==> eq) neighbours_of.
Proof. intros g1 g2 Hg u ? <-. unfold neighbours_of. by rewrite (Hg u). Qed.

#[export] Instance bfs_step_proper :
  Proper (graph_equiv ==> eq ==> eq ==> eq) bfs_step.
Proof.
  intros g1 g2 Hg depth ? <- st ? <-. unfold bfs_step.
  destruct (queue st) as [|[current dist] rest]; [done |].
  simpl. by rewrite (sorted_proper _ _ (Hg current)).
Qed.

#[export] Instance bfs_loop_proper :
  Proper (eq ==> graph_equiv ==> eq ==> eq ==> eq) bfs_loop.
Proof.
  intros fuel ? <- g1 g2 Hg depth ? <-.
  induction fuel as [|fuel IH]; intros st ? <-; simpl;
    rewrite (bfs_step_proper _ _ Hg _ _ eq_refl _ _ eq_refl);
    destruct (bfs_step g2 depth st); try done. by apply IH.
Qed.

#[export] Instance related_proper :
  Proper (graph_equiv ==> eq ==> eq ==> eq) related.
Proof.
  intros g1 g2 Hg filepath ? <- depth ? <-.
  destruct (bfs_loop_enough g1 depth (bfs_fuel g1) (bfs_init (as_posix filepath)))
    as [r Hr]; [apply bfs_measure_init |].
  rewrite (related_of_loop g1 _ _ _ _ Hr). symmetry.
  apply (related_of_loop g2 _ _ (bfs_fuel g1)).
  by rewrite <- (bfs_loop_proper _ _ eq_refl _ _ Hg _ _ eq_refl _ _ eq_refl).
Qed.

(** ** Saturation *)

Lemma candidates_targets g frontier v :
  v ∈ candidates g frontier -> v ∈ graph_targets g.
Proof. intros (u & _ & He)%elem_of_candidates. by apply (edge_targets _ u). Qed.

Lemma fresh_all_seen seen l : (forall x, x ∈ l -> x ∈ seen) -> fresh seen l = [].
Proof.
  intros Hl. destruct (fresh seen l) as [|x k] eqn:E; [done |].
  assert (x ∈ fresh seen l) as [Hx Hs]%elem_of_fresh by (rewrite E; left).
  by apply Hl in Hx.
Qed.

(** A level that is not empty leaves fewer paths to find. *)
Lemma level_cons_size g seen frontier x l :
  fresh seen (candidates g frontier) = x :: l ->
  (size (graph_targets g ∖ (seen ∪ list_to_set (x :: l))) <
   size (graph_targets g ∖ seen))%nat.
Proof.
  intros E.
  assert (x ∈ fresh seen (candidates g frontier)) as [Hx Hs]%elem_of_fresh
    by (rewrite E; left).
  apply candidates_targets in Hx.
  rewrite (size_difference_new _ seen x) by done.
  apply Nat.lt_succ_r, subseteq_size. set_solver.
Qed.

(** When every path has been seen, the next level is empty. *)
Lemma level_all_seen g seen frontier :
  size (graph_targets g ∖ seen) = 0%nat -> fresh seen (candidates g frontier) = [].
Proof.
  intros Hsize%size_empty_inv. apply fresh_all_seen.
  intros x Hx%candidates_targets. destruct (decide (x ∈ seen)); set_solver.
Qed.

(** After as many levels as there are paths left to find, further levels are
    empty. *)
Lemma level_lists_saturate g n m seen frontier :
  (size (graph_targets g ∖ seen) <= n)%nat ->
  concat (level_lists g (n + m) seen frontier) =
  concat (level_lists g n seen frontier).
Proof.
  revert seen frontier. induction n as [|n IH]; intros seen frontier Hsize.
  - destruct m as [|m]; [done |]. simpl.
    rewrite level_all_seen by lia. apply level_lists_nil.
  - simpl. destruct (fresh seen (candidates g frontier)) as [|x l] eqn:E.
    + by rewrite !level_lists_nil.
    + f_equal. apply IH. apply level_cons_size in E. lia.
Qed.

(** With a bound that the distances never meet, the loop runs until a level
    is empty. *)
Lemma bfs_loop_unbounded g depth n dist frontier seen res :
  depth < dist -> (size (graph_targets g ∖ seen) <= n)%nat ->
  exists fuel,
    bfs_loop fuel g depth
      {| visited := seen; queue := tag dist frontier; result := res |} =
    Some (res ++ concat (level_lists g (S n) seen frontier)).
Proof.
  revert dist frontier seen res.
  induction n as [|n IH]; intros dist frontier seen res Hd Hsize;
    pose proof (bfs_loop_level g depth dist frontier seen [] res) as Hl;
    simpl in Hl; rewrite app_nil_r in Hl; simpl.
  - exists (length frontier + 0)%nat. rewrite Hl by lia.
    rewrite level_all_seen by lia. by apply bfs_loop_done.
  - destruct (fresh seen (candidates g frontier)) as [|x l] eqn:E.
    + exists (length frontier + 0)%nat. rewrite Hl by lia.
      rewrite level_lists_nil. by apply bfs_loop_done.
    + destruct (IH (dist + 1) (x :: l) (seen ∪ list_to_set (x :: l))
                  (res ++ x :: l)) as [fuel Hfuel]; [lia | |].
      { apply level_cons_size in E. lia. }
      exists (length frontier + fuel)%nat. rewrite Hl by lia.
      rewrite Hfuel. by rewrite <- app_assoc.
Qed.

(** Without the guard on [depth], a negative depth would return every path
    that can be reached. *)
Lemma related_unbounded g filepath depth :
  depth < 0 ->
  related g filepath depth =
  bfs_spec g (as_posix filepath) (Z.of_nat (bfs_fuel g)).
Proof.
  intros Hd. unfold bfs_spec, bfs_fuel. rewrite Nat2Z.id.
  destruct (bfs_loop_unbounded g depth (size (graph_targets g)) 0
              [as_posix filepath] {[as_posix filepath]} []) as [fuel Hfuel];
    [lia | apply subseteq_size; set_solver |].
  by apply (related_of_loop _ _ _ fuel).
Qed.

(** A depth beyond the number of neighbour paths adds nothing. *)
Lemma bfs_spec_saturate g s depth :
  Z.of_nat (size (graph_targets g)) <= depth ->
  bfs_spec g s depth = bfs_spec g s (Z.of_nat (size (graph_targets g))).
Proof.
  intros Hd. unfold bfs_spec. rewrite Nat2Z.id.
  replace (Z.to_nat depth) with
    (size (graph_targets g) + (Z.to_nat depth - size (graph_targets g)))%nat
    by lia.
  apply level_lists_saturate, subseteq_size. set_solver.
Qed.

End levels.
