(* ===== verification/Related.v ===== *)
(** * Related: the contract of [get_related_files]

    What a caller of [get_related_files] may rely on, proved of the function
    as it is written ([Traversal.get_related_files], and [Traversal.related]
    for lines 25 to 44 on a loaded graph) from the refinement of [Levels]:
    the list that is returned, which paths are in it and in which order, how
    it changes with the depth and with the order of the adjacency lists, and
    what the guard on [depth] is for. *)

From stdpp Require Import base tactics list strings gmap sorting.
From S2P Require Import Prelude PyStr Paths Graph Traversal Levels.

#[local] Open Scope py_scope.
#[local] Open Scope Z_scope.

Section related.
Context `{PathFlavour}.

(** ** Lemmas *)

(** Whatever the depth, the loop returns some number of levels. *)
Lemma related_some_depth g filepath depth :
  exists d, related g filepath depth = bfs_spec g (as_posix filepath) d.
Proof.
  destruct (decide (depth < 0)).
  - exists (Z.of_nat (bfs_fuel g)). by apply related_unbounded.
  - exists depth. apply related_levels. lia.
Qed.

Lemma hops_normalised g s k v : hops g s k v -> v = s \/ normalised v.
Proof.
  destruct 1 as [|k u v _ (n & _ & ->)%edge_spec]; [by left | right].
  apply as_posix_normalised.
Qed.

Lemma bfs_spec_normalised g s depth : Forall normalised (bfs_spec g s depth).
Proof.
  apply Forall_forall. intros v (Hv & j & _ & Hh)%elem_of_bfs_spec.
  by destruct (hops_normalised _ _ _ _ Hh).
Qed.

Lemma fresh_StronglySorted (R : relation string) seen l :
  StronglySorted R l -> StronglySorted R (fresh seen l).
Proof.
  intros Hl. revert seen. induction Hl as [|x l _ IH Hx]; intros seen; simpl.
  - constructor.
  - case_decide; [apply IH |]. constructor; [apply IH |].
    rewrite Forall_forall in *. intros y [Hy _]%elem_of_fresh. by apply Hx.
Qed.

(** Every path that is reachable is within as many hops as there are
    neighbour paths. *)
Lemma bfs_spec_hops g s k v :
  v <> s -> hops g s k v -> v ∈ bfs_spec g s (Z.of_nat (bfs_fuel g)).
Proof.
  intros Hv Hh.
  assert (v ∈ bfs_spec g s (Z.of_nat k)) as Hk.
  { apply elem_of_bfs_spec. split; [done |]. exists k. split; [lia | done]. }
  destruct (decide (Z.of_nat k <= Z.of_nat (bfs_fuel g))) as [Hle|Hgt].
  - by apply (elem_of_prefix _ _ _ Hk), bfs_spec_prefix.
  - unfold bfs_fuel in *.
    rewrite bfs_spec_saturate in Hk by lia. rewrite bfs_spec_saturate by lia.
    done.
Qed.

Lemma get_related_files_adj adj filepath depth :
  get_related_files (FileJson (encode_adj adj)) filepath depth =
  if decide (depth < 1) then Ok []
  else Ok (related (graph_of_adj adj) filepath depth).
Proof.
  unfold get_related_files. case_decide; [done |]. simpl.
  by rewrite normalise_items_encode.
Qed.

(** The paths that a caller looks up after [get_related_files], the
    related files and then the file itself, are distinct once they are
    normalised. *)
Lemma related_files_then_target f filepath depth l :
  get_related_files f filepath depth = Ok l ->
  NoDup (as_posix <$> l ++ [filepath]).
Proof.
  intros Hl.
  assert (exists g d, l = bfs_spec g (as_posix filepath) d) as (g & d & ->).
  { unfold get_related_files in Hl. case_decide.
    - injection Hl as <-. by exists ∅, 0.
    - apply bind_Ok_inv in Hl as (g & _ & [= <-]).
      destruct (related_some_depth g filepath depth) as (d & ->). by exists g, d. }
  rewrite fmap_app, fmap_as_posix_normalised by apply bfs_spec_normalised.
  apply NoDup_snoc; [apply bfs_spec_NoDup |].
  rewrite elem_of_bfs_spec. tauto.
Qed.

(** ** Theorems *)

(** C1: [get_related_files] implements the level-by-level specification:
    below depth 1 it returns the empty list without reading the graph file;
    otherwise it fails as loading the graph fails, and on a graph that loads
    it returns [bfs_spec] of the graph, from the normalised file path. *)
Theorem get_related_files_refines f filepath depth :
  get_related_files f filepath depth =
  if decide (depth < 1) then Ok []
  else (g <- load_dependency_graph f ;;
        Ok (bfs_spec g (as_posix filepath) depth)).
Proof.
  unfold get_related_files. case_decide; [done |].
  destruct (load_dependency_graph f); simpl; [| done].
  by rewrite related_levels by lia.
Qed.

(** C8: a list that [get_related_files] returns has no path twice, does not
    hold the normalised file path it was asked about, and holds normalised
    paths only. *)
Theorem get_related_files_wf f filepath depth l :
  get_related_files f filepath depth = Ok l ->
  NoDup l /\ (as_posix filepath ∉ l) /\ Forall normalised l.
Proof.
  unfold get_related_files. case_decide.
  { intros [= <-]. split_and!; [constructor | apply not_elem_of_nil | done]. }
  intros (g & _ & [= <-])%bind_Ok_inv. rewrite related_levels by lia. split_and!.
  - apply bfs_spec_NoDup.
  - rewrite elem_of_bfs_spec. tauto.
  - apply bfs_spec_normalised.
Qed.

(** C3: the paths the traversal returns for a depth of at least 0 are the
    paths other than the start that at most [depth] edges lead to from the
    start, an edge leading from a path to the normal form of each neighbour
    the graph lists for it. *)
Theorem related_reachable g filepath depth v :
  0 <= depth ->
  v ∈ related g filepath depth <->
  v <> as_posix filepath /\ within g (as_posix filepath) (Z.to_nat depth) v.
Proof. intros Hd. rewrite related_levels by done. apply elem_of_bfs_spec. Qed.

(** C19: the list is in the order of the distance from the start: it is the
    concatenation of [depth] lists, of which list [i] holds the paths that
    [i + 1] edges reach and [i] edges do not. *)
Theorem related_by_distance g filepath depth :
  0 <= depth ->
  exists levels,
    related g filepath depth = concat levels /\
    length levels = Z.to_nat depth /\
    forall i level v, levels !! i = Some level ->
      v ∈ level <->
      within g (as_posix filepath) (S i) v /\ ~ within g (as_posix filepath) i v.
Proof.
  intros Hd.
  exists (level_lists g (Z.to_nat depth) {[as_posix filepath]} [as_posix filepath]).
  split_and!; [by apply related_levels | apply length_level_lists |].
  intros i level v Hl.
  apply (level_lists_lookup g _ 0 _ _ _ i level (level_inv_init _ _) Hl).
Qed.

(** A greater depth extends the list: what the search returns for a
    depth of at least 0 is a prefix of what it returns for every greater
    depth, so that the files of a request are the first files of the same
    request with a greater depth, in the same order. *)
Theorem related_depth_prefix g filepath d d' :
  0 <= d <= d' -> related g filepath d `prefix_of` related g filepath d'.
Proof.
  intros Hd. rewrite !related_levels by lia. apply bfs_spec_prefix. lia.
Qed.

(** A depth beyond the number of neighbour paths of the graph adds
    nothing. *)
Theorem related_saturates g filepath depth :
  Z.of_nat (size (graph_targets g)) <= depth ->
  related g filepath depth =
  related g filepath (Z.of_nat (size (graph_targets g))).
Proof.
  intros Hd. rewrite !related_levels by lia. by apply bfs_spec_saturate.
Qed.

(** A remark on the loop alone, which no call of [get_related_files]
    runs: with a negative depth its test [current_depth == depth] never
    holds, and it would return every path other than the start that can be
    reached.  The guard on [depth] at the head of [get_related_files] is
    what makes a negative depth return the empty list. *)
Remark related_negative_depth g filepath depth v :
  depth < 0 ->
  v ∈ related g filepath depth <->
  v <> as_posix filepath /\ exists k, hops g (as_posix filepath) k v.
Proof.
  intros Hd. rewrite related_unbounded by done. split.
  - intros (Hv & k & _ & Hh)%elem_of_bfs_spec. eauto.
  - intros (Hv & k & Hh). by apply (bfs_spec_hops _ _ k).
Qed.

(** A start that the graph has no neighbours for, a path without an
    entry included, gives the empty list at every depth. *)
Theorem related_unknown_start g filepath depth :
  graph_get g (as_posix filepath) = [] -> related g filepath depth = [].
Proof.
  intros Hs. destruct (related_some_depth g filepath depth) as [d ->].
  by apply bfs_spec_no_neighbours.
Qed.

(** At depth 1 the list is the normalised neighbours of the start without
    the start and without repetitions, in the sorted order of the
    neighbours as the graph lists them; on a graph with normalised neighbour
    lists, as [load_dependency_graph] returns them, the list is sorted. *)
Theorem related_direct g filepath :
  related g filepath 1 =
  fresh {[as_posix filepath]} (as_posix <$> sorted (graph_get g (as_posix filepath)))
  /\ (graph_normalised g -> StronglySorted String.le (related g filepath 1)).
Proof.
  rewrite related_levels, bfs_spec_1 by lia. split; [done |].
  intros Hg. apply fresh_StronglySorted. rewrite neighbours_of_normalised by done.
  apply (Sorted_StronglySorted _), sorted_Sorted.
Qed.

(** C26: the outcome depends on the graph file only through the neighbours
    that it lists for every path, as a multiset: two graph files that denote
    graphs with the same neighbours of every path, in any order, give the
    same outcome.  The order of the neighbours in the file and the order of
    items with distinct keys are therefore immaterial. *)
Theorem get_related_files_graph_equiv adj1 adj2 filepath depth :
  graph_equiv (graph_of_adj adj1) (graph_of_adj adj2) ->
  get_related_files (FileJson (encode_adj adj1)) filepath depth =
  get_related_files (FileJson (encode_adj adj2)) filepath depth.
Proof.
  intros Hadj. rewrite !get_related_files_adj.
  case_decide; [done |]. by rewrite Hadj.
Qed.

(** Two graph files whose items list the same neighbours under the same
    keys, the neighbours in any order, give the same outcome. *)
Theorem get_related_files_neighbour_order adj1 adj2 filepath depth :
  Forall2 (fun kv1 kv2 => kv1.1 = kv2.1 /\ kv1.2 ≡ₚ kv2.2) adj1 adj2 ->
  get_related_files (FileJson (encode_adj adj1)) filepath depth =
  get_related_files (FileJson (encode_adj adj2)) filepath depth.
Proof.
  intros Hadj%graph_of_adj_perm_values. rewrite !get_related_files_adj.
  case_decide; [done |]. by rewrite Hadj.
Qed.

(** C40: two graph files with the same items in any order give the same
    outcome, provided the keys stay distinct when they are normalised:
    the order in which the graph was written does not show in the
    result. *)
Theorem get_related_files_item_order adj1 adj2 filepath depth :
  NoDup (as_posix <$> adj1.*1) -> adj1 ≡ₚ adj2 ->
  get_related_files (FileJson (encode_adj adj1)) filepath depth =
  get_related_files (FileJson (encode_adj adj2)) filepath depth.
Proof.
  intros Hnd Hp. rewrite !get_related_files_adj.
  by rewrite (graph_of_adj_perm_items adj1 adj2).
Qed.

End related.

(** ** Examples and witnesses (POSIX flavour) *)

(** The graphs of the examples: a chain, a cycle, and a list that is not
    sorted. *)
Definition chain : adjacency := [("A", ["B"]); ("B", ["C"]); ("C", ["D"])].
Definition cycle : adjacency := [("A", ["B"]); ("B", ["A"])].
Definition unsorted : adjacency := [("A", ["C"; "B"])].

Abbreviation run adj filepath depth :=
  (get_related_files (H := posix_flavour) (FileJson (encode_adj adj)) filepath depth).

(** The examples of the specification.  On the chain
    [A -> B -> C -> D] depth 1 gives [B], depth 2 gives [B; C], depth 0 and
    negative depths give the empty list and a depth beyond the chain gives
    the rest of the chain.  On the cycle [A -> B, B -> A] depth 5 gives [B],
    once.  Neighbours that are listed out of order come out sorted.  A start
    without an entry gives the empty list, and the start is normalised
    before it is looked up.  The guard on [depth] comes before the graph
    file is read: without a graph file depth 0 returns the empty list and
    depth 1 raises [FileNotFoundError].  When two keys of the graph file
    have the same normal form, the order of the items decides which of them
    is kept, and the result depends on it. *)
Example get_related_files_examples :
  get_related_files (H := posix_flavour) (FileJson (encode_adj chain)) "A" 1 = Ok ["B"] /\
  run chain "A" 2 = Ok ["B"; "C"] /\
  run chain "A" 0 = Ok [] /\ run chain "A" (-1) = Ok [] /\
  run chain "A" 9 = Ok ["B"; "C"; "D"] /\
  run cycle "A" 5 = Ok ["B"] /\ run unsorted "A" 1 = Ok ["B"; "C"] /\
  run chain "Z" 3 = Ok [] /\ run unsorted "./A" 1 = Ok ["B"; "C"] /\
  get_related_files (H := posix_flavour) FileMissing "A" 0 = Ok [] /\
  get_related_files (H := posix_flavour) FileMissing "A" 1 = Raise FileNotFoundError /\
  get_related_files (H := posix_flavour) FileMalformed "A" 1 = Raise JSONDecodeError /\
  run [("a.ts", ["x.ts"]); ("./a.ts", ["y.ts"])] "a.ts" 1 = Ok ["y.ts"] /\
  run [("./a.ts", ["y.ts"]); ("a.ts", ["x.ts"])] "a.ts" 1 = Ok ["x.ts"].
Proof. by vm_compute. Qed.

Lemma get_related_files_wf_witness :
  NoDup ["B"; "C"] /\ ("A" ∉ ["B"; "C"]) /\
  Forall (normalised (H := posix_flavour)) ["B"; "C"].
Proof.
  apply (get_related_files_wf (H := posix_flavour)
           (FileJson (encode_adj chain)) "./A" 2).
  by vm_compute.
Defined.

Lemma related_reachable_witness :
  "C" ∈ related (H := posix_flavour) (graph_of_adj (H := posix_flavour) chain) "A" 2 <->
  "C" <> "A" /\ within (H := posix_flavour) (graph_of_adj (H := posix_flavour) chain) "A" 2 "C".
Proof. apply (related_reachable (H := posix_flavour) _ "A" 2 "C"). lia. Defined.

Lemma related_by_distance_witness :
  exists levels,
    related (H := posix_flavour) (graph_of_adj (H := posix_flavour) chain) "A" 2 =
      concat levels /\
    length levels = 2%nat /\
    forall i level v, levels !! i = Some level ->
      v ∈ level <->
      within (H := posix_flavour) (graph_of_adj (H := posix_flavour) chain) "A" (S i) v /\
      ~ within (H := posix_flavour) (graph_of_adj (H := posix_flavour) chain) "A" i v.
Proof. apply (related_by_distance (H := posix_flavour) _ "A" 2). lia. Defined.

Lemma related_depth_prefix_witness :
  related (H := posix_flavour) (graph_of_adj (H := posix_flavour) chain) "A" 1
  `prefix_of`
  related (H := posix_flavour) (graph_of_adj (H := posix_flavour) chain) "A" 3.
Proof. apply (related_depth_prefix (H := posix_flavour)). lia. Defined.

Lemma related_saturates_witness :
  related (H := posix_flavour) (graph_of_adj (H := posix_flavour) chain) "A" 7 =
  related (H := posix_flavour) (graph_of_adj (H := posix_flavour) chain) "A" 3.
Proof.
  apply (related_saturates (H := posix_flavour)
           (graph_of_adj (H := posix_flavour) chain) "A" 7).
  by vm_compute.
Defined.

Lemma related_negative_depth_witness :
  "D" ∈ related (H := posix_flavour) (graph_of_adj (H := posix_flavour) chain) "A" (-1) <->
  "D" <> "A" /\
  exists k, hops (H := posix_flavour) (graph_of_adj (H := posix_flavour) chain) "A" k "D".
Proof. apply (related_negative_depth (H := posix_flavour)). lia. Defined.

Lemma related_unknown_start_witness :
  related (H := posix_flavour) (graph_of_adj (H := posix_flavour) chain) "Z" 4 = [].
Proof. apply (related_unknown_start (H := posix_flavour)). by vm_compute. Defined.

Lemma get_related_files_graph_equiv_witness :
  get_related_files (H := posix_flavour)
    (FileJson (encode_adj [("A", ["C"; "B"])])) "A" 1 =
  get_related_files (H := posix_flavour)
    (FileJson (encode_adj [("A", ["B"; "C"])])) "A" 1.
Proof.
  apply (get_related_files_graph_equiv (H := posix_flavour)).
  apply (graph_of_adj_perm_values (H := posix_flavour)).
  repeat constructor.
Defined.

Lemma get_related_files_neighbour_order_witness :
  run [("A", ["C"; "B"]); ("B", ["D"])] "A" 2 =
  run [("A", ["B"; "C"]); ("B", ["D"])] "A" 2.
Proof.
  apply (get_related_files_neighbour_order (H := posix_flavour)).
  repeat constructor.
Defined.

Lemma get_related_files_item_order_witness :
  run [("A", ["B"]); ("B", ["C"])] "A" 2 = run [("B", ["C"]); ("A", ["B"])] "A" 2.
Proof.
  apply (get_related_files_item_order (H := posix_flavour)).
  - vm_compute. repeat constructor; set_solver.
  - apply Permutation_swap.
Defined.
