(* ===== verification/Store.v ===== *)
(** * Store: the vector store as the endpoint reads it

    main.py reads the collection through two calls of the client: [search],
    whose hits it takes in the order the store ranks them, and [scroll] with
    a filter on the payload field [path] and [limit=1], inside
    [_load_file_payload] (lines 34 to 48).  A point is modelled by what the
    endpoint reads of it: its payload, which may be absent, with the fields
    [path] and [text], each of which may be absent or [None].  The fields
    that are present are strings, as the indexer writes them; a payload
    that another program wrote with a path that is no string is outside
    the model.  The
    collection is the list of its points in the order [scroll] goes through
    them. *)

From stdpp Require Import base tactics list strings.
From S2P Require Import Prelude PyStr.

(** ** Data *)

(** The payload of a point: [get_path] is [payload.get("path")], [get_text]
    is [payload.get("text")]. *)
Record payload_dict : Type := PayloadDict {
  get_path : option string;
  get_text : option string
}.

(** A point of the collection, or a hit of a search. *)
Record point : Type := Point {
  point_id : Z;
  payload : option payload_dict
}.

#[export] Instance payload_dict_eq_dec : EqDecision payload_dict.
Proof. solve_decision. Defined.

#[export] Instance point_eq_dec : EqDecision point.
Proof. solve_decision. Defined.

(** The empty payload, [{}]. *)
Definition empty_payload : payload_dict :=
  {| get_path := None; get_text := None |}.

(** [p.payload or {}]: lines 44 and 73. *)
Definition payload_or_empty (p : point) : payload_dict :=
  default empty_payload (payload p).

(** ** Operations *)

(** The filter of line 39: the payload has the field [path] with the value
    [path]. *)
Definition path_matches (path : string) (p : point) : Prop :=
  payload p ≫= get_path = Some path.

#[export] Instance path_matches_dec path p : Decision (path_matches path p).
Proof. unfold path_matches. apply _. Defined.

(** [client.scroll(scroll_filter=..., limit=limit)]: the first [limit] points
    that match. *)
Definition scroll (store : list point) (path : string) (limit : nat)
  : list point :=
  take limit (filter (path_matches path) store).

(** What [_load_file_payload] makes of the records [res] that [scroll]
    returned: lines 43 to 48. *)
Definition payload_of_res (path : string) (res : list point)
  : option (string * string) :=
  match res with
  | [] => None
  | p :: _ =>
      let payload := payload_or_empty p in
      match get_text payload with
      | Some text => Some (path, text)
      | None => None
      end
  end.

(** [_load_file_payload(client, path)]: lines 34 to 48, on a collection that
    answers. *)
Definition _load_file_payload (store : list point) (path : string)
  : option (string * string) :=
  let res := scroll store path 1 in
  payload_of_res path res.

(** The first point of the collection whose path is [path]. *)
Definition first_match (store : list point) (path : string) : option point :=
  head (filter (path_matches path) store).

(** The text stored for [path], as [_load_file_payload] sees it. *)
Definition stored_text (store : list point) (path : string) : option string :=
  p ← first_match store path; payload p ≫= get_text.

(** ** Lemmas *)

Lemma scroll_length store path limit : length (scroll store path limit) <= limit.
Proof. unfold scroll. rewrite length_take. lia. Qed.

Lemma scroll_matches store path limit p :
  p ∈ scroll store path limit -> p ∈ store /\ path_matches path p.
Proof.
  unfold scroll. intros Hp%(subseteq_take limit).
  by apply list_elem_of_filter in Hp as [? ?].
Qed.

Lemma scroll_1 store path : scroll store path 1 = option_list (first_match store path).
Proof.
  unfold scroll, first_match. by destruct (filter (path_matches path) store).
Qed.

Lemma first_match_Some store path p :
  first_match store path = Some p <->
  exists l1 l2, store = l1 ++ p :: l2 /\ path_matches path p /\
    Forall (fun q => ~ path_matches path q) l1.
Proof.
  unfold first_match. induction store as [|q store IH]; simpl.
  - split; [done |]. intros (l1 & l2 & Hl & _). by destruct l1.
  - rewrite filter_cons. case_decide as Hq; simpl.
    + split.
      * intros [= ->]. exists [], store. by repeat split.
      * intros ([|q' l1] & l2 & Hl & Hp & Hl1); simplify_eq/=; [done |].
        by apply Forall_cons in Hl1 as [? _].
    + rewrite IH. split.
      * intros (l1 & l2 & -> & Hp & Hl1). exists (q :: l1), l2.
        split_and!; [done | done | by constructor].
      * intros ([|q' l1] & l2 & Hl & Hp & Hl1); simplify_eq/=; [done |].
        apply Forall_cons in Hl1 as [_ Hl1]. by exists l1, l2.
Qed.

Lemma first_match_None store path :
  first_match store path = None <-> Forall (fun q => ~ path_matches path q) store.
Proof.
  unfold first_match. rewrite head_None, Forall_forall. split.
  - intros Hf q Hq Hm. assert (q ∈ filter (path_matches path) store) as Hin
      by by apply list_elem_of_filter.
    rewrite Hf in Hin. by apply elem_of_nil in Hin.
  - intros Hall. destruct (filter (path_matches path) store) as [|q l] eqn:E;
      [done |].
    assert (q ∈ filter (path_matches path) store) as [Hm Hq]%list_elem_of_filter
      by (rewrite E; left).
    by destruct (Hall q).
Qed.

Lemma load_file_payload_stored store path :
  _load_file_payload store path = (fun text => (path, text)) <$> stored_text store path.
Proof.
  unfold _load_file_payload, payload_of_res, stored_text. rewrite scroll_1.
  destruct (first_match store path) as [p|]; simpl; [| done].
  unfold payload_or_empty. destruct (payload p) as [d|]; simpl; [| done].
  by destruct (get_text d).
Qed.

Lemma load_file_payload_path store path e :
  _load_file_payload store path = Some e -> e.1 = path.
Proof.
  rewrite load_file_payload_stored. destruct (stored_text store path); [| done].
  by intros [= <-].
Qed.
