(* ===== verification/Assembler.v ===== *)
(** * Assembler: the context of a request

    Lines 70 to 97 of main.py build the context of a request: the [set]
    [seen] and the list [context] of (path, text) pairs, filled from the hits
    of the search ([add_hit], lines 72 to 78), then from the related files
    ([add_related], lines 82 to 89), then from the target file
    ([add_target], lines 92 to 97).  [build_context] composes the three.

    The specification is [assemble]: the entries that the three sources
    offer, in that order, each path kept the first time it is offered.  The
    theorems show that [build_context] computes it, that no path comes
    twice, when the target file is part of the context, and which entries
    the context has ([elem_of_build_context]): a hit under the path that is
    stored, a related or target file under its normal form, so that one
    file can be there under two spellings, and with an empty text only
    through a lookup. *)

From stdpp Require Import base tactics list strings gmap.
From S2P Require Import Prelude PyStr Paths Levels Store.

(** ** State *)

(** The variables [seen] and [context] of lines 70 and 71. *)
Record ctx_state : Type := CtxState {
  seen : gset string;
  context : list (string * string)
}.

Definition ctx_init : ctx_state := {| seen := ∅; context := [] |}.

(** ** Operations *)

(** The body of [for hit in results]: lines 73 to 78. *)
Definition add_hit (st : ctx_state) (hit : point) : ctx_state :=
  let payload := payload_or_empty hit in
  match get_path payload, get_text payload with
  | Some path, Some text =>
      if truthy path && truthy text && bool_decide (path ∉ seen st)
      then {| seen := {[path]} ∪ seen st; context := context st ++ [(path, text)] |}
      else st
  | _, _ => st
  end.

Section assembler.
Context `{PathFlavour}.

(** The body of [for rel_path in related_files]: lines 83 to 89. *)
Definition add_related (store : list point) (st : ctx_state) (rel_path : string)
  : ctx_state :=
  let norm_path := as_posix rel_path in
  if decide (norm_path ∈ seen st) then st
  else
    match _load_file_payload store norm_path with
    | Some payload =>
        {| seen := {[norm_path]} ∪ seen st; context := context st ++ [payload] |}
    | None => st
    end.

(** Lines 92 to 97. *)
Definition add_target (store : list point) (st : ctx_state) (target_file : string)
  : ctx_state :=
  let target_norm := as_posix target_file in
  if decide (target_norm ∉ seen st) then
    match _load_file_payload store target_norm with
    | Some payload =>
        {| seen := {[target_norm]} ∪ seen st; context := context st ++ [payload] |}
    | None => st
    end
  else st.

(** Lines 70 to 97: the context of a request, from the hits of the search,
    the related files and the target file. *)
Definition build_context (store : list point) (results : list point)
  (related_files : list string) (target_file : string) : list (string * string) :=
  let st := foldl add_hit ctx_init results in
  let st := foldl (add_related store) st related_files in
  context (add_target store st target_file).

(** ** Specification *)

(** The entry a hit offers: its path and text, when both are there and
    neither is empty. *)
Definition hit_entry (hit : point) : option (string * string) :=
  d ← payload hit; path ← get_path d; text ← get_text d;
  if truthy path && truthy text then Some (path, text) else None.

(** The entries of [l] whose path is not in [seen], each path once, in the
    order of the first occurrence. *)
Fixpoint first_by_path (seen : gset string) (l : list (string * string))
  : list (string * string) :=
  match l with
  | [] => []
  | e :: l' =>
      if decide (e.1 ∈ seen) then first_by_path seen l'
      else e :: first_by_path ({[e.1]} ∪ seen) l'
  end.

(** The entries the store has for a list of paths. *)
Definition backfill (store : list point) (paths : list string)
  : list (string * string) :=
  omap (_load_file_payload store) paths.

(** Everything that is offered, in the order of precedence. *)
Definition offers (store : list point) (results : list point)
  (related_files : list string) (target_file : string) : list (string * string) :=
  omap hit_entry results ++
  backfill store (as_posix <$> related_files) ++
  backfill store [as_posix target_file].

Definition assemble (store : list point) (results : list point)
  (related_files : list string) (target_file : string) : list (string * string) :=
  first_by_path ∅ (offers store results related_files target_file).

(** The invariant of the three loops: [seen] is the set of the paths of
    [context], and no path comes twice. *)
Definition ctx_inv (st : ctx_state) : Prop :=
  seen st = list_to_set (context st).*1 /\ NoDup (context st).*1.

(** ** Lemmas on [first_by_path] *)

Lemma first_by_path_fst seen' l : (first_by_path seen' l).*1 = fresh seen' l.*1.
Proof.
  revert seen'. induction l as [|e l IH]; intros seen'; simpl; [done |].
  case_decide; simpl; by rewrite IH.
Qed.

Lemma first_by_path_app seen' l1 l2 :
  first_by_path seen' (l1 ++ l2) =
  first_by_path seen' l1 ++
  first_by_path (seen' ∪ list_to_set (first_by_path seen' l1).*1) l2.
Proof.
  revert seen'. induction l1 as [|e l1 IH]; intros seen'; simpl.
  - by rewrite union_empty_r_L.
  - case_decide; [apply IH |]. simpl. rewrite IH. do 2 f_equal.
    by rewrite (union_comm_L {[e.1]}), union_assoc_L.
Qed.

Lemma elem_of_first_by_path seen' l e :
  e ∈ first_by_path seen' l -> e ∈ l /\ e.1 ∉ seen'.
Proof.
  revert seen'. induction l as [|e' l IH]; intros seen'; simpl.
  - by intros ?%elem_of_nil.
  - case_decide.
    + intros [? ?]%IH. split; [by right | done].
    + intros [-> | [? ?]%IH]%elem_of_cons; [split; [left | done] |].
      split; [by right | set_solver].
Qed.

Lemma NoDup_first_by_path seen' l : NoDup (first_by_path seen' l).*1.
Proof. rewrite first_by_path_fst. apply NoDup_fresh. Qed.

(** ** The loops compute [first_by_path] *)

Lemma add_hit_first st hit :
  add_hit st hit =
  let new := first_by_path (seen st) (option_list (hit_entry hit)) in
  {| seen := seen st ∪ list_to_set new.*1; context := context st ++ new |}.
Proof.
  destruct st as [S C]. unfold add_hit, hit_entry, payload_or_empty. simpl.
  destruct (payload hit) as [[[path|] [text|]]|]; simpl;
    rewrite ?union_empty_r_L, ?app_nil_r; try done.
  destruct (truthy path && truthy text); simpl;
    rewrite ?union_empty_r_L, ?app_nil_r; [| done].
  case_bool_decide; case_decide; try done; simpl.
  - f_equal. set_solver.
  - by rewrite union_empty_r_L, app_nil_r.
Qed.

Lemma add_related_first store st rel_path :
  add_related store st rel_path =
  let new := first_by_path (seen st) (backfill store [as_posix rel_path]) in
  {| seen := seen st ∪ list_to_set new.*1; context := context st ++ new |}.
Proof.
  destruct st as [S C]. unfold add_related, backfill. simpl.
  destruct (_load_file_payload store (as_posix rel_path)) as [e|] eqn:E; simpl.
  - pose proof (load_file_payload_path _ _ _ E) as He.
    destruct e as [p text]. simpl in He. subst p. simpl.
    case_decide; simpl; rewrite ?union_empty_r_L, ?app_nil_r; [done |].
    f_equal. set_solver.
  - rewrite union_empty_r_L, app_nil_r. by case_decide.
Qed.

Lemma add_target_related store st target_file :
  add_target store st target_file = add_related store st target_file.
Proof. unfold add_target, add_related. simpl. by repeat case_decide. Qed.

(** A loop whose body appends the new entries of what each element offers
    appends the new entries of what the list offers. *)
Lemma foldl_first {A} (f : ctx_state -> A -> ctx_state)
    (offer : A -> list (string * string)) (l : list A) st :
  (forall st x, f st x =
     let new := first_by_path (seen st) (offer x) in
     {| seen := seen st ∪ list_to_set new.*1; context := context st ++ new |}) ->
  foldl f st l =
  let new := first_by_path (seen st) (l ≫= offer) in
  {| seen := seen st ∪ list_to_set new.*1; context := context st ++ new |}.
Proof.
  intros Hf. revert st. induction l as [|x l IH]; intros [S C]; simpl.
  - by rewrite union_empty_r_L, app_nil_r.
  - rewrite IH, Hf. simpl. rewrite first_by_path_app, fmap_app, list_to_set_app_L.
    by rewrite union_assoc_L, app_assoc.
Qed.

Lemma bind_option_list {A B} (f : A -> option B) (l : list A) :
  l ≫= (fun x => option_list (f x)) = omap f l.
Proof.
  induction l as [|x l IH]; [done |]. rewrite bind_cons, IH. simpl.
  by destruct (f x).
Qed.

Lemma backfill_bind store paths :
  (paths ≫= fun p => backfill store [as_posix p]) = backfill store (as_posix <$> paths).
Proof.
  unfold backfill. induction paths as [|p paths IH]; [done |].
  rewrite bind_cons, IH. simpl.
  by destruct (_load_file_payload store (as_posix p)).
Qed.

(** The three loops, from any state: what they append is what is new of
    the offers. *)
Lemma loops_offers store results related_files target_file st :
  context (add_target store
             (foldl (add_related store) (foldl add_hit st results) related_files)
             target_file) =
  context st ++
  first_by_path (seen st) (offers store results related_files target_file).
Proof.
  unfold offers. rewrite add_target_related, add_related_first.
  rewrite (foldl_first _ _ _ _ (add_related_first store)).
  rewrite (foldl_first _ _ _ _ add_hit_first). cbn [seen context].
  rewrite bind_option_list, backfill_bind, !first_by_path_app.
  by rewrite <- !app_assoc.
Qed.

(** ** Lemmas on the invariant *)

Lemma ctx_inv_init : ctx_inv ctx_init.
Proof. split; [done | constructor]. Qed.

Lemma ctx_inv_add st path text :
  ctx_inv st -> path ∉ seen st ->
  ctx_inv {| seen := {[path]} ∪ seen st; context := context st ++ [(path, text)] |}.
Proof.
  intros [Hs Hnd] Hp. split; simpl.
  - rewrite fmap_app, list_to_set_app_L, Hs. simpl. set_solver.
  - rewrite fmap_app. apply NoDup_snoc; [done |]. rewrite Hs in Hp. set_solver.
Qed.

Lemma ctx_inv_add_hit st hit : ctx_inv st -> ctx_inv (add_hit st hit).
Proof.
  intros Hinv. unfold add_hit.
  destruct (get_path (payload_or_empty hit)) as [path|],
    (get_text (payload_or_empty hit)) as [text|]; try done.
  destruct (truthy path && truthy text); simpl; [| done].
  case_bool_decide; [by apply ctx_inv_add | done].
Qed.

Lemma ctx_inv_add_related store st rel_path :
  ctx_inv st -> ctx_inv (add_related store st rel_path).
Proof.
  intros Hinv. unfold add_related. simpl. case_decide; [done |].
  destruct (_load_file_payload _ _) as [[p text]|] eqn:E; [| done].
  apply load_file_payload_path in E. simpl in E. subst p. by apply ctx_inv_add.
Qed.

(** ** Lemmas on the specification *)

Lemma first_by_path_elem seen' l e :
  e ∈ first_by_path seen' l <->
  (e.1 ∉ seen') /\ exists l1 l2, l = l1 ++ e :: l2 /\ (e.1 ∉ l1.*1).
Proof.
  revert seen'. induction l as [|e' l IH]; intros seen'; simpl.
  - split; [by intros ?%elem_of_nil |]. intros (_ & l1 & l2 & Hl & _).
    by destruct l1.
  - case_decide as He'; [| rewrite elem_of_cons]; rewrite IH; split.
    + intros (Hs & l1 & l2 & -> & Hl1). split; [done |].
      exists (e' :: l1), l2. split; [done |]. simpl.
      apply not_elem_of_cons. split; [| done]. intros Heq. by rewrite Heq in Hs.
    + intros (Hs & [|e'' l1] & l2 & Hl & Hl1); simplify_eq/=; [done |].
      apply not_elem_of_cons in Hl1 as [_ Hl1]. by eauto.
    + intros [-> | (Hs & l1 & l2 & -> & Hl1)].
      { split; [done |]. exists [], l. split; [done | apply not_elem_of_nil]. }
      apply not_elem_of_union in Hs as [Hne%not_elem_of_singleton Hs].
      split; [done |]. exists (e' :: l1), l2. split; [done |]. simpl.
      by apply not_elem_of_cons.
    + intros (Hs & [|e'' l1] & l2 & Hl & Hl1); simplify_eq/=; [by left |].
      apply not_elem_of_cons in Hl1 as [Hne Hl1]. right.
      split; [| by eauto]. apply not_elem_of_union. split; [| done].
      by apply not_elem_of_singleton.
Qed.

Lemma length_first_by_path seen' l : length (first_by_path seen' l) <= length l.
Proof.
  revert seen'. induction l as [|e l IH]; intros seen'; simpl; [done |].
  case_decide; simpl; [specialize (IH seen') | specialize (IH ({[e.1]} ∪ seen'))];
    lia.
Qed.

Lemma length_offers store results related_files target_file :
  length (offers store results related_files target_file) <=
  length results + length related_files + 1.
Proof.
  unfold offers, backfill. rewrite !length_app.
  pose proof (length_omap hit_entry results).
  pose proof (length_omap (_load_file_payload store) (as_posix <$> related_files))
    as Hr. rewrite length_fmap in Hr.
  pose proof (length_omap (_load_file_payload store) [as_posix target_file]) as Ht.
  change (length [as_posix target_file]) with 1 in Ht. lia.
Qed.

(** The paths of the context are the paths that are offered, and its entries
    are among the offers. *)
Lemma elem_of_context_paths store results related_files target_file p :
  p ∈ (build_context store results related_files target_file).*1 <->
  p ∈ (offers store results related_files target_file).*1.
Proof.
  unfold build_context. rewrite loops_offers. simpl.
  rewrite first_by_path_fst, elem_of_fresh. split; [by intros [? _] |].
  intros Hp. split; [done | apply not_elem_of_empty].
Qed.

Lemma elem_of_context_offers store results related_files target_file e :
  e ∈ build_context store results related_files target_file ->
  e ∈ offers store results related_files target_file.
Proof.
  unfold build_context. rewrite loops_offers. simpl.
  by intros [? _]%elem_of_first_by_path.
Qed.

Lemma length_hits results :
  length (context (foldl add_hit ctx_init results)) <= length results.
Proof.
  rewrite (foldl_first _ _ _ _ add_hit_first). simpl.
  rewrite bind_option_list.
  pose proof (length_first_by_path ∅ (omap hit_entry results)).
  pose proof (length_omap hit_entry results). lia.
Qed.

(** The context has at most one entry for each hit, each related file and
    the target file. *)
Lemma length_loops store results related_files target_file :
  length (context (add_target store
            (foldl (add_related store) (foldl add_hit ctx_init results)
               related_files) target_file)) <=
  length results + length related_files + 1.
Proof.
  rewrite loops_offers. simpl.
  pose proof (length_first_by_path ∅
                (offers store results related_files target_file)).
  pose proof (length_offers store results related_files target_file). lia.
Qed.

(** The invariant holds after the three loops, from any state that has it. *)
Lemma ctx_inv_loops store results related_files target_file st :
  ctx_inv st ->
  ctx_inv (add_target store
             (foldl (add_related store) (foldl add_hit st results) related_files)
             target_file).
Proof.
  intros Hinv. rewrite add_target_related. apply ctx_inv_add_related.
  apply foldl_invariant; [| intros; by apply ctx_inv_add_related].
  apply foldl_invariant; [done | intros; by apply ctx_inv_add_hit].
Qed.

Lemma elem_of_backfill store paths e :
  e ∈ backfill store paths <-> e.1 ∈ paths /\ stored_text store e.1 = Some e.2.
Proof.
  unfold backfill. rewrite list_elem_of_omap. split.
  - intros (p & Hp & E). pose proof (load_file_payload_path _ _ _ E) as <-.
    split; [done |]. rewrite load_file_payload_stored in E.
    destruct (stored_text store e.1) as [text|]; [| done].
    simpl in E. injection E as E. by rewrite <- E.
  - intros [Hp Ht]. exists e.1. split; [done |].
    rewrite load_file_payload_stored, Ht. by destruct e.
Qed.

(** The entry of a hit has a path and a text that are not empty. *)
Lemma hit_entry_truthy hit e :
  hit_entry hit = Some e -> truthy e.1 = true /\ truthy e.2 = true.
Proof.
  unfold hit_entry. destruct (payload hit) as [[[path|] [text|]]|]; simpl; try done.
  destruct (truthy path && truthy text) eqn:E; [| done].
  intros [= <-]. by apply andb_prop in E.
Qed.

(** What the store offers for the related files and the target file. *)
Lemma offers_lookups store results related_files target_file :
  offers store results related_files target_file =
  omap hit_entry results ++
  backfill store (as_posix <$> related_files ++ [target_file]).
Proof. unfold offers, backfill. by rewrite fmap_app, omap_app. Qed.

(** Of entries that their paths determine, each is kept unless its path
    was seen. *)
Lemma first_by_path_functional seen' l e :
  e ∈ l -> (forall e', e' ∈ l -> e'.1 = e.1 -> e' = e) -> e.1 ∉ seen' ->
  e ∈ first_by_path seen' l.
Proof.
  revert seen'. induction l as [|x l IH]; intros seen'; [by intros ?%elem_of_nil |].
  intros Hin Hfun Hs. simpl.
  destruct (decide (x.1 = e.1)) as [Hx | Hx].
  - assert (x = e) as -> by (apply Hfun; [left | done]).
    rewrite decide_False by done. left.
  - apply elem_of_cons in Hin as [-> | Hin]; [done |].
    assert (e ∈ first_by_path seen' l /\ e ∈ first_by_path ({[x.1]} ∪ seen') l)
      as [? ?].
    { split; (apply IH; [done | | set_solver]);
        intros e' He'; apply Hfun; by right. }
    case_decide; [done | by right].
Qed.

(** An entry of the context is the first hit with its path, or no hit has
    its path, it is the normal form of a related file or of the target
    file, and its text is what the store has under that path. *)
Lemma elem_of_build_context store results related_files target_file e :
  e ∈ build_context store results related_files target_file <->
  e ∈ first_by_path ∅ (omap hit_entry results) \/
  (e.1 ∉ (omap hit_entry results).*1 /\
   e.1 ∈ as_posix <$> related_files ++ [target_file] /\
   stored_text store e.1 = Some e.2).
Proof.
  unfold build_context. rewrite loops_offers. cbn [seen context ctx_init app].
  rewrite offers_lookups, first_by_path_app, elem_of_app, union_empty_l_L.
  apply or_iff_compat_l. split.
  - intros [[Hp Ht]%elem_of_backfill Hs]%elem_of_first_by_path.
    rewrite elem_of_list_to_set, first_by_path_fst, elem_of_fresh in Hs.
    split_and!; [| done | done]. intros Hhit. apply Hs.
    split; [done | apply not_elem_of_empty].
  - intros (Hh & Hp & Ht). apply first_by_path_functional.
    + by apply elem_of_backfill.
    + intros e' [_ Ht']%elem_of_backfill Heq. rewrite Heq, Ht in Ht'.
      destruct e, e'. by simplify_eq/=.
    + rewrite elem_of_list_to_set, first_by_path_fst, elem_of_fresh. tauto.
Qed.

End assembler.

#[export] Hint Resolve ctx_inv_init ctx_inv_add_hit ctx_inv_add_related : py.

(** ** Theorems *)

(** Rewrites [build_context] into what is new of the offers. *)
Ltac context_offers :=
  unfold build_context, assemble; rewrite loops_offers;
  cbn [seen context ctx_init app].

Section assembler_theorems.
Context `{PathFlavour}.

(** C4: the context that the three loops build is the specification
    [assemble]: of everything the hits, the related files and the target
    file offer, in that order, each path is kept with the entry that offers
    it first. *)
Theorem build_context_assemble store results related_files target_file :
  build_context store results related_files target_file =
  assemble store results related_files target_file.
Proof. by context_offers. Qed.

(** C28: every operation on the context keeps the invariant: [seen] is the
    set of the paths of [context], and no path is in [context] twice. *)
Theorem ctx_inv_preserved store st hit path :
  ctx_inv st ->
  ctx_inv (add_hit st hit) /\ ctx_inv (add_related store st path) /\
  ctx_inv (add_target store st path).
Proof.
  intros Hinv. rewrite add_target_related. split_and!; eauto with py.
Qed.

(** C9: no two entries of the context have the same path. *)
Theorem build_context_NoDup store results related_files target_file :
  NoDup (build_context store results related_files target_file).*1.
Proof.
  context_offers. apply NoDup_first_by_path.
Qed.

(** An entry is in the context exactly when it is offered and nothing
    offered before it has its path: a hit takes precedence over a related
    file, and a related file over the target file. *)
Theorem build_context_first_offer store results related_files target_file e :
  e ∈ build_context store results related_files target_file <->
  exists l1 l2,
    offers store results related_files target_file = l1 ++ e :: l2 /\
    (e.1 ∉ l1.*1).
Proof.
  context_offers. rewrite first_by_path_elem. split; [by intros [_ ?] |].
  intros Hl. split; [apply not_elem_of_empty | done].
Qed.

(** The target file is part of the context exactly when a hit has its
    normalised path or the store has a text for it. *)
Theorem build_context_target store results related_files target_file :
  as_posix target_file ∈ (build_context store results related_files target_file).*1
  <->
  as_posix target_file ∈ (omap hit_entry results).*1 \/
  is_Some (stored_text store (as_posix target_file)).
Proof.
  context_offers. rewrite first_by_path_fst, elem_of_fresh. unfold offers.
  rewrite !fmap_app, !elem_of_app. split.
  - intros [[Hh | [Hr | Ht]] _]; [by left | right ..].
    + apply list_elem_of_fmap in Hr as (e & -> & [_ He]%elem_of_backfill). eauto.
    + apply list_elem_of_fmap in Ht as (e & -> & [_ He]%elem_of_backfill). eauto.
  - intros [Hh | [text Ht]]; (split; [| apply not_elem_of_empty]); [by left |].
    right. right. apply list_elem_of_fmap. exists (as_posix target_file, text).
    split; [done |]. apply elem_of_backfill. split; [left | done].
Qed.

(** When no hit and no related file has the path of the target file and
    the store has a text for it, the target file is the last entry of the
    context, with that text. *)
Theorem build_context_target_last store results related_files target_file text :
  as_posix target_file ∉ (omap hit_entry results).*1 ->
  as_posix target_file ∉ as_posix <$> related_files ->
  stored_text store (as_posix target_file) = Some text ->
  last (build_context store results related_files target_file) =
  Some (as_posix target_file, text).
Proof.
  intros Hh Hr Ht.
  context_offers. unfold offers. rewrite app_assoc, first_by_path_app.
  unfold backfill at 3. simpl.
  rewrite load_file_payload_stored, Ht. simpl. rewrite decide_False.
  { by rewrite last_snoc. }
  rewrite union_empty_l_L, elem_of_list_to_set, first_by_path_fst, elem_of_fresh.
  rewrite fmap_app, elem_of_app. intros [[? | Hb] _]; [done |].
  apply list_elem_of_fmap in Hb as (e & He & [Hb _]%elem_of_backfill).
  by rewrite <- He in Hb.
Qed.

(** C25: a file is found by its path only when the path is stored in normal
    form.  An entry of the context is the entry of a hit, or its path is a
    fixed point of [as_posix] and its text is what the store has under that
    path: a point whose stored path is not in normal form, as the indexer
    writes it on a host where [str(path)] and [path.as_posix()] differ, is
    part of the context only when the search returns it, never as a related
    file or as the target file. *)
Theorem build_context_lookup_normalised store results related_files target_file e :
  e ∈ build_context store results related_files target_file ->
  e ∈ omap hit_entry results \/
  (normalised e.1 /\ stored_text store e.1 = Some e.2).
Proof.
  intros He%elem_of_context_offers. unfold offers in He.
  rewrite !elem_of_app in He.
  destruct He as [He | [He | He]]; [by left | right | right];
    apply elem_of_backfill in He as [Hp Ht]; (split; [| done]).
  - apply list_elem_of_fmap in Hp as (p & -> & _). apply as_posix_normalised.
  - apply list_elem_of_singleton in Hp as ->. apply as_posix_normalised.
Qed.

(** C35: the path of a hit is taken as it is stored, and the paths that are
    looked up are normalised first: when a hit has a path that is not in
    normal form, and the file is also a related file or the target file
    and the store has it under its normal form, the context holds the file
    twice, once under each spelling. *)
Theorem build_context_two_spellings store results related_files target_file raw :
  raw ∈ (omap hit_entry results).*1 -> ~ normalised raw ->
  as_posix raw ∈ as_posix <$> related_files ++ [target_file] ->
  is_Some (stored_text store (as_posix raw)) ->
  let paths := (build_context store results related_files target_file).*1 in
  raw ∈ paths /\ as_posix raw ∈ paths /\ ~ NoDup (as_posix <$> paths).
Proof.
  intros Hraw Hn Hp Hs paths.
  assert (forall p, p ∈ (offers store results related_files target_file).*1 ->
                    p ∈ paths) as Hoff
    by (intros p; apply elem_of_context_paths).
  assert (raw ∈ paths /\ as_posix raw ∈ paths) as [H1 H2].
  { split; apply Hoff; rewrite offers_lookups, fmap_app, elem_of_app; [by left |].
    right. destruct Hs as [text Ht]. apply list_elem_of_fmap.
    exists (as_posix raw, text). split; [done |]. by apply elem_of_backfill. }
  split_and!; [done | done |]. intros Hnd. apply Hn. symmetry.
  apply (NoDup_fmap_inj as_posix paths); [done .. |]. by rewrite as_posix_idemp.
Qed.

(** C36: an empty text is skipped as a hit and accepted as a lookup: an entry
    with an empty text is in the context exactly when no hit has its path,
    it is the normal form of a related file or of the target file, and the
    store has the empty text under that path. *)
Theorem build_context_empty_text store results related_files target_file path :
  (path, "") ∈ build_context store results related_files target_file <->
  path ∉ (omap hit_entry results).*1 /\
  path ∈ as_posix <$> related_files ++ [target_file] /\
  stored_text store path = Some "".
Proof.
  rewrite elem_of_build_context. split; [| by right].
  intros [[(hit & _ & [_ ?]%hit_entry_truthy)%list_elem_of_omap _]%elem_of_first_by_path
         | ?]; done.
Qed.

End assembler_theorems.

(** ** Examples and witnesses (POSIX flavour) *)

(** A point with a path and a text. *)
Definition file_point (n : Z) (path text : string) : point :=
  {| point_id := n;
     payload := Some {| get_path := Some path; get_text := Some text |} |}.

(** A collection of three files. *)
Definition xyz : list point :=
  [file_point 1 "X" "x"; file_point 2 "Y" "y"; file_point 3 "Z" "z"].

Abbreviation ctx store results related_files target_file :=
  (build_context (H := posix_flavour) store results related_files target_file).

(** The examples of the specification.  Hits for [X] and [Y], the
    related files [Y] and [Z] and the target file [X] give the context [X],
    [Y], [Z]: [X] stays where the hits put it, [Y] comes once, [Z] is
    appended, and the target file is not added again.  A target file that no
    hit and no related file names is appended last when the store has it,
    and is left out, without an error, when the store does not have it; a
    related file that the store does not have is left out as well. *)
Theorem build_context_precedence :
  build_context (H := posix_flavour) xyz
    [file_point 1 "X" "x"; file_point 2 "Y" "y"] ["Y"; "Z"] "X" =
  [("X", "x"); ("Y", "y"); ("Z", "z")] /\
  ctx xyz [file_point 2 "Y" "y"] ["Z"] "X" = [("Y", "y"); ("Z", "z"); ("X", "x")] /\
  ctx xyz [file_point 2 "Y" "y"] ["Z"] "W" = [("Y", "y"); ("Z", "z")] /\
  ctx xyz [file_point 2 "Y" "y"] ["V"; "Z"] "W" = [("Y", "y"); ("Z", "z")].
Proof. by vm_compute. Qed.

(** What the store holds is taken as it is.  A hit is skipped when it
    has no payload, no path, no text, an empty path or an empty text; the
    lookup by path skips a point without text and keeps one whose text is
    empty.  The path of a hit is not normalised: a file whose hit has the
    path [./a.ts] is in the context a second time when it is the target
    file [a.ts]. *)
Example build_context_stored_as_is :
  build_context (H := posix_flavour) [] [ {| point_id := 1; payload := None |};
           {| point_id := 2; payload := Some empty_payload |};
           {| point_id := 3;
              payload := Some {| get_path := Some "a.ts"; get_text := None |} |};
           file_point 4 "" "text"; file_point 5 "b.ts" "" ] [] "t.ts" = [] /\
  ctx [file_point 5 "b.ts" "";
       {| point_id := 3;
          payload := Some {| get_path := Some "a.ts"; get_text := None |} |}]
      [] ["a.ts"; "b.ts"] "t.ts" = [("b.ts", "")] /\
  ctx [file_point 1 "a.ts" "text"] [file_point 7 "./a.ts" "text"] [] "a.ts" =
  [("./a.ts", "text"); ("a.ts", "text")].
Proof. by vm_compute. Qed.

Lemma ctx_inv_preserved_witness :
  ctx_inv (add_hit ctx_init (file_point 1 "X" "x")) /\
  ctx_inv (add_related (H := posix_flavour) xyz ctx_init "./Y") /\
  ctx_inv (add_target (H := posix_flavour) xyz ctx_init "./Y").
Proof.
  apply (ctx_inv_preserved (H := posix_flavour) xyz ctx_init
           (file_point 1 "X" "x") "./Y").
  apply ctx_inv_init.
Defined.

Lemma build_context_lookup_normalised_witness :
  ("Z", "z") ∈ omap hit_entry [file_point 2 "Y" "y"] \/
  (normalised (H := posix_flavour) "Z" /\ stored_text xyz "Z" = Some "z").
Proof.
  apply (build_context_lookup_normalised (H := posix_flavour) xyz
           [file_point 2 "Y" "y"] ["./Z"] "X" ("Z", "z")).
  vm_compute. right. left.
Defined.

Lemma build_context_target_last_witness :
  last (ctx xyz [file_point 2 "Y" "y"] ["Z"] "./X") = Some ("X", "x").
Proof.
  apply (build_context_target_last (H := posix_flavour) xyz
           [file_point 2 "Y" "y"] ["Z"] "./X" "x");
    [vm_compute; set_solver | vm_compute; set_solver | reflexivity].
Defined.

Lemma build_context_two_spellings_witness :
  let paths := (ctx [file_point 1 "a.ts" "text"] [file_point 7 "./a.ts" "text"]
                  [] "a.ts").*1 in
  "./a.ts" ∈ paths /\ posix_as_posix "./a.ts" ∈ paths /\
  ~ NoDup (@as_posix posix_flavour <$> paths).
Proof.
  apply (build_context_two_spellings (H := posix_flavour)
           [file_point 1 "a.ts" "text"] [file_point 7 "./a.ts" "text"] [] "a.ts"
           "./a.ts").
  - vm_compute. left.
  - by vm_compute.
  - vm_compute. left.
  - by eexists.
Defined.

Lemma build_context_empty_text_witness :
  ("b.ts", "") ∈ ctx [file_point 5 "b.ts" ""] [file_point 5 "b.ts" ""] [] "b.ts".
Proof.
  apply (build_context_empty_text (H := posix_flavour)
           [file_point 5 "b.ts" ""] [file_point 5 "b.ts" ""] [] "b.ts" "b.ts").
  split_and!; [vm_compute; apply not_elem_of_nil | vm_compute; left | reflexivity].
Defined.
