(* ===== verification/Prompt.v ===== *)
(** * Prompt: the text sent to the chat model

    Lines 100 to 105 of main.py render the question and the context as one
    string: [context_part] is the f-string of line 100, [build_prompt] the
    concatenation of lines 101 to 105.  Strings are UTF-8 bytes, so the
    lengths below count bytes.

    The chat model is the reader of the prompt.  [parse_prompt] is a
    reference reader, by lines: it is no code of the repository, it says
    what the prompt means to one who knows the format.

    The theorems give the length of the prompt, which shows that nothing is
    cut, show that the label separates a path from its text as long as the
    path has no line feed, that the reader gets the question and the context
    back when the question and the paths are one line each and no line of a
    text starts with the label, and that otherwise the prompt does not
    determine the context: a text that holds a label line renders, and
    reads, as two entries. *)

From stdpp Require Import base tactics list strings.
From S2P Require Import Prelude PyStr.

(** ** Operations *)

(** The label of an entry, up to the path. *)
Definition label : string := "--- файл: ".

(** [f"--- файл: {path}\n{text}"]: line 100. *)
Definition context_part (e : string * string) : string :=
  label +:+ e.1 +:+ nl +:+ e.2.

(** Lines 100 to 105. *)
Definition build_prompt (question : string) (context : list (string * string))
  : string :=
  let context_parts := context_part <$> context in
  (("Вопрос: " +:+ question +:+ nl +:+ nl +:+ "Контекст:" +:+ nl) +:+
   join nl context_parts) +:+
  (nl +:+ nl +:+ "Ответ:").

(** The string has no line feed. *)
Fixpoint one_line (s : string) : bool :=
  match s with
  | "" => true
  | String c s' => negb (bool_decide (String c "" = nl)) && one_line s'
  end.

(** ** Reading a prompt back *)

(** The lines of a body, from the last: the lines before the first label,
    and the entries, each a path with the lines of its text. *)
Fixpoint group_lines (ls : list string)
  : list string * list (string * list string) :=
  match ls with
  | [] => ([], [])
  | l :: ls' =>
      let '(pre, entries) := group_lines ls' in
      match strip_prefix label l with
      | Some path => ([], (path, pre) :: entries)
      | None => (l :: pre, entries)
      end
  end.

(** The entry of a path and the lines of its text. *)
Definition entry_text (e : string * list string) : string * string :=
  (e.1, join nl e.2).

(** The context of a body: no entry is one empty line, and otherwise the
    body starts with a label. *)
Definition parse_body (ls : list string) : option (list (string * string)) :=
  match group_lines ls with
  | ([l], []) => if String.eqb l "" then Some [] else None
  | ([], e :: entries) => Some (entry_text <$> e :: entries)
  | _ => None
  end.

(** The question and the context of a prompt: the first line holds the
    question, the third opens the context, the last two ask for the
    answer. *)
Definition parse_prompt (prompt : string)
  : option (string * list (string * string)) :=
  match lines prompt with
  | l1 :: l2 :: l3 :: rest =>
      match strip_prefix "Вопрос: " l1, reverse rest with
      | Some question, f2 :: f1 :: body =>
          if String.eqb l2 "" && String.eqb l3 "Контекст:" &&
             String.eqb f1 "" && String.eqb f2 "Ответ:"
          then context ← parse_body (reverse body); Some (question, context)
          else None
      | _, _ => None
      end
  | _ => None
  end.

(** The path of an entry and the lines of its text. *)
Definition entry_lines (e : string * string) : string * list string :=
  (e.1, lines e.2).

(** A text of which no line starts with the label. *)
Definition plain_text (text : string) : bool :=
  forallb (fun l => negb (startswith l label)) (lines text).

(** An entry that reads back: its path is one line and no line of its text
    starts with the label. *)
Definition plain_entry (e : string * string) : bool :=
  one_line e.1 && plain_text e.2.

(** ** Lemmas *)

Lemma length_context_part e :
  String.length (context_part e) = 15 + String.length e.1 + String.length e.2.
Proof. unfold context_part. rewrite !length_append. simpl. lia. Qed.

Lemma append_inj_l (p s1 s2 : string) : p +:+ s1 = p +:+ s2 -> s1 = s2.
Proof.
  induction p as [|c p IH]; [done |]. rewrite !append_cons. intros [= ?]. auto.
Qed.

(** A line feed ends the first line in one place only. *)
Lemma first_line_inj (a a' b b' : string) :
  one_line a = true -> one_line a' = true ->
  a +:+ nl +:+ b = a' +:+ nl +:+ b' -> a = a' /\ b = b'.
Proof.
  revert a'. induction a as [|c a IH]; intros [|c' a']; simpl.
  - intros _ _ Heq. by apply (append_inj_l nl) in Heq.
  - intros _ [Hc _]%andb_prop. rewrite append_nil_l, append_cons.
    intros [= <- _]. by rewrite bool_decide_true in Hc.
  - intros [Hc _]%andb_prop _. rewrite append_nil_l, append_cons.
    intros [= -> _]. by rewrite bool_decide_true in Hc.
  - intros [_ Ha]%andb_prop [_ Ha']%andb_prop. rewrite !append_cons.
    intros [= <- Heq]. destruct (IH a' Ha Ha' Heq) as [-> ->]. done.
Qed.

Lemma one_line_char_free s : one_line s = char_free lf s.
Proof.
  induction s as [|c s IH]; [done |]. simpl. rewrite IH. f_equal. f_equal.
  unfold nl. destruct (Ascii.eqb_spec c lf) as [-> |]; case_bool_decide;
    congruence.
Qed.

(** A line feed takes the lines before it and after it apart. *)
Lemma lines_app (x s : string) : lines (x +:+ nl +:+ s) = lines x ++ lines s.
Proof. apply split_on_app. Qed.

Lemma lines_join (l : list string) :
  l <> [] -> lines (join nl l) = l ≫= lines.
Proof. apply split_on_join_bind. Qed.

Lemma join_lines (s : string) : join nl (lines s) = s.
Proof. apply join_split_on. Qed.

(** The text of a line and what follows it. *)
Lemma lines_cons (x s : string) :
  one_line x = true -> lines (x +:+ nl +:+ s) = x :: lines s.
Proof.
  intros Hx. rewrite one_line_char_free in Hx. by apply split_on_append.
Qed.

Lemma lines_nl (s : string) : lines (nl +:+ s) = "" :: lines s.
Proof. done. Qed.

Lemma lines_context_part e :
  one_line e.1 = true ->
  lines (context_part e) = (label +:+ e.1) :: lines e.2.
Proof.
  intros He. unfold context_part. rewrite <- append_assoc.
  apply lines_cons. rewrite one_line_char_free in *.
  by rewrite char_free_append, He.
Qed.

(** The lines of the prompt: the question, the opening of the context, the
    lines of the entries, the request for the answer. *)
Lemma lines_build_prompt question context :
  one_line question = true ->
  lines (build_prompt question context) =
  ("Вопрос: " +:+ question) :: "" :: "Контекст:" ::
  lines (join nl (context_part <$> context)) ++ [""; "Ответ:"].
Proof.
  intros Hq. unfold build_prompt.
  rewrite !append_assoc, <- (append_assoc "Вопрос: ").
  rewrite lines_cons by (rewrite one_line_char_free in *;
                         by rewrite char_free_append, Hq).
  rewrite lines_nl, (lines_cons "Контекст:") by done.
  by rewrite lines_app.
Qed.

(** Lines without label stay before the entries that follow. *)
Lemma group_lines_app ls rest :
  forallb (fun l => negb (startswith l label)) ls = true ->
  group_lines (ls ++ rest) =
  (ls ++ (group_lines rest).1, (group_lines rest).2).
Proof.
  induction ls as [|l ls IH]; [simpl; by destruct (group_lines rest) |].
  cbn [forallb app group_lines]. intros [Hl Hls]%andb_prop. rewrite (IH Hls).
  apply negb_true_iff, strip_prefix_None in Hl. by rewrite Hl.
Qed.

(** The lines of the entries group into the entries. *)
Lemma group_lines_entries context :
  forallb plain_entry context = true ->
  group_lines ((context_part <$> context) ≫= lines) =
  ([], entry_lines <$> context).
Proof.
  induction context as [|e context IH]; [done |].
  intros [[He Ht]%andb_prop Hc]%andb_prop.
  rewrite fmap_cons, bind_cons, lines_context_part by done.
  cbn [app group_lines]. rewrite group_lines_app, (IH Hc) by done.
  rewrite strip_prefix_append. cbn [fst snd]. by rewrite app_nil_r.
Qed.

Lemma entry_text_lines (context : list (string * string)) :
  entry_text <$> (entry_lines <$> context) = context.
Proof.
  induction context as [|[path text] context IH]; [done |].
  rewrite !fmap_cons, IH. unfold entry_text, entry_lines. simpl.
  by rewrite join_lines.
Qed.

Lemma parse_body_entries context :
  forallb plain_entry context = true ->
  parse_body (lines (join nl (context_part <$> context))) = Some context.
Proof.
  intros Hc. destruct context as [|e context]; [done |].
  rewrite lines_join by done. unfold parse_body. rewrite (group_lines_entries _ Hc).
  rewrite fmap_cons. cbn iota beta. rewrite <- fmap_cons.
  by rewrite entry_text_lines.
Qed.

(** ** Theorems *)

(** The prompt holds the question and every entry of the context in full:
    its length in bytes is that of the fixed text (47 bytes), of the
    question, of the paths and texts with 15 bytes of label and line feed
    each, and of one line feed between two entries. *)
Theorem length_build_prompt question context :
  String.length (build_prompt question context) =
  47 + String.length question +
  sum_list ((fun e => 15 + String.length e.1 + String.length e.2) <$> context) +
  pred (length context).
Proof.
  unfold build_prompt. rewrite !length_append, length_join, length_fmap.
  rewrite <- list_fmap_compose.
  rewrite (list_fmap_ext (String.length ∘ context_part)
             (fun e => 15 + String.length e.1 + String.length e.2) context)
    by (intros; apply length_context_part).
  change (String.length nl) with 1. change (String.length "Вопрос: ") with 14.
  change (String.length "Контекст:") with 17.
  change (String.length "Ответ:") with 11. lia.
Qed.

(** The label separates the path of an entry from its text: two entries
    whose paths have no line feed and whose parts of the prompt are equal
    are the same entry. *)
Theorem context_part_inj e e' :
  one_line e.1 = true -> one_line e'.1 = true ->
  context_part e = context_part e' -> e = e'.
Proof.
  intros He He' Heq. unfold context_part in Heq.
  apply append_inj_l in Heq. apply first_line_inj in Heq as [? ?]; [| done ..].
  destruct e, e'. by simplify_eq/=.
Qed.

(** The prompt starts with the question and ends with the request for
    the answer; the entries of the context come between them. *)
Theorem build_prompt_question_first question context :
  startswith (build_prompt question context) ("Вопрос: " +:+ question +:+ nl) = true /\
  exists body, build_prompt question context = body +:+ nl +:+ nl +:+ "Ответ:".
Proof.
  split.
  - apply startswith_spec. unfold build_prompt.
    eexists. rewrite !append_assoc. done.
  - unfold build_prompt. by eexists.
Qed.

(** The prompt reads back: when the question and the paths are one line
    each and no line of a text starts with the label of an entry,
    [parse_prompt] returns the question and the context that
    [build_prompt] was given, so that the prompt determines them. *)
Theorem parse_build_prompt question context :
  one_line question = true -> forallb plain_entry context = true ->
  parse_prompt (build_prompt question context) = Some (question, context).
Proof.
  intros Hq Hc. unfold parse_prompt.
  rewrite lines_build_prompt by done.
  rewrite strip_prefix_append, reverse_app.
  change (reverse [""; "Ответ:"]) with ["Ответ:"; ""]. cbn [app].
  by rewrite reverse_involutive, parse_body_entries.
Qed.

(** Among prompts that read back, [build_prompt] is injective. *)
Corollary build_prompt_inj question context question' context' :
  one_line question = true -> forallb plain_entry context = true ->
  one_line question' = true -> forallb plain_entry context' = true ->
  build_prompt question context = build_prompt question' context' ->
  question = question' /\ context = context'.
Proof.
  intros Hq Hc Hq' Hc' Heq.
  pose proof (parse_build_prompt _ _ Hq Hc) as Hp. rewrite Heq in Hp.
  rewrite (parse_build_prompt _ _ Hq' Hc') in Hp. by simplify_eq.
Qed.

(** A text that holds the part of an entry after a line feed renders as
    its first lines followed by that entry. *)
Lemma build_prompt_label_in_text question path text e context :
  build_prompt question ((path, text +:+ nl +:+ context_part e) :: context) =
  build_prompt question ((path, text) :: e :: context).
Proof.
  unfold build_prompt. do 2 f_equal. cbn [fmap list_fmap].
  rewrite (join_cons _ (context_part (path, text))).
  generalize (context_part e) (context_part <$> context). intros x l.
  unfold context_part. cbn [fst snd].
  destruct l; rewrite ?join_cons; cbn [join]; by rewrite !append_assoc.
Qed.

(** C39: the prompt does not determine the context.  A text of the context
    that holds, after a line feed, a label and a path as [build_prompt]
    writes them renders as the same prompt as the context in which the
    rest of the text is an entry of its own, and this longer context is
    what the reader of the prompt gets: the chat model cannot tell a file
    that quotes a label from two files. *)
Theorem parse_prompt_label_in_text question path text e context :
  one_line question = true ->
  forallb plain_entry ((path, text) :: e :: context) = true ->
  build_prompt question ((path, text +:+ nl +:+ context_part e) :: context) =
  build_prompt question ((path, text) :: e :: context) /\
  parse_prompt
    (build_prompt question ((path, text +:+ nl +:+ context_part e) :: context)) =
  Some (question, (path, text) :: e :: context).
Proof.
  intros Hq Hc. split; [apply build_prompt_label_in_text |].
  rewrite build_prompt_label_in_text. by apply parse_build_prompt.
Qed.

(** A text with a line like a label, and the two entries it reads as. *)
Example build_prompt_not_injective :
  build_prompt "q" [("a.ts", "x" +:+ nl +:+ "--- файл: b.ts" +:+ nl +:+ "y")] =
  build_prompt "q" [("a.ts", "x"); ("b.ts", "y")].
Proof. done. Qed.

Lemma parse_prompt_label_in_text_witness :
  parse_prompt
    (build_prompt "q" [("a.ts", "x" +:+ nl +:+ context_part ("b.ts", "y"));
                       ("c.ts", "z")]) =
  Some ("q", [("a.ts", "x"); ("b.ts", "y"); ("c.ts", "z")]).
Proof.
  by apply (parse_prompt_label_in_text "q" "a.ts" "x" ("b.ts", "y") [("c.ts", "z")]).
Defined.

Lemma context_part_inj_witness : ("a.ts", "x") = ("a.ts", "x").
Proof. by apply (context_part_inj ("a.ts", "x") ("a.ts", "x")). Defined.

Lemma parse_build_prompt_witness :
  parse_prompt (build_prompt "q" [("a.ts", "x" +:+ nl +:+ "y"); ("b.ts", "")]) =
  Some ("q", [("a.ts", "x" +:+ nl +:+ "y"); ("b.ts", "")]).
Proof.
  by apply (parse_build_prompt "q" [("a.ts", "x" +:+ nl +:+ "y"); ("b.ts", "")]).
Defined.
