(* ===== verification/Services.v ===== *)
(** * Services: the calls out of the process

    The handlers of main.py call three services: the embedding endpoint and
    the chat endpoint over HTTP, and the vector store through its client;
    the indexer calls the embedding endpoint and the store.  This file
    holds what the callers do with a reply, on every reply there can be:
    [post_json] is [post], [raise_for_status] and [json] in that order;
    [getitem_str], [getitem_int], [py_get] and [py_truthy] are the
    subscripts, [dict.get] and the truth test on the values [json] can
    return.  A caller is a computation [io]: it returns an [outcome] and
    appends the calls it makes to a trace, so that what was called, and in
    which order, is part of what the theorems say; [io_try] is [try] with
    [except Exception], and [run_protocol] runs an automaton over a trace.
    [embed_payload] and [chat_payload] are the bodies of the two posts.

    [validate_str] is the check pydantic makes of a field of type [str]
    (pydantic 2: a value that is no string is refused). *)

From stdpp Require Import base tactics list strings.
From S2P Require Import Prelude PyStr Graph Store.

#[local] Open Scope py_scope.

(** ** Calls and traces *)

(** A call of a service, with what the caller sends: the two HTTP posts, and
    the methods of the client of the store. *)
Inductive call : Type :=
| CallEmbed (input : string)
| CallSearch (query_vector : pyval) (limit : nat)
| CallScroll (path : string) (limit : nat)
| CallChat (prompt : string)
| CallGetCollections
| CallRecreate
| CallUpsert (p : point) (vector : pyval).

(** A computation that makes calls: from the trace so far to the trace after
    it and its outcome. *)
Definition io (A : Type) : Type := list call -> list call * outcome A.

Definition io_ret {A} (a : A) : io A := fun t => (t, Ok a).

Definition io_lift {A} (r : outcome A) : io A := fun t => (t, r).

Definition io_bind {A B} (m : io A) (k : A -> io B) : io B :=
  fun t =>
    match m t with
    | (t', Ok a) => k a t'
    | (t', Raise e) => (t', Raise e)
    end.

(** A call that the service answers with [r]. *)
Definition io_call {A} (c : call) (r : outcome A) : io A :=
  fun t => (t ++ [c], r).

Notation "x <<- e ;; k" := (io_bind e (fun x => k))
  (at level 60, e at next level, right associativity) : py_scope.

(** [try: m except Exception as e: h(e)]: the calls made before the exception
    stay in the trace. *)
Definition io_try {A} (m : io A) (h : pyexn -> io A) : io A :=
  fun t =>
    match m t with
    | (t', Ok a) => (t', Ok a)
    | (t', Raise e) => h e t'
    end.

(** A loop whose body makes calls. *)
Fixpoint io_fold {A B} (f : A -> B -> io A) (a : A) (l : list B) : io A :=
  match l with
  | [] => io_ret a
  | x :: l' => a' <<- f a x ;; io_fold f a' l'
  end.

(** The calls a computation makes when it starts from the empty trace, and
    its outcome. *)
Definition calls_of {A} (m : io A) : list call := (m []).1.
Definition outcome_of {A} (m : io A) : outcome A := (m []).2.

(** ** Protocols *)

(** A protocol of calls is an automaton: [next] gives the state after a call
    that is allowed in a state.  [run_protocol] runs it over a trace, and
    returns the state that the trace leads to when every call of it was
    allowed. *)
Fixpoint run_protocol {S : Type} (next : S -> call -> option S) (p : S)
  (cs : list call) : option S :=
  match cs with
  | [] => Some p
  | c :: cs' => q ← next p c; run_protocol next q cs'
  end.

(** ** HTTP replies *)

(** What a [post] comes back with: no connection, or a response with a status
    that [raise_for_status] accepts or not and a body that parses as JSON or
    not. *)
Inductive http_reply : Type :=
| ConnectFailed
| Response (success : bool) (body : option pyval).

(** [resp = post(...); resp.raise_for_status(); resp.json()]. *)
Definition post_json (r : http_reply) : outcome pyval :=
  match r with
  | ConnectFailed => Raise ConnectError
  | Response success body =>
      if success then
        match body with
        | Some v => Ok v
        | None => Raise JSONDecodeError
        end
      else Raise HTTPStatusError
  end.

(** ** Requests *)

(** main.py lines 17 and 18; index_codebase.py line 14 has the same model of
    embeddings. *)
Definition EMBEDDING_MODEL : string := "nomic-embed-text".
Definition CHAT_MODEL : string := "gemma:3n".

(** The body of the post to the embedding endpoint: main.py line 56 and
    index_codebase.py lines 24 to 27. *)
Definition embed_payload (input : string) : pyval :=
  PDict [("input", PList [PStr input]); ("model", PStr EMBEDDING_MODEL)].

(** The body of the post to the chat endpoint: main.py lines 107 to 111. *)
Definition chat_payload (prompt : string) : pyval :=
  PDict [("model", PStr CHAT_MODEL);
         ("temperature", PFloat 4 (-1));
         ("messages", PList [PDict [("role", PStr "user");
                                    ("content", PStr prompt)]])].

(** What goes over HTTP for a call: the path of the URL below
    [LMSTUDIO_API] and the body; nothing for the methods of the client of
    the store.  main.py lines 57 to 59 and 113 to 115. *)
Definition request_of (c : call) : option (string * pyval) :=
  match c with
  | CallEmbed input => Some ("/v1/embeddings", embed_payload input)
  | CallChat prompt => Some ("/v1/chat/completions", chat_payload prompt)
  | _ => None
  end.

(** ** Reading JSON values *)

(** The value of a key of a dict. *)
Definition dict_get (d : list (string * pyval)) (key : string) : option pyval :=
  snd <$> last (filter (fun kv => kv.1 = key) d).

(** [l[i]] on a sequence: a negative index counts from the end. *)
Definition seq_index {A} (l : list A) (i : Z) : option A :=
  if decide (0 <= i)%Z then l !! Z.to_nat i
  else if decide (- Z.of_nat (length l) <= i)%Z
       then l !! Z.to_nat (Z.of_nat (length l) + i)
       else None.

(** [v[key]] with a string [key]. *)
Definition getitem_str (v : pyval) (key : string) : outcome pyval :=
  match v with
  | PDict d =>
      match dict_get d key with
      | Some x => Ok x
      | None => Raise KeyError
      end
  | _ => Raise TypeError
  end.

(** [v[i]] with an integer [i]. *)
Definition getitem_int (v : pyval) (i : Z) : outcome pyval :=
  match v with
  | PList l =>
      match seq_index l i with
      | Some x => Ok x
      | None => Raise IndexError
      end
  | PStr s =>
      match seq_index (utf8_chars s) i with
      | Some c => Ok (PStr c)
      | None => Raise IndexError
      end
  | PDict _ => Raise KeyError
  | _ => Raise TypeError
  end.

(** [v.get(key, default)]. *)
Definition py_get (v : pyval) (key : string) (dflt : pyval) : outcome pyval :=
  match v with
  | PDict d => Ok (default dflt (dict_get d key))
  | _ => Raise AttributeError
  end.

(** [bool(v)]. *)
Definition py_truthy (v : pyval) : bool :=
  match v with
  | PNone => false
  | PBool b => b
  | PInt n => negb (n =? 0)%Z
  | PFloat m _ => negb (m =? 0)%Z
  | PStr s => truthy s
  | PList l => negb (bool_decide (l = []))
  | PDict d => negb (bool_decide (d = []))
  end.

(** The validation of a field of type [str]. *)
Definition validate_str (v : pyval) : outcome string :=
  match v with
  | PStr s => Ok s
  | _ => Raise ValidationError
  end.

(** ** Lemmas on requests *)

(** A call of the trace stands for the request that was posted: two calls
    with the same request are the same call, so that the trace of a
    handler determines what it sent over HTTP. *)
Lemma request_of_inj c c' r :
  request_of c = Some r -> request_of c' = Some r -> c = c'.
Proof. destruct c, c'; simpl; intros ? ?; by simplify_eq. Qed.

(** ** Lemmas on [io] *)

Lemma run_protocol_app {S} (next : S -> call -> option S) p cs1 cs2 :
  run_protocol next p (cs1 ++ cs2) =
  run_protocol next p cs1 ≫= fun q => run_protocol next q cs2.
Proof.
  revert p. induction cs1 as [|c cs1 IH]; intros p; simpl; [done |].
  destruct (next p c); simpl; [apply IH | done].
Qed.

(** A trace that is allowed stays allowed when its end is cut off. *)
Lemma run_protocol_prefix {S} (next : S -> call -> option S) p cs1 cs2 :
  is_Some (run_protocol next p (cs1 ++ cs2)) -> is_Some (run_protocol next p cs1).
Proof.
  rewrite run_protocol_app. destruct (run_protocol next p cs1); [by eexists |].
  by intros [? ?].
Qed.

Lemma io_bind_ret_l {A B} (a : A) (k : A -> io B) t :
  io_bind (io_ret a) k t = k a t.
Proof. done. Qed.

Lemma io_bind_lift_Ok {A B} (a : A) (k : A -> io B) t :
  io_bind (io_lift (Ok a)) k t = k a t.
Proof. done. Qed.

Lemma io_bind_lift_Raise {A B} e (k : A -> io B) t :
  io_bind (io_lift (Raise e)) k t = (t, Raise e).
Proof. done. Qed.

Lemma io_bind_call_Ok {A B} c (a : A) (k : A -> io B) t :
  io_bind (io_call c (Ok a)) k t = k a (t ++ [c]).
Proof. done. Qed.

Lemma io_bind_call_Raise {A B} c e (k : A -> io B) t :
  io_bind (io_call c (Raise e)) k t = (t ++ [c], Raise e).
Proof. done. Qed.

Lemma io_bind_assoc {A B C} (m : io A) (k : A -> io B) (h : B -> io C) t :
  io_bind (io_bind m k) h t = io_bind m (fun a => io_bind (k a) h) t.
Proof. unfold io_bind. by destruct (m t) as [t' [a|e]]. Qed.

Lemma io_bind_ext {A B} (m : io A) (k1 k2 : A -> io B) t :
  (forall a t', k1 a t' = k2 a t') -> io_bind m k1 t = io_bind m k2 t.
Proof. intros Hk. unfold io_bind. by destruct (m t) as [t' [a|e]]. Qed.

Lemma io_bind_ret_r {A} (m : io A) t : io_bind m io_ret t = m t.
Proof. unfold io_bind, io_ret. by destruct (m t) as [t' [a|e]]. Qed.

Lemma io_fold_app {A B} (f : A -> B -> io A) a l1 l2 t :
  io_fold f a (l1 ++ l2) t =
  io_bind (io_fold f a l1) (fun a' => io_fold f a' l2) t.
Proof.
  revert a t. induction l1 as [|x l1 IH]; intros a t; simpl; [done |].
  rewrite io_bind_assoc. apply io_bind_ext. intros a' t'. apply IH.
Qed.

(** A computation only appends to the trace. *)
Definition extends {A} (m : io A) : Prop := forall t, t `prefix_of` (m t).1.

Lemma extends_ret {A} (a : A) : extends (io_ret a).
Proof. by intros t. Qed.

Lemma extends_lift {A} (r : outcome A) : extends (io_lift r).
Proof. by intros t. Qed.

Lemma extends_call {A} c (r : outcome A) : extends (io_call c r).
Proof. intros t. by apply prefix_app_r. Qed.

Lemma extends_bind {A B} (m : io A) (k : A -> io B) :
  extends m -> (forall a, extends (k a)) -> extends (io_bind m k).
Proof.
  intros Hm Hk t. unfold io_bind. specialize (Hm t).
  destruct (m t) as [t' [a|e]]; [| done]. by etrans; [| apply Hk].
Qed.

Lemma extends_fold {A B} (f : A -> B -> io A) a l :
  (forall a x, extends (f a x)) -> extends (io_fold f a l).
Proof.
  intros Hf. revert a. induction l as [|x l IH]; intros a; simpl.
  - apply extends_ret.
  - apply extends_bind; [apply Hf | done].
Qed.

(** ** Lemmas on replies and values *)

Lemma post_json_Ok r v :
  post_json r = Ok v <-> r = Response true (Some v).
Proof.
  destruct r as [|[] [b|]]; simpl; split; try done; by intros [= ->].
Qed.

Lemma seq_index_last {A} (l : list A) : seq_index l (-1) = last l.
Proof.
  unfold seq_index. rewrite decide_False by lia.
  destruct l as [|x l] using rev_ind; [done |].
  rewrite decide_True by (rewrite length_app; simpl; lia).
  rewrite last_snoc, length_app. simpl.
  replace (Z.to_nat (Z.of_nat (length l + 1) + -1)) with (length l) by lia.
  by rewrite lookup_app_r, Nat.sub_diag by lia.
Qed.

Lemma seq_index_0 {A} (l : list A) : seq_index l 0 = head l.
Proof. unfold seq_index. rewrite decide_True by lia. by destruct l. Qed.

#[export] Hint Resolve extends_ret extends_lift extends_call extends_bind
  extends_fold : py.
