(* ===== verification/Settings.v ===== *)
(** * Settings: the environment variables and the addresses of the services

    Both programs take the addresses of the store and of the language
    model server from the environment when the module is loaded: main.py
    lines 14 and 16, index_codebase.py lines 10 to 15.  The environment
    [os.environ] is a map from names to values, and an input.
    index_codebase.py calls [load_dotenv()] before it reads a variable and
    main.py does not; the variables of the file [.env] are an input too,
    [None] when there is no such file.  [load_dotenv] follows the
    documentation of python-dotenv: a variable that the environment has
    keeps its value.

    The variable [LMSTUDIO_API] is the base of the URL for main.py and the
    whole URL of the embedding endpoint for index_codebase.py.  The
    theorems say when the two programs, started in the same environment,
    address the same store and the same embedding endpoint, which is what
    the theorems of [System] on an indexed collection assume. *)

From stdpp Require Import base tactics list strings gmap.
From S2P Require Import Prelude PyStr.

(** ** Data *)

(** [os.environ]. *)
Abbreviation environ := (gmap string string).

(** ** Operations *)

(** [os.getenv(key, default)]. *)
Definition getenv (env : environ) (key dflt : string) : string :=
  default dflt (env !! key).

(** [load_dotenv()]: the variables of the file are set where the
    environment has none. *)
Definition load_dotenv (dotenv : option environ) (env : environ) : environ :=
  match dotenv with
  | Some file => env ∪ file
  | None => env
  end.

(** main.py line 14. *)
Definition QDRANT_HOST (env : environ) : string :=
  getenv env "QDRANT_HOST" "http://localhost:6333".

(** main.py line 16. *)
Definition LMSTUDIO_API (env : environ) : string :=
  getenv env "LMSTUDIO_API" "http://localhost:1234".

(** The URL that [rag_endpoint] posts the question to: main.py line 58. *)
Definition api_url (env : environ) : string :=
  LMSTUDIO_API env +:+ "/v1/embeddings".

(** index_codebase.py lines 10 to 12: the address of the store, after
    [load_dotenv()]. *)
Definition indexer_QDRANT_HOST (dotenv : option environ) (env : environ)
  : string :=
  QDRANT_HOST (load_dotenv dotenv env).

(** index_codebase.py line 15: the URL that [get_embedding] posts to. *)
Definition EMBEDDING_ENDPOINT (dotenv : option environ) (env : environ)
  : string :=
  getenv (load_dotenv dotenv env) "LMSTUDIO_API"
    "http://localhost:1234/v1/embeddings".

(** The two programs address the same store and the same embedding
    endpoint. *)
Definition same_services (dotenv : option environ) (env : environ) : Prop :=
  indexer_QDRANT_HOST dotenv env = QDRANT_HOST env /\
  EMBEDDING_ENDPOINT dotenv env = api_url env.

(** ** Lemmas *)

Lemma getenv_Some env key dflt v : env !! key = Some v -> getenv env key dflt = v.
Proof. unfold getenv. by intros ->. Qed.

Lemma getenv_None env key dflt : env !! key = None -> getenv env key dflt = dflt.
Proof. unfold getenv. by intros ->. Qed.

(** The environment goes before the file. *)
Lemma getenv_load_dotenv dotenv env key dflt :
  getenv (load_dotenv dotenv env) key dflt =
  match env !! key with
  | Some v => v
  | None => getenv (default ∅ dotenv) key dflt
  end.
Proof.
  unfold getenv. destruct dotenv as [file|]; simpl.
  - rewrite lookup_union. by destruct (env !! key), (file !! key).
  - rewrite lookup_empty. by destruct (env !! key).
Qed.

(** Without a file, [load_dotenv] changes nothing. *)
Lemma load_dotenv_None env : load_dotenv None env = env.
Proof. done. Qed.

(** [load_dotenv] keeps the environment. *)
Lemma load_dotenv_subseteq dotenv env : env ⊆ load_dotenv dotenv env.
Proof. destruct dotenv; [apply map_union_subseteq_l | done]. Qed.

(** A string is not itself with something behind it. *)
Lemma append_neq (s r : string) : r <> "" -> s <> s +:+ r.
Proof.
  intros Hr Heq. apply (f_equal String.length) in Heq.
  rewrite length_append in Heq. destruct r; [done | simpl in Heq; lia].
Qed.

(** ** Theorems *)

(** The programs address the same store exactly when the environment names
    it or the file leaves it where it is without the file. *)
Lemma qdrant_host_agree dotenv env :
  indexer_QDRANT_HOST dotenv env = QDRANT_HOST env <->
  is_Some (env !! "QDRANT_HOST") \/
  QDRANT_HOST (default ∅ dotenv) = QDRANT_HOST ∅.
Proof.
  unfold indexer_QDRANT_HOST, QDRANT_HOST. rewrite getenv_load_dotenv.
  destruct (env !! "QDRANT_HOST") as [v|] eqn:Hv.
  - rewrite (getenv_Some _ _ _ _ Hv). split; [by left; eexists | done].
  - rewrite (getenv_None env) by done. split; [by right |].
    by intros [[? [=]] | ?].
Qed.

(** The programs address the same embedding endpoint exactly when the
    environment does not set [LMSTUDIO_API] and the file leaves the
    endpoint where it is without the file. *)
Lemma embedding_endpoint_agree dotenv env :
  EMBEDDING_ENDPOINT dotenv env = api_url env <->
  env !! "LMSTUDIO_API" = None /\ EMBEDDING_ENDPOINT dotenv ∅ = api_url ∅.
Proof.
  unfold EMBEDDING_ENDPOINT, api_url, LMSTUDIO_API.
  rewrite !getenv_load_dotenv, lookup_empty.
  destruct (env !! "LMSTUDIO_API") as [v|] eqn:Hv.
  - rewrite (getenv_Some _ _ _ _ Hv). split; [| by intros [[=] _]].
    by intros []%append_neq.
  - rewrite (getenv_None env) by done. by split; [| intros [_ ?]].
Qed.

(** C32: the indexer and the API, started in the same environment, address
    the same store and the same embedding endpoint exactly when the
    environment does not set [LMSTUDIO_API], it sets [QDRANT_HOST] or the
    file [.env] leaves the store at its default, and the file leaves the
    embedding endpoint at its default. *)
Theorem settings_agree dotenv env :
  same_services dotenv env <->
  env !! "LMSTUDIO_API" = None /\
  EMBEDDING_ENDPOINT dotenv ∅ = api_url ∅ /\
  (is_Some (env !! "QDRANT_HOST") \/
   QDRANT_HOST (default ∅ dotenv) = QDRANT_HOST ∅).
Proof.
  unfold same_services.
  rewrite qdrant_host_agree, embedding_endpoint_agree. naive_solver.
Qed.

(** Programs that agree use the language model server at its default
    address: no value of [LMSTUDIO_API] suits both. *)
Corollary same_services_default dotenv env :
  same_services dotenv env ->
  LMSTUDIO_API env = "http://localhost:1234" /\
  EMBEDDING_ENDPOINT dotenv env = "http://localhost:1234/v1/embeddings".
Proof.
  intros [_ Hemb]. pose proof Hemb as [Hv _]%embedding_endpoint_agree.
  rewrite Hemb. unfold api_url, LMSTUDIO_API. by rewrite (getenv_None env).
Qed.

(** Without a file [.env] and without [LMSTUDIO_API] the programs agree. *)
Corollary same_services_plain env :
  env !! "LMSTUDIO_API" = None -> same_services None env.
Proof.
  intros Hv. split; [apply qdrant_host_agree; by right |].
  by apply embedding_endpoint_agree.
Qed.

(** ** Examples *)

(** A file [.env] that names the store moves the indexer and leaves the
    API where it is; a value of [LMSTUDIO_API] that suits the API does not
    suit the indexer. *)
Example settings_examples :
  indexer_QDRANT_HOST (Some {["QDRANT_HOST" := "http://qdrant:6333"]}) ∅ =
    "http://qdrant:6333" /\
  QDRANT_HOST ∅ = "http://localhost:6333" /\
  api_url {["LMSTUDIO_API" := "http://lm:1234"]} = "http://lm:1234/v1/embeddings" /\
  EMBEDDING_ENDPOINT None {["LMSTUDIO_API" := "http://lm:1234"]} = "http://lm:1234".
Proof. done. Qed.

Lemma same_services_default_witness :
  LMSTUDIO_API {["QDRANT_HOST" := "http://qdrant:6333"]} = "http://localhost:1234" /\
  EMBEDDING_ENDPOINT None {["QDRANT_HOST" := "http://qdrant:6333"]} =
  "http://localhost:1234/v1/embeddings".
Proof.
  apply (same_services_default None {["QDRANT_HOST" := "http://qdrant:6333"]}).
  by apply same_services_plain.
Defined.
