(* ===== verification/Typing.v ===== *)
(** * Typing: the annotations of the sources, as types of Python values

    The sources annotate what they read: the graph file is a
    [Dict[str, List[str]]] (graph_utils.py line 11), the patterns of the
    indexer a [list[str]] (index_codebase.py line 32), the request of
    [zed_proxy] a [dict] (main.py line 123).  Python does not check an
    annotation, so the operations are modelled on every value; this file
    has the annotations as types, [pytype], with the check [has_type], and
    shows what they buy: on a value of the annotated type the subscripts
    and [get] succeed with a value of the type of the field, and
    [load_dependency_graph] cannot raise. *)

From stdpp Require Import base tactics list strings gmap.
From S2P Require Import Prelude PyStr Paths Graph Store Services.

#[local] Open Scope py_scope.

(** ** Types *)

(** [str], [List[t]], [Dict[str, t]], and a dict with fields that must be
    there and fields that may be there, whatever else it holds. *)
#[warnings="-register-all"]
Inductive pytype : Type :=
| TStr
| TList (t : pytype)
| TDict (t : pytype)
| TStruct (required optional : list (string * pytype)).

(** The value has the type. *)
Fixpoint has_type (t : pytype) (v : pyval) {struct t} : bool :=
  match t with
  | TStr => is_str v
  | TList t' =>
      match v with
      | PList l => forallb (has_type t') l
      | _ => false
      end
  | TDict t' =>
      match v with
      | PDict d => forallb (fun kv => has_type t' kv.2) d
      | _ => false
      end
  | TStruct required optional =>
      match v with
      | PDict d =>
          forallb (fun kt : string * pytype =>
                     match dict_get d kt.1 with
                     | Some x => has_type kt.2 x
                     | None => false
                     end) required &&
          forallb (fun kt : string * pytype =>
                     match dict_get d kt.1 with
                     | Some x => has_type kt.2 x
                     | None => true
                     end) optional
      | _ => false
      end
  end.

(** The annotation of the graph file, graph_utils.py line 11. *)
Definition graph_type : pytype := TDict (TList TStr).

(** The configuration that [index_codebase] expects: index_codebase.py
    lines 37 and 38, with the annotation of line 32. *)
Definition config_type : pytype :=
  TStruct [("project_path", TStr)] [("ignore", TList TStr)].

(** ** Values of a type *)

Lemma has_type_str v : has_type TStr v = true <-> exists s, v = PStr s.
Proof. destruct v; simpl; split; try done; try (by intros [? ?]); by eexists. Qed.

Lemma forallb_is_str (l : list pyval) :
  forallb is_str l = true <-> exists k : list string, l = PStr <$> k.
Proof.
  induction l as [|v l IH]; simpl.
  - split; [by exists [] | done].
  - rewrite andb_true_iff, IH. split.
    + intros [Hv (k & ->)]. destruct v; try done. by exists (s :: k).
    + intros ([|s k] & Hk); [done |]. rewrite fmap_cons in Hk.
      injection Hk as -> ->. split; [done | by exists k].
Qed.

Lemma has_type_list_str v :
  has_type (TList TStr) v = true <-> exists k : list string, v = PList (PStr <$> k).
Proof.
  destruct v as [| | | | |l|]; simpl; try (split; [done | by intros [? ?]]).
  change (forallb (has_type TStr) l) with (forallb is_str l).
  rewrite forallb_is_str. split; intros (k & Hk); exists k; by simplify_eq.
Qed.

(** A value has the type of the graph file exactly when it is the encoding
    of an adjacency. *)
Lemma has_type_graph v :
  has_type graph_type v = true <-> exists adj, v = encode_adj adj.
Proof.
  unfold graph_type, encode_adj.
  destruct v as [| | | | | |d]; try (split; [done | by intros [? ?]]).
  change (has_type (TDict (TList TStr)) (PDict d))
    with (forallb (fun kv : string * pyval => has_type (TList TStr) kv.2) d).
  induction d as [|[k v] d IH].
  - split; [by exists [] | done].
  - cbn [forallb]. rewrite andb_true_iff, IH, has_type_list_str. simpl. split.
    + intros [(vs & ->) (adj & [= ->])]. by exists ((k, vs) :: adj).
    + intros ([|[k' vs] adj] & Hadj); [done |]. rewrite fmap_cons in Hadj.
      simpl in Hadj. injection Hadj as -> -> ->.
      split; [by exists vs | by exists adj].
Qed.

(** ** Reading a typed value *)

(** A field that must be there is there, with its type. *)
Lemma getitem_str_typed required optional v key t :
  has_type (TStruct required optional) v = true -> (key, t) ∈ required ->
  exists x, getitem_str v key = Ok x /\ has_type t x = true.
Proof.
  destruct v as [| | | | | |d]; try done.
  cbn [has_type]. intros [Hreq _]%andb_true_iff Hin.
  rewrite forallb_forall in Hreq.
  apply list_elem_of_In, Hreq in Hin. simpl in *.
  destruct (dict_get d key) as [x|]; [by exists x | done].
Qed.

(** A field that may be there has its type, or [get] returns the default. *)
Lemma py_get_typed required optional v key t dflt :
  has_type (TStruct required optional) v = true -> (key, t) ∈ optional ->
  has_type t dflt = true ->
  exists x, py_get v key dflt = Ok x /\ has_type t x = true.
Proof.
  destruct v as [| | | | | |d]; try done.
  cbn [has_type]. intros [_ Hopt]%andb_true_iff Hin Hd.
  rewrite forallb_forall in Hopt.
  apply list_elem_of_In, Hopt in Hin. simpl in *.
  destruct (dict_get d key) as [x|]; [by exists x | by exists dflt].
Qed.

(** A value of a list type is a list of values of the type. *)
Lemma has_type_list t v :
  has_type (TList t) v = true <->
  exists l, v = PList l /\ Forall (fun x => has_type t x = true) l.
Proof.
  destruct v as [| | | | |l|]; simpl; try (split; [done | by intros (? & ? & ?)]).
  rewrite forallb_forall. split.
  - intros Hl. exists l. split; [done |]. apply Forall_forall.
    intros x Hx%list_elem_of_In. by apply Hl.
  - intros (l' & [= <-] & Hl) x Hx%list_elem_of_In.
    rewrite Forall_forall in Hl. by apply Hl.
Qed.

(** A field of type [str] that must be there. *)
Lemma getitem_str_typed_str required optional v key :
  has_type (TStruct required optional) v = true -> (key, TStr) ∈ required ->
  exists s, getitem_str v key = Ok (PStr s).
Proof.
  intros Ht Hin.
  destruct (getitem_str_typed _ _ _ _ _ Ht Hin) as (x & -> & [s ->]%has_type_str).
  by exists s.
Qed.

(** What a typed configuration holds. *)
Lemma config_typed config :
  has_type config_type config = true ->
  exists (base : string) (ignore : list string),
    getitem_str config "project_path" = Ok (PStr base) /\
    py_get config "ignore" (PList []) = Ok (PList (PStr <$> ignore)).
Proof.
  intros Ht.
  destruct (getitem_str_typed _ _ _ "project_path" TStr Ht)
    as (x & Hx & [base ->]%has_type_str); [left |].
  destruct (py_get_typed _ _ _ "ignore" (TList TStr) (PList []) Ht)
    as (y & Hy & [ignore ->]%has_type_list_str); [left | done |].
  by exists base, ignore.
Qed.

(** ** Theorems *)

Section typed_graph.
Context `{PathFlavour}.

(** C15: a graph file of the annotated type [Dict[str, List[str]]] always
    loads: [load_dependency_graph] raises nothing on it, and the graph is
    the one that the adjacency of the file denotes, normalised. *)
Theorem load_dependency_graph_typed (raw_graph : pyval) :
  has_type graph_type raw_graph = true ->
  exists adj, raw_graph = encode_adj adj /\
    load_dependency_graph (FileJson raw_graph) = Ok (graph_of_adj adj) /\
    graph_normalised (graph_of_adj adj).
Proof.
  intros (adj & ->)%has_type_graph. exists adj.
  split; [done |]. split; [apply normalise_items_encode |].
  eapply normalise_items_normalised;
    [apply graph_normalised_empty | apply normalise_items_encode].
Qed.

End typed_graph.

Lemma load_dependency_graph_typed_witness :
  exists adj, encode_adj [("./a.ts", ["lib//b.ts"])] = encode_adj adj /\
    load_dependency_graph (H := posix_flavour)
      (FileJson (encode_adj [("./a.ts", ["lib//b.ts"])])) =
    Ok (graph_of_adj (H := posix_flavour) adj) /\
    graph_normalised (H := posix_flavour) (graph_of_adj (H := posix_flavour) adj).
Proof.
  apply (load_dependency_graph_typed (H := posix_flavour)
           (encode_adj [("./a.ts", ["lib//b.ts"])])).
  reflexivity.
Defined.
