(* ===== verification/Endpoint.v ===== *)
(** * Endpoint: the handlers [rag_endpoint] and [zed_proxy]

    [rag_endpoint] (main.py lines 51 to 119) as a whole: it embeds the
    question, searches the collection, builds the context from the hits, the
    related files and the target file, renders the prompt, asks the chat
    model and validates the answer.  Every call of a service is a [call] of
    the trace; every exception of a step ends the handler with that
    exception.  The services are the [world]: what each of them answers to
    each request.  [zed_proxy] (lines 122 to 144) reads its request, an
    untyped JSON object, and calls [rag_endpoint] with the default depth.

    The loops of steps 2 and 3 are those of [Assembler], here with the
    lookups as calls, each of which the store can refuse: [add_related_io]
    and [add_target_io].  The theorems relate them
    ([rag_endpoint_chat_complete]: when the chat model is asked, every
    lookup was answered and the prompt is that of the context that
    [build_context] builds), give the calls and the outcome case by case
    ([rag_endpoint_cases]), the protocol of the calls
    ([rag_endpoint_protocol]), what the reader of [Prompt] makes of the
    prompt ([rag_endpoint_prompt_reads_back]) and what happens when a step
    fails ([rag_endpoint_graph_error], [rag_endpoint_lookup_error]).  For
    [zed_proxy]: what it makes of a usual request ([zed_proxy_typical]),
    the type of the requests that it reads without an exception
    ([zed_request_typed]), and the exceptions of the requests that it does
    not read ([zed_proxy_malformed]). *)

From stdpp Require Import base tactics list strings gmap.
From S2P Require Import Prelude PyStr Paths Graph Traversal Levels Related.
From S2P Require Import Store Assembler.
From S2P Require Import Prompt Services Typing.

#[local] Open Scope py_scope.

(** ** Data *)

(** The request of [rag_endpoint]: lines 24 to 27. *)
Record RagRequest : Type := {
  question : string;
  target_file : string;
  depth : Z
}.

(** The services: what the embedding endpoint and the chat endpoint reply to
    a text, the points that the store ranks for a vector (or the exception
    of the client), the points of the collection in the order of [scroll],
    for every path the exception of the client when the lookup of that
    path fails, and the graph file. *)
Record world : Type := World {
  embeddings : string -> http_reply;
  ranking : pyval -> outcome (list point);
  collection : list point;
  scroll_error : string -> option pyexn;
  graph_json : graph_file;
  chat_completions : string -> http_reply
}.

(** Where a handler stands in the sequence of its calls. *)
Inductive phase : Set := Start | Embedded | Searched | Asked.

#[export] Instance phase_eq_dec : EqDecision phase.
Proof. solve_decision. Defined.

(** ** Operations *)

(** Step 1, lines 54 to 61. *)
Definition embed_question (w : world) (question : string) : io pyval :=
  body <<- io_call (CallEmbed question) (post_json (embeddings w question)) ;;
  io_lift (data <- getitem_str body "data" ;;
           first <- getitem_int data 0 ;;
           getitem_str first "embedding").

(** [client.search(..., limit=limit)], lines 64 to 68: the first [limit]
    points of the ranking. *)
Definition search (w : world) (query_vector : pyval) (limit : nat)
  : io (list point) :=
  io_call (CallSearch query_vector limit)
    (ranked <- ranking w query_vector ;; Ok (take limit ranked)).

(** [_load_file_payload(client, path)], lines 34 to 48, with its call. *)
Definition load_file_payload_io (w : world) (path : string)
  : io (option (string * string)) :=
  res <<- io_call (CallScroll path 1)
            match scroll_error w path with
            | Some e => Raise e
            | None => Ok (scroll (collection w) path 1)
            end ;;
  io_ret (payload_of_res path res).

(** Step 5, lines 107 to 117. *)
Definition chat_answer (w : world) (prompt : string) : io pyval :=
  body <<- io_call (CallChat prompt) (post_json (chat_completions w prompt)) ;;
  io_lift (choices <- getitem_str body "choices" ;;
           first <- getitem_int choices 0 ;;
           message <- getitem_str first "message" ;;
           getitem_str message "content").

Section endpoint.
Context `{PathFlavour}.

(** The body of [for rel_path in related_files], lines 83 to 89. *)
Definition add_related_io (w : world) (st : ctx_state) (rel_path : string)
  : io ctx_state :=
  let norm_path := as_posix rel_path in
  if decide (norm_path ∈ seen st) then io_ret st
  else
    payload <<- load_file_payload_io w norm_path ;;
    io_ret match payload with
           | Some payload =>
               {| seen := {[norm_path]} ∪ seen st;
                  context := context st ++ [payload] |}
           | None => st
           end.

(** Lines 92 to 97. *)
Definition add_target_io (w : world) (st : ctx_state) (target_file : string)
  : io ctx_state :=
  let target_norm := as_posix target_file in
  if decide (target_norm ∉ seen st) then
    payload <<- load_file_payload_io w target_norm ;;
    io_ret match payload with
           | Some payload =>
               {| seen := {[target_norm]} ∪ seen st;
                  context := context st ++ [payload] |}
           | None => st
           end
  else io_ret st.

(** [rag_endpoint(req)], lines 51 to 119; the result is the field [answer] of
    the response. *)
Definition rag_endpoint (w : world) (req : RagRequest) : io string :=
  question_emb <<- embed_question w (question req) ;;
  results <<- search w question_emb 10 ;;
  let st := foldl add_hit ctx_init results in
  related_files <<- io_lift (get_related_files (graph_json w)
                               (target_file req) (depth req)) ;;
  st <<- io_fold (add_related_io w) st related_files ;;
  st <<- add_target_io w st (target_file req) ;;
  let prompt := build_prompt (question req) (context st) in
  answer <<- chat_answer w prompt ;;
  io_lift (validate_str answer).

(** The response of [zed_proxy], lines 135 to 144. *)
Definition zed_response (answer : string) : pyval :=
  PDict [("choices",
          PList [PDict [("message",
                         PDict [("role", PStr "assistant");
                                ("content", PStr answer)])]])].

(** [zed_proxy(request)], lines 122 to 144. *)
Definition zed_proxy (w : world) (request : list (string * pyval)) : io pyval :=
  messages <<- io_lift (py_get (PDict request) "messages" (PList [])) ;;
  question <<- io_lift (if py_truthy messages
                        then (m <- getitem_int messages (-1) ;;
                              getitem_str m "content")
                        else Ok (PStr "")) ;;
  editor_context <<- io_lift (py_get (PDict request) "editor_context" (PDict [])) ;;
  target_file <<- io_lift (py_get editor_context "current_file" (PStr "index.ts")) ;;
  rag_req <<- io_lift (question <- validate_str question ;;
                       target_file <- validate_str target_file ;;
                       Ok {| question := question;
                             target_file := target_file;
                             depth := 1 |}) ;;
  answer <<- rag_endpoint w rag_req ;;
  io_ret (zed_response answer).

(** ** Specification *)

(** The context after the lookups of [paths], on a collection that answers. *)
Definition backfilled (store : list point) (st : ctx_state) (paths : list string)
  : ctx_state :=
  foldl (add_related store) st paths.

(** The paths that are looked up in the store while [paths] are worked
    through: those that are not in the context when their turn comes. *)
Fixpoint lookups (store : list point) (st : ctx_state) (paths : list string)
  : list string :=
  match paths with
  | [] => []
  | p :: paths' =>
      (if decide (as_posix p ∈ seen st) then [] else [as_posix p]) ++
      lookups store (add_related store st p) paths'
  end.

(** The lookups that are made of those that are due: all of them, or those
    up to the first that fails, with its exception. *)
Fixpoint lookups_made (w : world) (paths : list string)
  : list string * option pyexn :=
  match paths with
  | [] => ([], None)
  | p :: paths' =>
      match scroll_error w p with
      | Some e => ([p], Some e)
      | None => let made := lookups_made w paths' in (p :: made.1, made.2)
      end
  end.

(** The call is a lookup. *)
Definition is_scroll (c : call) : bool :=
  match c with
  | CallScroll _ _ => true
  | _ => false
  end.

(** The lookups as calls. *)
Definition scroll_calls (paths : list string) : list call :=
  (fun p => CallScroll p 1) <$> paths.

(** What the handler reads from the reply of the embedding endpoint, and
    from the reply of the chat endpoint. *)
Definition embedding_of (reply : http_reply) : outcome pyval :=
  body <- post_json reply ;;
  data <- getitem_str body "data" ;;
  first <- getitem_int data 0 ;;
  getitem_str first "embedding".

Definition answer_of (reply : http_reply) : outcome string :=
  body <- post_json reply ;;
  choices <- getitem_str body "choices" ;;
  first <- getitem_int choices 0 ;;
  message <- getitem_str first "message" ;;
  content <- getitem_str message "content" ;;
  validate_str content.

(** The last step: the chat call with the prompt of a context, after the
    calls [before]. *)
Definition ask (w : world) (question : string) (ctx : list (string * string))
  (before : list call) : list call * outcome string :=
  let prompt := build_prompt question ctx in
  (before ++ [CallChat prompt], answer_of (chat_completions w prompt)).

(** The calls and the outcome of [rag_endpoint], case by case. *)
Definition rag_spec (w : world) (req : RagRequest) : list call * outcome string :=
  let q := question req in
  match embedding_of (embeddings w q) with
  | Raise e => ([CallEmbed q], Raise e)
  | Ok emb =>
      let searched := [CallEmbed q; CallSearch emb 10] in
      match ranking w emb with
      | Raise e => (searched, Raise e)
      | Ok ranked =>
          let hits := take 10 ranked in
          match get_related_files (graph_json w) (target_file req) (depth req) with
          | Raise e => (searched, Raise e)
          | Ok related_files =>
              let paths := related_files ++ [target_file req] in
              let st := foldl add_hit ctx_init hits in
              let made := lookups_made w (lookups (collection w) st paths) in
              match made.2 with
              | None =>
                  ask w q (build_context (collection w) hits related_files
                             (target_file req))
                    (searched ++ scroll_calls made.1)
              | Some e => (searched ++ scroll_calls made.1, Raise e)
              end
          end
      end
  end.

(** A point whose path and text read back from a prompt. *)
Definition plain_point (p : point) : bool :=
  match payload p with
  | Some d =>
      from_option one_line true (get_path d) &&
      from_option plain_text true (get_text d)
  | None => true
  end.

(** A request and services whose question, paths and texts read back from
    a prompt: the question and the paths are one line each, and no line of
    a text starts with the label of an entry. *)
Definition plain_world (w : world) (req : RagRequest) : Prop :=
  one_line (question req) = true /\
  one_line (as_posix (target_file req)) = true /\
  (forall related_files,
     get_related_files (graph_json w) (target_file req) (depth req) =
       Ok related_files ->
     Forall (fun p => one_line (as_posix p) = true) related_files) /\
  Forall (fun p => plain_point p = true) (collection w) /\
  (forall emb ranked, ranking w emb = Ok ranked ->
     Forall (fun p => plain_point p = true) ranked).

(** What [zed_proxy] makes of its request: lines 128 to 133. *)
Definition zed_request (request : list (string * pyval)) : outcome RagRequest :=
  messages <- py_get (PDict request) "messages" (PList []) ;;
  question <- (if py_truthy messages
               then (m <- getitem_int messages (-1) ;; getitem_str m "content")
               else Ok (PStr "")) ;;
  editor_context <- py_get (PDict request) "editor_context" (PDict []) ;;
  target_file <- py_get editor_context "current_file" (PStr "index.ts") ;;
  question <- validate_str question ;;
  target_file <- validate_str target_file ;;
  Ok {| question := question; target_file := target_file; depth := 1 |}.

(** The request that [zed_proxy] reads without an exception: messages that
    have a string [content], and an editor context whose [current_file] is
    a string, each of them only when it is there (lines 124 to 131). *)
Definition zed_request_type : pytype :=
  TStruct [] [("messages", TList (TStruct [("content", TStr)] []));
              ("editor_context", TStruct [] [("current_file", TStr)])].

(** The messages of a request are absent or empty (any value that is not
    true), or they are a list whose last message has a content. *)
Definition question_read (request : list (string * pyval)) : Prop :=
  from_option (fun messages => py_truthy messages = false) True
    (dict_get request "messages") \/
  exists msgs d content,
    dict_get request "messages" = Some (PList (msgs ++ [PDict d])) /\
    dict_get d "content" = Some content.

(** What is wrong with a request that [zed_proxy] does not read, with the
    exception of the read that fails: the last message is an object without
    [content], the last message is no object, or, when the question was
    read, the editor context is no object. *)
Inductive malformed : list (string * pyval) -> pyexn -> Prop :=
| last_message_without_content request msgs d :
    dict_get request "messages" = Some (PList (msgs ++ [PDict d])) ->
    dict_get d "content" = None ->
    malformed request KeyError
| last_message_no_object request msgs m :
    dict_get request "messages" = Some (PList (msgs ++ [m])) ->
    (forall d, m <> PDict d) ->
    malformed request TypeError
| editor_context_no_object request editor_context :
    question_read request ->
    dict_get request "editor_context" = Some editor_context ->
    (forall d, editor_context <> PDict d) ->
    malformed request AttributeError.

(** The protocol of the handler: one embedding call, one search, any number
    of lookups, one chat call. *)
Definition next_phase (p : phase) (c : call) : option phase :=
  match p, c with
  | Start, CallEmbed _ => Some Embedded
  | Embedded, CallSearch _ _ => Some Searched
  | Searched, CallScroll _ _ => Some Searched
  | Searched, CallChat _ => Some Asked
  | _, _ => None
  end.

Abbreviation run_phase := (run_protocol next_phase).

(** ** Lemmas on the steps *)

Lemma embed_question_spec w q t :
  embed_question w q t = (t ++ [CallEmbed q], embedding_of (embeddings w q)).
Proof.
  unfold embed_question, embedding_of, io_bind, io_call, io_lift.
  by destruct (post_json (embeddings w q)).
Qed.

Lemma chat_answer_spec w prompt t :
  io_bind (chat_answer w prompt) (fun answer => io_lift (validate_str answer)) t =
  (t ++ [CallChat prompt], answer_of (chat_completions w prompt)).
Proof.
  unfold chat_answer, answer_of, io_bind, io_call, io_lift.
  destruct (post_json (chat_completions w prompt)) as [body|]; simpl; [| done].
  repeat (match goal with |- context [bind ?r _] => destruct r; simpl end;
          try done).
Qed.

Lemma load_file_payload_io_spec w path t :
  load_file_payload_io w path t =
  (t ++ [CallScroll path 1],
   match scroll_error w path with
   | Some e => Raise e
   | None => Ok (_load_file_payload (collection w) path)
   end).
Proof.
  unfold load_file_payload_io, io_bind, io_call.
  by destruct (scroll_error w path).
Qed.

Lemma add_target_related_io w st p t :
  add_target_io w st p t = add_related_io w st p t.
Proof. unfold add_target_io, add_related_io. simpl. by repeat case_decide. Qed.

(** A step of the loop: no lookup for a path that is in the context;
    otherwise one lookup, which fails or leads to the state of
    [add_related]. *)
Lemma add_related_io_spec w st p t :
  add_related_io w st p t =
  if decide (as_posix p ∈ seen st) then (t, Ok st)
  else (t ++ [CallScroll (as_posix p) 1],
        match scroll_error w (as_posix p) with
        | Some e => Raise e
        | None => Ok (add_related (collection w) st p)
        end).
Proof.
  unfold add_related_io, add_related. simpl. case_decide; [done |].
  unfold io_bind. rewrite load_file_payload_io_spec.
  destruct (scroll_error w (as_posix p)); [done |].
  by destruct (_load_file_payload (collection w) (as_posix p)).
Qed.

Lemma add_related_seen store st p :
  as_posix p ∈ seen st -> add_related store st p = st.
Proof. intros Hp. unfold add_related. simpl. by rewrite decide_True. Qed.

(** The loop makes the lookups that are due until one fails, and comes to
    the state of the loop of [Assembler] when none fails. *)
Lemma io_fold_related w st paths t :
  io_fold (add_related_io w) st paths t =
  let made := lookups_made w (lookups (collection w) st paths) in
  (t ++ scroll_calls made.1,
   match made.2 with
   | None => Ok (foldl (add_related (collection w)) st paths)
   | Some e => Raise e
   end).
Proof.
  revert st t. induction paths as [|p paths IH]; intros st t.
  { simpl. unfold io_ret. by rewrite app_nil_r. }
  cbn [io_fold lookups foldl]. unfold io_bind. rewrite add_related_io_spec.
  case_decide as Hseen.
  - by rewrite IH, (add_related_seen _ _ _ Hseen).
  - cbn [app lookups_made].
    destruct (scroll_error w (as_posix p)) as [e|]; [done |].
    rewrite IH. cbn [fst snd]. unfold scroll_calls.
    by rewrite fmap_cons, <- app_assoc.
Qed.

(** The lookups that are made are the first of those that are due. *)
Lemma lookups_made_prefix w paths : (lookups_made w paths).1 `prefix_of` paths.
Proof.
  induction paths as [|p paths IH]; [done |]. simpl.
  destruct (scroll_error w p); simpl; [| by apply prefix_cons].
  by apply (prefix_cons p [] paths), prefix_nil.
Qed.

(** No lookup fails exactly when all are made without an exception. *)
Lemma lookups_made_None w paths :
  (lookups_made w paths).2 = None <->
  Forall (fun p => scroll_error w p = None) paths.
Proof.
  induction paths as [|p paths IH]; [done |]. simpl. rewrite Forall_cons, <- IH.
  destruct (scroll_error w p); simpl; naive_solver.
Qed.

Lemma lookups_made_all w paths :
  Forall (fun p => scroll_error w p = None) paths ->
  lookups_made w paths = (paths, None).
Proof.
  induction 1 as [|p paths Hp _ IH]; [done |]. simpl. by rewrite Hp, IH.
Qed.

(** The first lookup that fails ends the lookups. *)
Lemma lookups_made_first w l1 p l2 e :
  Forall (fun p => scroll_error w p = None) l1 -> scroll_error w p = Some e ->
  lookups_made w (l1 ++ p :: l2) = (l1 ++ [p], Some e).
Proof.
  intros Hl1 Hp. induction Hl1 as [|x l1 Hx _ IH]; simpl; [by rewrite Hp |].
  by rewrite Hx, IH.
Qed.

(** Steps 2 and 3 are one loop over the related files and the target file. *)
Lemma context_io_fold w st related_files target t :
  io_bind (io_fold (add_related_io w) st related_files)
    (fun st' => add_target_io w st' target) t =
  io_fold (add_related_io w) st (related_files ++ [target]) t.
Proof.
  rewrite io_fold_app. apply io_bind_ext. intros st' t'. simpl.
  by rewrite io_bind_ret_r, add_target_related_io.
Qed.

Lemma run_phase_app p cs1 cs2 :
  run_phase p (cs1 ++ cs2) = run_phase p cs1 ≫= fun q => run_phase q cs2.
Proof. apply run_protocol_app. Qed.

Lemma run_phase_scroll paths : run_phase Searched (scroll_calls paths) = Some Searched.
Proof. induction paths as [|p paths IH]; [done | apply IH]. Qed.

(** The handler, from any trace: its calls and its outcome are those of
    [rag_spec]. *)
Lemma rag_endpoint_spec w req t :
  rag_endpoint w req t = (t ++ (rag_spec w req).1, (rag_spec w req).2).
Proof.
  unfold rag_endpoint, rag_spec. unfold io_bind at 1.
  rewrite embed_question_spec.
  destruct (embedding_of _) as [emb|e]; [| done].
  unfold io_bind at 1, search, io_call.
  destruct (ranking w emb) as [ranked|e]; simpl; [| by rewrite <- app_assoc].
  unfold io_bind at 1, io_lift.
  destruct (get_related_files _ _ _) as [related_files|e]; simpl;
    [| by rewrite <- app_assoc].
  rewrite <- io_bind_assoc. unfold io_bind at 1. rewrite context_io_fold.
  rewrite io_fold_related. cbn zeta.
  destruct (lookups_made w _) as [made [e|]]; cbn [fst snd].
  - by rewrite <- !app_assoc.
  - rewrite chat_answer_spec. unfold ask, build_context. simpl.
    by rewrite foldl_snoc, add_target_related, <- !app_assoc.
Qed.

Lemma zed_proxy_spec w request t :
  zed_proxy w request t =
  match zed_request request with
  | Raise e => (t, Raise e)
  | Ok rag_req =>
      (t ++ (rag_spec w rag_req).1,
       answer <- (rag_spec w rag_req).2 ;; Ok (zed_response answer))
  end.
Proof.
  unfold zed_proxy, zed_request, io_bind, io_lift. simpl.
  destruct (if py_truthy _ then _ else _) as [q|e]; simpl; [| done].
  destruct (py_get _ "current_file" _) as [f|e]; simpl; [| done].
  destruct (validate_str q) as [q'|e]; simpl; [| done].
  destruct (validate_str f) as [f'|e]; simpl; [| done].
  rewrite rag_endpoint_spec. by destruct (rag_spec w _).2.
Qed.

(** The last message of messages that are a list. *)
Lemma last_message msgs m :
  (if py_truthy (PList (msgs ++ [m]))
   then x <- getitem_int (PList (msgs ++ [m])) (-1) ;; getitem_str x "content"
   else Ok (PStr "")) = getitem_str m "content".
Proof.
  simpl. rewrite bool_decide_false by by destruct msgs.
  simpl. by rewrite seq_index_last, last_snoc.
Qed.

(** The question of a request whose messages can be read. *)
Lemma question_read_Ok request :
  question_read request ->
  exists q, (if py_truthy (default (PList []) (dict_get request "messages"))
             then x <- getitem_int (default (PList []) (dict_get request "messages"))
                         (-1) ;;
                  getitem_str x "content"
             else Ok (PStr "")) = Ok q.
Proof.
  intros [Hfalse | (msgs & d & content & -> & Hc)].
  - destruct (dict_get request "messages") as [messages|]; simpl in *;
      [rewrite Hfalse |]; by eexists.
  - cbn [from_option id]. rewrite last_message. simpl. rewrite Hc. by eexists.
Qed.

(** A request that is malformed is not read. *)
Lemma zed_request_malformed request e :
  malformed request e -> zed_request request = Raise e.
Proof.
  unfold zed_request, py_get.
  destruct 1 as [request msgs d Hm Hc | request msgs m Hm Hd
                | request ec Hq Hec Hd]; cbn [bind].
  - rewrite Hm. cbn [from_option id]. rewrite last_message. simpl. by rewrite Hc.
  - rewrite Hm. cbn [from_option id]. rewrite last_message.
    destruct m; try done. by destruct (Hd d).
  - destruct (question_read_Ok _ Hq) as (q & ->). cbn [bind].
    rewrite Hec. cbn [from_option id]. destruct ec; try done. by destruct (Hd d).
Qed.

Lemma lookups_length store st paths :
  length (lookups store st paths) <= length paths.
Proof.
  revert st. induction paths as [|p paths IH]; intros st; simpl; [done |].
  rewrite length_app. specialize (IH (add_related store st p)).
  case_decide; simpl; lia.
Qed.

Lemma lookups_sublist store st paths :
  lookups store st paths `sublist_of` as_posix <$> paths.
Proof.
  revert st. induction paths as [|p paths IH]; intros st; simpl; [done |].
  case_decide; simpl; [by apply sublist_cons | by apply sublist_skip].
Qed.

Lemma ask_phase w q ctx before :
  run_phase Start before = Some Searched ->
  run_phase Start (ask w q ctx before).1 = Some Asked.
Proof. intros Hb. unfold ask. simpl. by rewrite run_phase_app, Hb. Qed.

Lemma searched_scroll_phase emb q paths :
  run_phase Start ([CallEmbed q; CallSearch emb 10] ++ scroll_calls paths) =
  Some Searched.
Proof. rewrite run_phase_app. simpl. apply run_phase_scroll. Qed.

(** The calls of a run are accepted by the protocol, and a run that returns
    an answer has made its chat call. *)
Lemma rag_spec_phase w req :
  exists p, run_phase Start (rag_spec w req).1 = Some p /\
    (is_ok (rag_spec w req).2 = true -> p = Asked).
Proof.
  unfold rag_spec.
  destruct (embedding_of _) as [emb|e]; [| by exists Embedded].
  destruct (ranking w emb) as [ranked|e]; [| by exists Searched].
  destruct (get_related_files _ _ _) as [related_files|e]; [| by exists Searched].
  cbn zeta. destruct (lookups_made w _) as [made [e|]]; cbn [fst snd].
  - exists Searched. split; [apply searched_scroll_phase | done].
  - exists Asked. split; [| done]. apply ask_phase, searched_scroll_phase.
Qed.

(** A chat call in the calls of a run is its last call; it is made after
    the embedding, the search and the related files came without an
    exception and every lookup that was due was answered, and its prompt is
    that of the context of [build_context]. *)
Lemma rag_spec_chat w req prompt :
  CallChat prompt ∈ (rag_spec w req).1 ->
  last (rag_spec w req).1 = Some (CallChat prompt) /\
  exists emb ranked related_files,
    embedding_of (embeddings w (question req)) = Ok emb /\
    ranking w emb = Ok ranked /\
    get_related_files (graph_json w) (target_file req) (depth req) =
      Ok related_files /\
    Forall (fun p => scroll_error w p = None)
      (lookups (collection w) (foldl add_hit ctx_init (take 10 ranked))
         (related_files ++ [target_file req])) /\
    prompt = build_prompt (question req)
               (build_context (collection w) (take 10 ranked) related_files
                  (target_file req)).
Proof.
  unfold rag_spec.
  destruct (embedding_of _) as [emb|e]; [| set_solver].
  destruct (ranking w emb) as [ranked|e] eqn:Hr; [| set_solver].
  destruct (get_related_files _ _ _) as [related_files|e]; [| set_solver].
  cbn zeta. destruct (lookups_made w _) as [made [e|]] eqn:Hm; cbn [fst snd].
  { unfold scroll_calls. set_solver. }
  unfold ask. cbn [fst]. intros Hin.
  assert (prompt = build_prompt (question req)
            (build_context (collection w) (take 10 ranked) related_files
               (target_file req))) as ->
    by (unfold scroll_calls in Hin; set_solver).
  rewrite last_snoc. split; [done |]. exists emb, ranked, related_files.
  split_and!; try done. apply lookups_made_None. by rewrite Hm.
Qed.

(** The entry of a plain hit is plain. *)
Lemma hit_entry_plain hit e :
  plain_point hit = true -> hit_entry hit = Some e -> plain_entry e = true.
Proof.
  unfold plain_point, hit_entry, plain_entry.
  destruct (payload hit) as [[[path|] [text|]]|]; simpl; try done.
  intros Hp. destruct (truthy path && truthy text); [| done]. by intros [= <-].
Qed.

(** The text that a plain store has for a path is plain. *)
Lemma stored_text_plain store path text :
  Forall (fun p => plain_point p = true) store ->
  stored_text store path = Some text -> plain_text text = true.
Proof.
  intros Hstore. unfold stored_text.
  destruct (first_match store path) as [p|] eqn:Hp; [| done].
  apply first_match_Some in Hp as (l1 & l2 & -> & _).
  apply Forall_app in Hstore as [_ [Hplain _]%Forall_cons].
  unfold plain_point in Hplain. simpl.
  destruct (payload p) as [[? [t|]]|]; simpl in *; [| done ..].
  intros [= <-]. by apply andb_prop in Hplain as [_ ?].
Qed.

(** The context of plain hits, plain paths and a plain store is plain. *)
Lemma build_context_plain store results related_files target_file :
  Forall (fun p => plain_point p = true) results ->
  Forall (fun p => plain_point p = true) store ->
  Forall (fun p => one_line (as_posix p) = true) related_files ->
  one_line (as_posix target_file) = true ->
  forallb plain_entry (build_context store results related_files target_file) = true.
Proof.
  intros Hhits Hstore Hrel Htarget. apply forallb_forall.
  intros e He%list_elem_of_In%elem_of_context_offers. unfold offers in He.
  rewrite !elem_of_app, !elem_of_backfill in He.
  rewrite Forall_forall in Hhits. rewrite Forall_forall in Hrel.
  destruct He as [(hit & Hin & He)%list_elem_of_omap | He].
  { eapply hit_entry_plain; [by apply Hhits | done]. }
  unfold plain_entry. apply andb_true_intro.
  destruct He as [[Hp Ht] | [Hp Ht]]; (split; [| by eapply stored_text_plain]).
  - apply list_elem_of_fmap in Hp as (p & -> & Hp). by apply Hrel.
  - by apply list_elem_of_singleton in Hp as ->.
Qed.

Lemma calls_of_rag_endpoint w req :
  calls_of (rag_endpoint w req) = (rag_spec w req).1.
Proof. unfold calls_of. by rewrite rag_endpoint_spec. Qed.

Lemma outcome_of_rag_endpoint w req :
  outcome_of (rag_endpoint w req) = (rag_spec w req).2.
Proof. unfold outcome_of. by rewrite rag_endpoint_spec. Qed.

Lemma filter_scroll_calls paths :
  filter is_scroll (scroll_calls paths) = scroll_calls paths.
Proof.
  induction paths as [|p paths IH]; [done |]. unfold scroll_calls in *.
  rewrite fmap_cons, filter_cons_True by done. by rewrite IH.
Qed.

Lemma filter_nil_chat prompt : filter is_scroll [CallChat prompt] = [].
Proof. done. Qed.

(** The lookups among the calls of a run. *)
Lemma rag_spec_scrolls w req :
  exists paths, filter is_scroll (rag_spec w req).1 = scroll_calls paths /\
    NoDup paths /\
    forall related_files,
      get_related_files (graph_json w) (target_file req) (depth req) =
        Ok related_files ->
      length paths <= length related_files + 1.
Proof.
  assert (NoDup (@nil string)) as Hnil by constructor.
  unfold rag_spec.
  destruct (embedding_of _) as [emb|e]; [| exists []; split_and!; [done.. | simpl; lia]].
  destruct (ranking w emb) as [ranked|e]; [| exists []; split_and!; [done.. | simpl; lia]].
  destruct (get_related_files _ _ _) as [related_files|e] eqn:Hrel;
    [| exists []; split_and!; [done.. | simpl; lia]].
  cbn zeta.
  set (due := lookups (collection w) (foldl add_hit ctx_init (take 10 ranked))
                (related_files ++ [target_file req])).
  pose proof (lookups_made_prefix w due) as Hpre.
  exists (lookups_made w due).1. split_and!.
  - destruct (lookups_made w due) as [made [e|]]; unfold ask; cbn [fst snd];
      rewrite !filter_app;
      change (filter is_scroll [CallEmbed _; CallSearch _ _]) with (@nil call);
      rewrite ?(filter_nil_chat), app_nil_l, ?app_nil_r; apply filter_scroll_calls.
  - eapply sublist_NoDup; [| etrans; [by apply prefix_sublist | apply lookups_sublist]].
    by apply (related_files_then_target (graph_json w) _ (depth req)).
  - intros ? [= <-]. apply prefix_length in Hpre.
    pose proof (lookups_length (collection w)
                  (foldl add_hit ctx_init (take 10 ranked))
                  (related_files ++ [target_file req])) as Hl.
    rewrite length_app in Hl. simpl in Hl. fold due in Hl. lia.
Qed.

(** No path is looked up twice. *)
Lemma rag_spec_lookups_once w req : NoDup (filter is_scroll (rag_spec w req).1).
Proof.
  destruct (rag_spec_scrolls w req) as (paths & -> & Hnd & _).
  unfold scroll_calls. apply NoDup_fmap_2; [| done]. by intros p1 p2 [= ->].
Qed.

End endpoint.

Abbreviation run_phase := (run_protocol next_phase).

(** ** Theorems *)

Section endpoint_theorems.
Context `{PathFlavour}.

(** C5: the calls and the outcome of [rag_endpoint] are those of [rag_spec],
    on every reply of every service: the exception of the first step that
    fails and the calls made until then, or the validated answer of the chat
    model to the prompt of the context of [build_context], after the calls
    for the embedding, the search, the lookups and the chat. *)
Theorem rag_endpoint_cases w req : rag_endpoint w req [] = rag_spec w req.
Proof. rewrite rag_endpoint_spec. by destruct (rag_spec w req). Qed.

(** C10: the calls of [rag_endpoint] follow the protocol, whatever the
    services reply: first the embedding call, then the search, then lookups,
    then the chat call; when the handler returns an answer, the chat call
    has been made; and no path is looked up twice, so that each path of the
    context is read from the store once. *)
Theorem rag_endpoint_protocol w req :
  (exists p, run_phase Start (calls_of (rag_endpoint w req)) = Some p /\
     (is_ok (outcome_of (rag_endpoint w req)) = true -> p = Asked)) /\
  NoDup (filter is_scroll (calls_of (rag_endpoint w req))).
Proof.
  rewrite calls_of_rag_endpoint, outcome_of_rag_endpoint.
  split; [apply rag_spec_phase | apply rag_spec_lookups_once].
Qed.

(** C20: the chat model is only asked at the end, after every other step
    succeeded, and for the whole context: a chat call among the calls of
    [rag_endpoint] is the last call; the embedding, the search and the
    related files came without an exception and every lookup that was due
    was answered; and its prompt is that of the question and of the context
    that [build_context] builds from the first ten points of the ranking,
    the related files and the target file. *)
Theorem rag_endpoint_chat_complete w req prompt :
  CallChat prompt ∈ calls_of (rag_endpoint w req) ->
  last (calls_of (rag_endpoint w req)) = Some (CallChat prompt) /\
  exists emb ranked related_files,
    embedding_of (embeddings w (question req)) = Ok emb /\
    ranking w emb = Ok ranked /\
    get_related_files (graph_json w) (target_file req) (depth req) =
      Ok related_files /\
    Forall (fun p => scroll_error w p = None)
      (lookups (collection w) (foldl add_hit ctx_init (take 10 ranked))
         (related_files ++ [target_file req])) /\
    prompt = build_prompt (question req)
               (build_context (collection w) (take 10 ranked) related_files
                  (target_file req)).
Proof. rewrite calls_of_rag_endpoint. apply rag_spec_chat. Qed.

(** C22: what the chat model is given reads back: with a question, paths and
    texts that are plain, the prompt of the chat call of [rag_endpoint]
    is read by [parse_prompt] as the question of the request and the
    context that [build_context] built from the first ten points of the
    ranking, the related files and the target file. *)
Theorem rag_endpoint_prompt_reads_back w req prompt :
  plain_world w req ->
  CallChat prompt ∈ calls_of (rag_endpoint w req) ->
  exists emb ranked related_files,
    ranking w emb = Ok ranked /\
    get_related_files (graph_json w) (target_file req) (depth req) =
      Ok related_files /\
    parse_prompt prompt =
    Some (question req,
          build_context (collection w) (take 10 ranked) related_files
            (target_file req)).
Proof.
  intros (Hq & Ht & Hrel & Hstore & Hhits).
  rewrite calls_of_rag_endpoint.
  intros [_ (emb & ranked & related_files & _ & Hr & Hg & _ & ->)]%rag_spec_chat.
  exists emb, ranked, related_files. split_and!; [done | done |].
  apply parse_build_prompt; [done |].
  apply build_context_plain; [apply Forall_take |..]; eauto.
Qed.

(** When every service answers, [rag_endpoint] returns the answer of the
    chat model to the prompt of the context that [build_context] builds from
    the first ten points of the ranking, the related files and the target
    file; its calls are the embedding call, the search, one lookup for each
    path that is not in the context when its turn comes, and the chat
    call. *)
Theorem rag_endpoint_answers w req emb ranked related_files answer :
  embedding_of (embeddings w (question req)) = Ok emb ->
  ranking w emb = Ok ranked ->
  get_related_files (graph_json w) (target_file req) (depth req) = Ok related_files ->
  let store := collection w in
  let due := lookups store (foldl add_hit ctx_init (take 10 ranked))
               (related_files ++ [target_file req]) in
  Forall (fun p => scroll_error w p = None) due ->
  let ctx := build_context store (take 10 ranked) related_files (target_file req) in
  let prompt := build_prompt (question req) ctx in
  answer_of (chat_completions w prompt) = Ok answer ->
  rag_endpoint w req [] =
  ([CallEmbed (question req); CallSearch emb 10] ++ scroll_calls due ++
   [CallChat prompt],
   Ok answer).
Proof.
  intros Hemb Hrank Hrel store due Hdue ctx prompt Hanswer.
  rewrite rag_endpoint_spec. unfold rag_spec.
  rewrite Hemb, Hrank, Hrel. cbn zeta. fold store due.
  rewrite (lookups_made_all _ _ Hdue). unfold ask. fold ctx. fold prompt.
  cbn [fst snd]. by rewrite Hanswer, <- app_assoc.
Qed.

(** C27: a lookup that the store refuses ends the request there: the
    handler has made the lookups that were due before it, each answered,
    and that lookup, and ends with the exception of the client; the chat
    model is not asked.  A lookup is due only for a path that is not in the
    context, so a request whose context needs no lookup is answered
    whatever the store does. *)
Theorem rag_endpoint_lookup_error w req emb ranked related_files l1 p l2 e :
  embedding_of (embeddings w (question req)) = Ok emb ->
  ranking w emb = Ok ranked ->
  get_related_files (graph_json w) (target_file req) (depth req) = Ok related_files ->
  lookups (collection w) (foldl add_hit ctx_init (take 10 ranked))
    (related_files ++ [target_file req]) = l1 ++ p :: l2 ->
  Forall (fun p => scroll_error w p = None) l1 -> scroll_error w p = Some e ->
  rag_endpoint w req [] =
  ([CallEmbed (question req); CallSearch emb 10] ++ scroll_calls (l1 ++ [p]),
   Raise e).
Proof.
  intros Hemb Hrank Hrel Hdue Hl1 Hp.
  rewrite rag_endpoint_spec. unfold rag_spec.
  rewrite Hemb, Hrank, Hrel. cbn zeta.
  by rewrite Hdue, (lookups_made_first _ _ _ _ _ Hl1 Hp).
Qed.

(** C24: when the graph cannot be loaded and the depth is at least 1, the
    request fails with the exception of [get_related_files], after the
    embedding call and the search: no lookup and no chat call is made. *)
Theorem rag_endpoint_graph_error w req emb ranked e :
  embedding_of (embeddings w (question req)) = Ok emb ->
  ranking w emb = Ok ranked ->
  get_related_files (graph_json w) (target_file req) (depth req) = Raise e ->
  rag_endpoint w req [] =
  ([CallEmbed (question req); CallSearch emb 10], Raise e).
Proof.
  intros Hemb Hrank Hrel. rewrite rag_endpoint_spec. unfold rag_spec.
  by rewrite Hemb, Hrank, Hrel.
Qed.

(** [rag_endpoint] makes at most one lookup for each related file and one
    for the target file. *)
Theorem rag_endpoint_lookups_bound w req related_files :
  get_related_files (graph_json w) (target_file req) (depth req) = Ok related_files ->
  length (filter is_scroll (calls_of (rag_endpoint w req))) <=
  length related_files + 1.
Proof.
  intros Hrel. rewrite calls_of_rag_endpoint.
  destruct (rag_spec_scrolls w req) as (paths & -> & _ & Hlen).
  unfold scroll_calls. rewrite length_fmap. by apply Hlen.
Qed.

(** C29: [zed_proxy] answers a request whose last message has the text
    [q] and whose editor context names the file [f] as [rag_endpoint]
    answers the question [q] about [f] at depth 1, whatever depth the
    client may ask for, and wraps the answer as a chat completion. *)
Theorem zed_proxy_typical w request msgs m q ec f :
  dict_get request "messages" = Some (PList (msgs ++ [PDict m])) ->
  dict_get m "content" = Some (PStr q) ->
  dict_get request "editor_context" = Some (PDict ec) ->
  dict_get ec "current_file" = Some (PStr f) ->
  let rag_req := {| question := q; target_file := f; depth := 1 |} in
  zed_proxy w request [] =
  (calls_of (rag_endpoint w rag_req),
   answer <- outcome_of (rag_endpoint w rag_req) ;; Ok (zed_response answer)).
Proof.
  intros Hm Hc He Hf rag_req. rewrite zed_proxy_spec.
  unfold calls_of, outcome_of. rewrite rag_endpoint_spec.
  unfold zed_request. simpl. rewrite Hm, He. simpl.
  rewrite bool_decide_false by by destruct msgs.
  simpl. rewrite seq_index_last, last_snoc. simpl. rewrite Hc. simpl.
  by rewrite Hf.
Qed.

(** C38: [zed_proxy] reads its request without a schema, and a request that
    is malformed ends with the exception of the read that fails, before
    any service is called: [KeyError] when the last message is an object
    without [content], [TypeError] when the last message is no object, and
    [AttributeError] when the question was read and the editor context is
    no object. *)
Theorem zed_proxy_malformed w request e :
  malformed request e -> zed_proxy w request [] = ([], Raise e).
Proof. intros Hm. by rewrite zed_proxy_spec, (zed_request_malformed _ _ Hm). Qed.

End endpoint_theorems.

(** C30: [zed_proxy] has no schema, but its reads define one: a request of
    the type [zed_request_type] is turned into a request of [rag_endpoint]
    without an exception, whatever else it holds; the question is the
    content of the last message, or empty without messages, and the file
    is that of the editor context, or [index.ts]. *)
Theorem zed_request_typed request :
  has_type zed_request_type (PDict request) = true ->
  exists q f, zed_request request =
              Ok {| question := q; target_file := f; depth := 1 |}.
Proof.
  intros Ht. unfold zed_request.
  destruct (py_get_typed _ _ _ "messages" (TList (TStruct [("content", TStr)] []))
              (PList []) Ht)
    as (ms & -> & (l & -> & Hl)%has_type_list); [left | done |].
  destruct (py_get_typed _ _ _ "editor_context"
              (TStruct [] [("current_file", TStr)]) (PDict []) Ht)
    as (ec & Hec & Hect); [right; left | done |].
  destruct (py_get_typed _ _ _ "current_file" TStr (PStr "index.ts") Hect)
    as (cf & Hcf & [f ->]%has_type_str); [left | done |].
  cbn [bind py_truthy].
  assert (exists q, (if negb (bool_decide (l = []))
                     then m <- getitem_int (PList l) (-1) ;; getitem_str m "content"
                     else Ok (PStr "")) = Ok (PStr q)) as (q & ->).
  { case_bool_decide as Hnil; simpl; [by exists "" |].
    rewrite seq_index_last. destruct l as [|x l _] using rev_ind; [done |].
    rewrite last_snoc. simpl. apply Forall_app in Hl as [_ [Hx _]%Forall_cons].
    apply (getitem_str_typed_str _ _ _ "content" Hx). left. }
  cbn [bind]. rewrite Hec. cbn [bind]. rewrite Hcf. simpl. by exists q, f.
Qed.

(** ** Examples and witnesses (POSIX flavour) *)

(** The body of a reply of the embedding endpoint and of the chat endpoint. *)
Definition embedding_body (v : pyval) : pyval :=
  PDict [("data", PList [PDict [("embedding", v)]])].

Definition chat_body (content : pyval) : pyval :=
  PDict [("choices", PList [PDict [("message", PDict [("content", content)])]])].

(** A world in which every service answers: the collection [xyz], a ranking
    that puts [Y] first, the graph [X -> Y, Z]. *)
Definition demo : world :=
  {| embeddings := fun _ => Response true (Some (embedding_body (PList [PInt 1])));
     ranking := fun _ => Ok [file_point 2 "Y" "y"];
     collection := xyz;
     scroll_error := fun _ => None;
     graph_json := FileJson (encode_adj [("X", ["Y"; "Z"])]);
     chat_completions := fun _ => Response true (Some (chat_body (PStr "answer"))) |}.

(** The same world without a graph file, with a store whose lookups
    fail, and with a store that refuses the lookup of [X]. *)
Definition demo_no_graph : world :=
  {| embeddings := embeddings demo; ranking := ranking demo;
     collection := collection demo; scroll_error := scroll_error demo;
     graph_json := FileMissing;
     chat_completions := chat_completions demo |}.

Definition demo_no_scroll : world :=
  {| embeddings := embeddings demo; ranking := ranking demo;
     collection := collection demo;
     scroll_error := fun _ => Some UnexpectedResponse;
     graph_json := graph_json demo;
     chat_completions := chat_completions demo |}.

Definition demo_no_X : world :=
  {| embeddings := embeddings demo; ranking := ranking demo;
     collection := collection demo;
     scroll_error := fun p => if decide (p = "X")
                              then Some ResponseHandlingException else None;
     graph_json := graph_json demo;
     chat_completions := chat_completions demo |}.

(** A request in the world [demo]: the hit [Y] comes first, the related
    file [Z] and the target file [X] are looked up, [Y] is not looked up
    again, and the chat model is asked with the three files in that order.
    Without a graph file the request fails at depth 1 and is answered at
    depth 0. *)
Example rag_endpoint_demo :
  rag_endpoint (H := posix_flavour) demo
    {| question := "q"; target_file := "./X"; depth := 1 |} [] =
  ([CallEmbed "q"; CallSearch (PList [PInt 1]) 10; CallScroll "Z" 1;
    CallScroll "X" 1;
    CallChat (build_prompt "q" [("Y", "y"); ("Z", "z"); ("X", "x")])],
   Ok "answer") /\
  outcome_of (rag_endpoint (H := posix_flavour) demo_no_graph
                {| question := "q"; target_file := "X"; depth := 1 |}) =
  Raise FileNotFoundError /\
  outcome_of (rag_endpoint (H := posix_flavour) demo_no_graph
                {| question := "q"; target_file := "X"; depth := 0 |}) =
  Ok "answer".
Proof. by vm_compute. Qed.

(** When the lookups of the store fail, a request fails at its first
    lookup, and a request that needs no lookup, because the hits hold its
    target file and it has no related files, is answered. *)
Example rag_endpoint_store_down :
  rag_endpoint (H := posix_flavour) demo_no_scroll
    {| question := "q"; target_file := "X"; depth := 1 |} [] =
  ([CallEmbed "q"; CallSearch (PList [PInt 1]) 10; CallScroll "Z" 1],
   Raise UnexpectedResponse) /\
  rag_endpoint (H := posix_flavour) demo_no_scroll
    {| question := "q"; target_file := "Y"; depth := 1 |} [] =
  ([CallEmbed "q"; CallSearch (PList [PInt 1]) 10;
    CallChat (build_prompt "q" [("Y", "y")])],
   Ok "answer").
Proof. by vm_compute. Qed.

(** Requests that [zed_proxy] does not read, and a request without
    messages and without editor context, which asks the empty question
    about [index.ts]; a content that is no string is refused by the
    validation of [RagRequest]. *)
Example zed_proxy_examples :
  zed_request [] = Ok {| question := ""; target_file := "index.ts"; depth := 1 |} /\
  zed_proxy (H := posix_flavour) demo
    [("messages", PList [PDict [("role", PStr "user")]])] [] = ([], Raise KeyError) /\
  zed_proxy (H := posix_flavour) demo [("messages", PStr "hello")] [] =
    ([], Raise TypeError) /\
  zed_proxy (H := posix_flavour) demo [("editor_context", PList [])] [] =
    ([], Raise AttributeError) /\
  zed_proxy (H := posix_flavour) demo
    [("messages", PList [PDict [("content", PInt 1)]])] [] =
    ([], Raise ValidationError).
Proof. by vm_compute. Qed.

Lemma zed_proxy_malformed_witness :
  zed_proxy (H := posix_flavour) demo
    [("messages", PList [PDict [("role", PStr "system"); ("content", PStr "s")];
                         PDict [("role", PStr "user")]])] [] =
  ([], Raise KeyError).
Proof.
  apply (zed_proxy_malformed (H := posix_flavour) demo).
  by apply (last_message_without_content _
              [PDict [("role", PStr "system"); ("content", PStr "s")]]
              [("role", PStr "user")]).
Defined.

Lemma demo_plain :
  plain_world (H := posix_flavour) demo
    {| question := "q"; target_file := "X"; depth := 1 |}.
Proof.
  split_and!; [done | done | ..].
  - intros l [= <-]. by repeat constructor.
  - by repeat constructor.
  - intros emb ranked [= <-]. by repeat constructor.
Qed.

Lemma rag_endpoint_prompt_reads_back_witness :
  exists emb ranked related_files,
    ranking demo emb = Ok ranked /\
    get_related_files (H := posix_flavour) (graph_json demo) "X" 1 =
      Ok related_files /\
    parse_prompt (build_prompt "q" [("Y", "y"); ("Z", "z"); ("X", "x")]) =
    Some ("q", build_context (H := posix_flavour) xyz (take 10 ranked)
                 related_files "X").
Proof.
  apply (rag_endpoint_prompt_reads_back (H := posix_flavour) demo
           {| question := "q"; target_file := "X"; depth := 1 |}).
  - apply demo_plain.
  - vm_compute. set_solver.
Defined.

Lemma rag_endpoint_chat_complete_witness :
  last (calls_of (rag_endpoint (H := posix_flavour) demo
                    {| question := "q"; target_file := "X"; depth := 1 |})) =
    Some (CallChat (build_prompt "q" [("Y", "y"); ("Z", "z"); ("X", "x")])) /\
  exists emb ranked related_files,
    embedding_of (embeddings demo "q") = Ok emb /\
    ranking demo emb = Ok ranked /\
    get_related_files (H := posix_flavour) (graph_json demo) "X" 1 =
      Ok related_files /\
    Forall (fun p => scroll_error demo p = None)
      (lookups (H := posix_flavour) xyz (foldl add_hit ctx_init (take 10 ranked))
         (related_files ++ ["X"])) /\
    build_prompt "q" [("Y", "y"); ("Z", "z"); ("X", "x")] =
    build_prompt "q"
      (build_context (H := posix_flavour) xyz (take 10 ranked) related_files "X").
Proof.
  apply (rag_endpoint_chat_complete (H := posix_flavour) demo
           {| question := "q"; target_file := "X"; depth := 1 |}).
  vm_compute. set_solver.
Defined.

Lemma rag_endpoint_answers_witness :
  rag_endpoint (H := posix_flavour) demo
    {| question := "q"; target_file := "X"; depth := 1 |} [] =
  ([CallEmbed "q"; CallSearch (PList [PInt 1]) 10] ++
   scroll_calls (lookups (H := posix_flavour) xyz
                   (foldl add_hit ctx_init (take 10 [file_point 2 "Y" "y"]))
                   (["Y"; "Z"] ++ ["X"])) ++
   [CallChat (build_prompt "q"
                (build_context (H := posix_flavour) xyz
                   (take 10 [file_point 2 "Y" "y"]) ["Y"; "Z"] "X"))],
   Ok "answer").
Proof.
  apply (rag_endpoint_answers (H := posix_flavour) demo
           {| question := "q"; target_file := "X"; depth := 1 |}
           (PList [PInt 1]) [file_point 2 "Y" "y"] ["Y"; "Z"] "answer");
    try reflexivity.
  apply Forall_forall. by intros p _.
Defined.

(** The store answers the lookup of [Z] and refuses that of [X]: the
    request ends after both lookups, with the exception of the second. *)
Lemma rag_endpoint_lookup_error_witness :
  rag_endpoint (H := posix_flavour) demo_no_X
    {| question := "q"; target_file := "X"; depth := 1 |} [] =
  ([CallEmbed "q"; CallSearch (PList [PInt 1]) 10] ++ scroll_calls (["Z"] ++ ["X"]),
   Raise ResponseHandlingException).
Proof.
  apply (rag_endpoint_lookup_error (H := posix_flavour) demo_no_X
           {| question := "q"; target_file := "X"; depth := 1 |}
           (PList [PInt 1]) [file_point 2 "Y" "y"] ["Y"; "Z"] ["Z"] "X" []);
    try reflexivity.
  by repeat constructor.
Defined.

Lemma rag_endpoint_graph_error_witness :
  rag_endpoint (H := posix_flavour) demo_no_graph
    {| question := "q"; target_file := "X"; depth := 1 |} [] =
  ([CallEmbed "q"; CallSearch (PList [PInt 1]) 10], Raise FileNotFoundError).
Proof.
  by apply (rag_endpoint_graph_error (H := posix_flavour) demo_no_graph
              {| question := "q"; target_file := "X"; depth := 1 |}
              (PList [PInt 1]) [file_point 2 "Y" "y"]).
Defined.

Lemma rag_endpoint_lookups_bound_witness :
  length (filter is_scroll
            (calls_of (rag_endpoint (H := posix_flavour) demo
                         {| question := "q"; target_file := "X"; depth := 1 |}))) <=
  length ["Y"; "Z"] + 1.
Proof.
  by apply (rag_endpoint_lookups_bound (H := posix_flavour) demo
              {| question := "q"; target_file := "X"; depth := 1 |}).
Defined.

Lemma zed_request_typed_witness :
  exists q f,
    zed_request [("model", PStr "m"); ("stream", PBool true);
                 ("messages", PList [PDict [("role", PStr "system"); ("content", PStr "s")];
                                     PDict [("role", PStr "user"); ("content", PStr "q")]])] =
    Ok {| question := q; target_file := f; depth := 1 |}.
Proof. apply zed_request_typed. reflexivity. Defined.

Lemma zed_proxy_typical_witness :
  zed_proxy (H := posix_flavour) demo
    [("model", PStr "m");
     ("messages", PList [PDict [("content", PStr "old")];
                         PDict [("role", PStr "user"); ("content", PStr "q")]]);
     ("editor_context", PDict [("current_file", PStr "X")]);
     ("depth", PInt 3)] [] =
  (calls_of (rag_endpoint (H := posix_flavour) demo
               {| question := "q"; target_file := "X"; depth := 1 |}),
   answer <- outcome_of (rag_endpoint (H := posix_flavour) demo
                           {| question := "q"; target_file := "X"; depth := 1 |}) ;;
   Ok (zed_response answer)).
Proof.
  by apply (zed_proxy_typical (H := posix_flavour) demo _
              [PDict [("content", PStr "old")]]
              [("role", PStr "user"); ("content", PStr "q")] "q"
              [("current_file", PStr "X")] "X").
Defined.
