(* ===== verification/Indexer.v ===== *)
(** * Indexer: [index_codebase]

    index_codebase.py walks the project, and for every file that is not
    ignored reads it, asks the embedding endpoint for its vector and upserts
    a point with the payload [path] and [text] under the id
    [hash(file_path)]; a failure of one file is printed and the loop goes
    on (lines 49 to 64).  The files that [rglob] found, each with the
    outcome of reading it, the replies of the embedding endpoint and the
    hash function of the process are inputs.  The state is the collection
    and the list of the failures that were printed.

    Of the store the model has what the endpoint reads back: the points in
    the order of their ids, which is the order of [scroll], without their
    vectors.  The vector of a point is the value that the embedding
    endpoint returned, whatever it is; what the client and the store make
    of it is theirs to say, and an input: a [vector_verdict], which also
    says when the call does not reach the store.  [upsert] follows the
    store: an id is an unsigned integer, a vector has the size of the
    collection, and a point with the id of a stored point replaces it. *)

From stdpp Require Import base tactics list strings sorting.
From S2P Require Import Prelude PyStr Graph Store Services.

#[local] Open Scope py_scope.

(** ** Data *)

(** A file that [rglob] found: [str(file_path)] and the outcome of
    [read_text]. *)
Record source_file : Type := SourceFile {
  file_path : string;
  read_text : outcome string
}.

(** The state of the loop: the collection, and the failures printed. *)
Record index_state : Type := IndexState {
  points : list point;
  failed : list (string * pyexn)
}.

(** What becomes of a value as the vector of a point: the client refuses
    it ([PointStruct] does not validate), the call does not reach the
    store, the store refuses it (it has not the size of the collection, 768
    for the one that line 46 creates), or it is stored. *)
Inductive vector_verdict : Set :=
| VectorInvalid
| StoreUnreachable
| VectorMisfit
| VectorFits.

#[export] Instance vector_verdict_eq_dec : EqDecision vector_verdict.
Proof. solve_decision. Defined.

(** ** Operations *)

(** [should_ignore(path, ignore_patterns)], lines 32 and 33. *)
Definition should_ignore (path : string) (ignore_patterns : list string) : bool :=
  existsb (fun pattern => startswith path pattern) ignore_patterns.

(** [get_embedding(text)], lines 23 to 30, on the reply of the endpoint. *)
Definition get_embedding (reply : http_reply) : outcome pyval :=
  body <- post_json reply ;;
  data <- getitem_str body "data" ;;
  first <- getitem_int data 0 ;;
  getitem_str first "embedding".

(** The store puts a point in the place of its id. *)
Fixpoint upsert_point (store : list point) (p : point) : list point :=
  match store with
  | [] => [p]
  | q :: store' =>
      if decide (point_id q = point_id p) then p :: store'
      else if decide (point_id p < point_id q)%Z then p :: q :: store'
      else q :: upsert_point store' p
  end.

(** [models.PointStruct(id=id, vector=embedding, payload={"path": path,
    "text": text})], lines 57 to 61: the model validates the vector. *)
Definition point_struct (v : vector_verdict) (id : Z) (path text : string)
  : outcome point :=
  match v with
  | VectorInvalid => Raise ValidationError
  | StoreUnreachable | VectorMisfit | VectorFits =>
      Ok {| point_id := id;
            payload := Some {| get_path := Some path; get_text := Some text |} |}
  end.

(** [client.upsert(points=[p])], lines 55 to 62: the call reaches the
    store, an id is an unsigned integer, and the vector of the point fits
    the collection. *)
Definition upsert (store : list point) (p : point) (v : vector_verdict)
  : outcome (list point) :=
  match v with
  | StoreUnreachable => Raise ResponseHandlingException
  | VectorInvalid | VectorMisfit => Raise UnexpectedResponse
  | VectorFits =>
      if decide (point_id p < 0)%Z then Raise UnexpectedResponse
      else Ok (upsert_point store p)
  end.

Section indexer.
(** The hash function of the process, the replies of the embedding endpoint
    to a text, and what becomes of a value as a vector. *)
Context (hash : string -> Z) (embed : string -> http_reply).
Context (verdict : pyval -> vector_verdict).

(** The body of the [try], lines 53 to 62. *)
Definition index_file (store : list point) (f : source_file)
  : outcome (list point) :=
  content <- read_text f ;;
  embedding <- get_embedding (embed content) ;;
  p <- point_struct (verdict embedding) (hash (file_path f)) (file_path f) content ;;
  upsert store p (verdict embedding).

(** The body of [for file_path in files], lines 50 to 64. *)
Definition index_step (ignore : list string) (st : index_state) (f : source_file)
  : index_state :=
  if should_ignore (file_path f) ignore then st
  else
    match index_file (points st) f with
    | Ok store' => {| points := store'; failed := failed st |}
    | Raise e => {| points := points st; failed := failed st ++ [(file_path f, e)] |}
    end.

(** [index_codebase()], lines 43 to 64: [existing] is the collection when it
    exists; otherwise it is created empty. *)
Definition index_codebase (ignore : list string) (files : list source_file)
  (existing : option (list point)) : index_state :=
  let store := default [] existing in
  foldl (index_step ignore) {| points := store; failed := [] |} files.

(** ** Specification *)

(** The file is indexed by a run: it is not ignored, it can be read, the
    endpoint returns for it an embedding that fits the collection, and its
    hash is an id. *)
Definition indexable (ignore : list string) (f : source_file) : Prop :=
  should_ignore (file_path f) ignore = false /\
  is_ok (read_text f) = true /\
  (forall content, read_text f = Ok content ->
     exists embedding, get_embedding (embed content) = Ok embedding /\
       verdict embedding = VectorFits) /\
  (0 <= hash (file_path f))%Z.

(** The point that a run stores for a file with the text [content]. *)
Definition point_of (path content : string) : point :=
  {| point_id := hash path;
     payload := Some {| get_path := Some path; get_text := Some content |} |}.

(** What a file comes to, whatever the collection holds: the point to
    upsert, or the exception that is printed. *)
Definition file_outcome (f : source_file) : outcome point :=
  content <- read_text f ;;
  embedding <- get_embedding (embed content) ;;
  match verdict embedding with
  | VectorInvalid => Raise ValidationError
  | StoreUnreachable => Raise ResponseHandlingException
  | VectorMisfit => Raise UnexpectedResponse
  | VectorFits =>
      if decide (hash (file_path f) < 0)%Z then Raise UnexpectedResponse
      else Ok (point_of (file_path f) content)
  end.

(** The points that a run upserts, and the failures that it prints. *)
Definition upserted (ignore : list string) (files : list source_file) : list point :=
  omap (fun f => if should_ignore (file_path f) ignore then None
                 else res_to_option (file_outcome f)) files.

Definition printed (ignore : list string) (files : list source_file)
  : list (string * pyexn) :=
  omap (fun f => if should_ignore (file_path f) ignore then None
                 else match file_outcome f with
                      | Ok _ => None
                      | Raise e => Some (file_path f, e)
                      end) files.

(** The ids of the collection are in ascending order. *)
Definition store_sorted (store : list point) : Prop :=
  StronglySorted Z.lt (point_id <$> store).

(** ** Lemmas on [upsert_point] *)

Lemma upsert_point_ids store p x :
  x ∈ point_id <$> upsert_point store p ->
  x = point_id p \/ x ∈ point_id <$> store.
Proof.
  induction store as [|q store IH]; simpl.
  - intros ->%list_elem_of_singleton. by left.
  - repeat case_decide; simpl; rewrite ?elem_of_cons; tauto.
Qed.

Lemma upsert_point_sorted store p :
  store_sorted store -> store_sorted (upsert_point store p).
Proof.
  unfold store_sorted. induction store as [|q store IH]; simpl.
  - intros _. by repeat constructor.
  - intros [Hs Hq]%StronglySorted_inv. repeat case_decide; simpl.
    + constructor; [done |]. by replace (point_id p) with (point_id q).
    + constructor; [by constructor |]. constructor; [done |].
      eapply Forall_impl; [done |]. simpl. lia.
    + constructor; [by apply IH |]. apply Forall_forall.
      intros x [-> | Hx]%upsert_point_ids; [lia |].
      rewrite Forall_forall in Hq. by apply Hq.
Qed.

Lemma elem_of_upsert_point store p q :
  store_sorted store ->
  q ∈ upsert_point store p <->
  q = p \/ (q ∈ store /\ point_id q <> point_id p).
Proof.
  unfold store_sorted. induction store as [|q' store IH]; simpl.
  - intros _. rewrite list_elem_of_singleton. split; [by left |].
    intros [-> | [Hq%elem_of_nil _]]; done.
  - intros [Hs Hq]%StronglySorted_inv. rewrite Forall_forall in Hq.
    assert (forall x, x ∈ store -> (point_id q' < point_id x)%Z) as Hlt.
    { intros x Hx. apply Hq, list_elem_of_fmap. by exists x. }
    repeat case_decide; rewrite !elem_of_cons, ?(IH Hs);
      (split; [intros Hin | intros Hin]);
      destruct_or?; destruct_and?; destruct_or?; subst; auto; try done;
      try (right; split; [by auto | by (try apply Hlt in Hin); lia]).
Qed.

(** A collection with one point for a path returns it. *)
Lemma first_match_unique store path p :
  p ∈ store -> path_matches path p ->
  (forall q, q ∈ store -> path_matches path q -> q = p) ->
  first_match store path = Some p.
Proof.
  intros Hp Hm Hu. unfold first_match.
  destruct (filter (path_matches path) store) as [|q l] eqn:E.
  - assert (p ∈ filter (path_matches path) store) as Hin
      by by apply list_elem_of_filter.
    rewrite E in Hin. by apply elem_of_nil in Hin.
  - assert (q ∈ filter (path_matches path) store) as [Hq Hin]%list_elem_of_filter
      by (rewrite E; left).
    simpl. f_equal. by apply Hu.
Qed.

Lemma elem_of_foldl_upsert store ps q :
  store_sorted store -> q ∈ foldl upsert_point store ps -> q ∈ store \/ q ∈ ps.
Proof.
  revert store. induction ps as [|p ps IH]; intros store Hs; simpl; [by left |].
  intros [Hq | Hq]%IH; [| right; by right | by apply upsert_point_sorted].
  apply elem_of_upsert_point in Hq as [-> | [Hq _]]; [right; left | by left | done].
Qed.

Lemma foldl_upsert_sorted store ps :
  store_sorted store -> store_sorted (foldl upsert_point store ps).
Proof.
  revert store. induction ps as [|p ps IH]; intros store Hs; simpl; [done |].
  by apply IH, upsert_point_sorted.
Qed.

(** A point that is upserted stays, unless a later point has its id. *)
Lemma foldl_upsert_keeps store ps p :
  store_sorted store -> p ∈ ps ->
  (forall p', p' ∈ ps -> point_id p' = point_id p -> p' = p) ->
  p ∈ foldl upsert_point store ps.
Proof.
  intros Hs Hp Hu. induction ps as [|x ps IH] using rev_ind.
  { by apply elem_of_nil in Hp. }
  rewrite foldl_snoc.
  apply elem_of_upsert_point; [by apply foldl_upsert_sorted |].
  destruct (decide (x = p)) as [-> | Hne]; [by left | right].
  apply elem_of_app in Hp as [Hp | ->%list_elem_of_singleton]; [| done].
  split.
  - apply IH; [done |]. intros p' Hp'. apply Hu, elem_of_app. by left.
  - intros Heq. apply Hne, Hu; [| done]. apply elem_of_app. right. left.
Qed.

(** A point stays as it is while no point with its id is upserted. *)
Lemma foldl_upsert_other store ps p :
  store_sorted store -> p ∈ store ->
  (forall q, q ∈ ps -> point_id q <> point_id p) ->
  p ∈ foldl upsert_point store ps.
Proof.
  revert store. induction ps as [|x ps IH]; intros store Hs Hp Hne; [done |].
  simpl. apply IH; [by apply upsert_point_sorted | | intros q Hq; apply Hne; by right].
  apply elem_of_upsert_point; [done |]. right. split; [done |].
  intros Heq. apply (Hne x); [left | done].
Qed.

(** In a sorted collection a point is known by its id. *)
Lemma store_sorted_id_inj store p q :
  store_sorted store -> p ∈ store -> q ∈ store -> point_id p = point_id q -> p = q.
Proof.
  unfold store_sorted. induction store as [|x store IH]; [by intros _ ?%elem_of_nil |].
  rewrite fmap_cons. intros [Hs Hx]%StronglySorted_inv. rewrite Forall_forall in Hx.
  assert (forall y, y ∈ store -> (point_id x < point_id y)%Z) as Hlt
    by (intros y Hy; by apply Hx, list_elem_of_fmap_2).
  intros [-> | Hp]%elem_of_cons [-> | Hq]%elem_of_cons Heq; [done | | | by apply IH].
  - apply Hlt in Hq. lia.
  - apply Hlt in Hp. lia.
Qed.

(** An upsert leaves no id out. *)
Lemma upsert_point_keeps_ids store p x :
  x ∈ point_id <$> store -> x ∈ point_id <$> upsert_point store p.
Proof.
  induction store as [|q store IH]; simpl; [by intros ?%elem_of_nil |].
  rewrite elem_of_cons. intros Hx.
  repeat case_decide; csimpl; rewrite ?elem_of_cons; naive_solver.
Qed.

Lemma foldl_upsert_keeps_ids store ps x :
  x ∈ point_id <$> store -> x ∈ point_id <$> foldl upsert_point store ps.
Proof.
  revert store. induction ps as [|p ps IH]; intros store Hx; simpl; [done |].
  by apply IH, upsert_point_keeps_ids.
Qed.

Lemma index_file_outcome store f :
  index_file store f =
  (p <- file_outcome f ;; Ok (upsert_point store p)).
Proof.
  unfold index_file, file_outcome, point_struct, upsert, point_of.
  destruct (read_text f) as [content|]; simpl; [| done].
  destruct (get_embedding (embed content)) as [embedding|]; simpl; [| done].
  destruct (verdict embedding); simpl; try done; by case_decide.
Qed.

Lemma index_run_spec ignore files st :
  foldl (index_step ignore) st files =
  {| points := foldl upsert_point (points st) (upserted ignore files);
     failed := failed st ++ printed ignore files |}.
Proof.
  revert st. induction files as [|f files IH]; intros [store log]; simpl.
  - by rewrite app_nil_r.
  - rewrite IH. unfold index_step, upserted, printed. simpl.
    rewrite index_file_outcome.
    destruct (should_ignore (file_path f) ignore); simpl; [done |].
    destruct (file_outcome f); simpl; [done |]. by rewrite <- app_assoc.
Qed.

Lemma file_outcome_indexable ignore f content :
  indexable ignore f -> read_text f = Ok content ->
  file_outcome f = Ok (point_of (file_path f) content).
Proof.
  intros (_ & _ & Hemb & Hid) Hread. unfold file_outcome. rewrite Hread. simpl.
  destruct (Hemb content Hread) as (embedding & -> & Hv). simpl. rewrite Hv.
  by rewrite decide_False by lia.
Qed.

Lemma elem_of_upserted ignore files p :
  p ∈ upserted ignore files ->
  exists f content, f ∈ files /\ read_text f = Ok content /\
    p = point_of (file_path f) content.
Proof.
  unfold upserted. intros (f & Hf & Hp)%list_elem_of_omap.
  destruct (should_ignore _ _); [done |]. unfold file_outcome in Hp.
  destruct (read_text f) as [content|] eqn:Hr; [| done]. simpl in Hp.
  destruct (get_embedding _) as [embedding|]; [| done]. simpl in Hp.
  destruct (verdict embedding); try done.
  case_decide; [done |]. simpl in Hp. exists f, content. by simplify_eq.
Qed.

(** After a run on a new collection, over files with distinct paths whose
    hashes do not collide, the collection has the point of a file that is
    indexed, and no other point with its path. *)
Lemma indexed_point ignore files f content :
  NoDup (file_path <$> files) ->
  (forall f1 f2, f1 ∈ files -> f2 ∈ files ->
     hash (file_path f1) = hash (file_path f2) -> file_path f1 = file_path f2) ->
  f ∈ files -> indexable ignore f -> read_text f = Ok content ->
  let store := points (index_codebase ignore files None) in
  point_of (file_path f) content ∈ store /\
  forall q, q ∈ store -> path_matches (file_path f) q ->
    q = point_of (file_path f) content.
Proof.
  intros Hnd Hinj Hf Hgood Hread. unfold index_codebase.
  rewrite index_run_spec. simpl.
  assert (forall f', f' ∈ files -> file_path f' = file_path f -> f' = f) as Hpath.
  { intros f' Hf' Heq. by apply (NoDup_fmap_inj file_path files). }
  assert (store_sorted []) as Hnil by constructor. split.
  - apply foldl_upsert_keeps; [done | |].
    + apply list_elem_of_omap. exists f. split; [done |].
      pose proof Hgood as [Hi _]. rewrite Hi.
      by rewrite (file_outcome_indexable ignore f content).
    + intros p' (f' & c' & Hf' & Hr' & ->)%elem_of_upserted Hid. simpl in Hid.
      assert (f' = f) as -> by (apply Hpath; [done |]; by apply Hinj).
      rewrite Hread in Hr'. by injection Hr' as <-.
  - intros q [Hq%elem_of_nil | Hq]%elem_of_foldl_upsert Hm; [done | | done].
    apply elem_of_upserted in Hq as (f' & c' & Hf' & Hr' & ->).
    unfold path_matches in Hm. simpl in Hm. injection Hm as Hm.
    assert (f' = f) as -> by by apply Hpath.
    rewrite Hread in Hr'. by injection Hr' as <-.
Qed.

End indexer.

(** ** Theorems *)

Section indexer_theorems.
Context (hash : string -> Z) (embed : string -> http_reply).
Context (verdict : pyval -> vector_verdict).

(** A failure does not end the run and does not change the collection:
    after [index_codebase] the collection is the old one with the points of
    the files that are not ignored and come to a point upserted in their
    order, and the failures printed are those of the other files that are
    not ignored, in their order. *)
Theorem index_codebase_spec ignore files existing :
  index_codebase hash embed verdict ignore files existing =
  {| points := foldl upsert_point (default [] existing)
                 (upserted hash embed verdict ignore files);
     failed := printed hash embed verdict ignore files |}.
Proof. unfold index_codebase. by rewrite index_run_spec. Qed.

(** The collection stays in the order of its ids. *)
Theorem index_codebase_sorted ignore files existing :
  store_sorted (default [] existing) ->
  store_sorted (points (index_codebase hash embed verdict ignore files existing)).
Proof.
  intros Hs. unfold index_codebase. rewrite index_run_spec. simpl.
  by apply foldl_upsert_sorted.
Qed.

(** A run removes nothing: every id of the collection before the run is an
    id of the collection after it, so the point of a file that is no longer
    in the tree stays, with the text that was indexed then. *)
Theorem index_codebase_keeps_ids ignore files existing x :
  x ∈ point_id <$> default [] existing ->
  x ∈ point_id <$> points (index_codebase hash embed verdict ignore files existing).
Proof.
  intros Hx. unfold index_codebase. rewrite index_run_spec. simpl.
  by apply foldl_upsert_keeps_ids.
Qed.

(** C31: a run knows points by their ids, the hashes of paths, and not by
    their paths.  A point of an earlier run stays in the collection as it
    is, whatever its path, unless a file of this run has its id as hash: a
    file that is indexed again under another hash, as the string hashing of
    another process gives it, leaves its old point with the old text beside
    the new one.  And no two points of the collection share an id: of two
    files whose hashes collide, at most one has its point after the run. *)
Theorem index_codebase_by_id ignore files existing :
  store_sorted (default [] existing) ->
  let store := points (index_codebase hash embed verdict ignore files existing) in
  (forall p, p ∈ default [] existing ->
     (forall f, f ∈ files -> hash (file_path f) <> point_id p) -> p ∈ store) /\
  (forall p q, p ∈ store -> q ∈ store -> point_id p = point_id q -> p = q).
Proof.
  intros Hs store. split.
  - intros p Hp Hne. unfold store, index_codebase. rewrite index_run_spec. simpl.
    apply foldl_upsert_other; [done | done |].
    intros q (f & content & Hf & _ & ->)%elem_of_upserted. by apply Hne.
  - intros p q. apply store_sorted_id_inj. unfold store, index_codebase.
    rewrite index_run_spec. by apply foldl_upsert_sorted.
Qed.

(** C12: what is indexed can be looked up: after a run on a new collection,
    over files with distinct paths whose hashes do not collide, the lookup
    of [_load_file_payload] by the path of a file that was indexed returns
    its path and its text. *)
Theorem index_codebase_lookup ignore files f content :
  NoDup (file_path <$> files) ->
  (forall f1 f2, f1 ∈ files -> f2 ∈ files ->
     hash (file_path f1) = hash (file_path f2) -> file_path f1 = file_path f2) ->
  f ∈ files -> indexable hash embed verdict ignore f -> read_text f = Ok content ->
  _load_file_payload (points (index_codebase hash embed verdict ignore files None))
    (file_path f) = Some (file_path f, content).
Proof.
  intros Hnd Hinj Hf Hgood Hread. rewrite load_file_payload_stored.
  destruct (indexed_point hash embed verdict ignore files f content) as [Hin Hu];
    try done.
  unfold stored_text. by rewrite (first_match_unique _ _ _ Hin).
Qed.

End indexer_theorems.

(** ** Examples and witnesses *)

(** An embedding endpoint that answers every text. *)
Definition embed_ok (text : string) : http_reply :=
  Response true (Some (PDict [("data", PList [PDict [("embedding", PList [])]])])).

(** A store and a client that take every value as a vector. *)
Definition fits (embedding : pyval) : vector_verdict := VectorFits.

(** The hash functions of two processes. *)
Definition hash1 (path : string) : Z := Z.of_nat (String.length path).
Definition hash2 (path : string) : Z := (100 - Z.of_nat (String.length path))%Z.
Definition hash_neg (path : string) : Z := (4 - Z.of_nat (String.length path))%Z.

(** [hash(file_path)] is no identity of a file.  An id that changes
    from one process to the next leaves the old point in the collection:
    after a file was indexed by one process and, with a new text, by
    another, the collection has two points for its path, and the lookup
    returns the old text.  And two paths with the same hash share a point:
    the file that is indexed later replaces the other one, and nothing is
    printed. *)
Example hash_ids_not_stable :
  let first := index_codebase hash1 embed_ok fits []
                 [{| file_path := "a.ts"; read_text := Ok "old" |}] None in
  let second := index_codebase hash2 embed_ok fits []
                  [{| file_path := "a.ts"; read_text := Ok "new" |}]
                  (Some (points first)) in
  length (points second) = 2 /\ failed second = [] /\
  _load_file_payload (points second) "a.ts" = Some ("a.ts", "old") /\
  index_codebase hash1 embed_ok fits []
    [{| file_path := "ab.ts"; read_text := Ok "ab" |};
     {| file_path := "cd.ts"; read_text := Ok "cd" |}] None =
  {| points := [point_of hash1 "cd.ts" "cd"]; failed := [] |}.
Proof. by vm_compute. Qed.

(** A collection of vectors of size two: a list of another length does not
    fit, and a value that is no list is no vector. *)
Definition size_two (embedding : pyval) : vector_verdict :=
  match embedding with
  | PList l => if decide (length l = 2) then VectorFits else VectorMisfit
  | _ => VectorInvalid
  end.

(** An embedding endpoint whose reply depends on the text. *)
Definition embed_some (text : string) : http_reply :=
  if decide (text = "b") then Response false None
  else Response true (Some (PDict [("data", PList [PDict [("embedding",
         if decide (text = "m") then PStr "0.1, 0.2"
         else if decide (text = "w") then PList [PFloat 1 (-1)]
         else PList [PFloat 1 (-1); PFloat 2 (-1)])]])])).

(** A file whose text cannot be read, a reply of the embedding endpoint
    that is an error, a hash that is negative, an embedding that is no
    vector and one of the wrong size are printed and passed over, and the
    files after them are indexed; [should_ignore] compares prefixes of
    strings, so the pattern [src/gen] also ignores [src/general.ts]. *)
Theorem index_codebase_failures :
  index_codebase hash_neg embed_some size_two ["src/gen"]
    [{| file_path := "a.ts"; read_text := Raise FileNotFoundError |};
     {| file_path := "b.ts"; read_text := Ok "b" |};
     {| file_path := "longer.ts"; read_text := Ok "c" |};
     {| file_path := "m.ts"; read_text := Ok "m" |};
     {| file_path := "w.ts"; read_text := Ok "w" |};
     {| file_path := "src/general.ts"; read_text := Ok "d" |};
     {| file_path := "e.ts"; read_text := Ok "e" |}] None =
  {| points := [point_of hash_neg "e.ts" "e"];
     failed := [("a.ts", FileNotFoundError); ("b.ts", HTTPStatusError);
                ("longer.ts", UnexpectedResponse); ("m.ts", ValidationError);
                ("w.ts", UnexpectedResponse)] |}.
Proof. by vm_compute. Qed.

Lemma index_codebase_keeps_ids_witness :
  7%Z ∈ point_id <$>
    points (index_codebase hash1 embed_ok fits []
              [{| file_path := "a.ts"; read_text := Ok "a" |}]
              (Some [{| point_id := 7; payload := None |}])).
Proof.
  apply (index_codebase_keeps_ids hash1 embed_ok fits []
           [{| file_path := "a.ts"; read_text := Ok "a" |}]
           (Some [{| point_id := 7; payload := None |}]) 7%Z).
  left.
Defined.

Lemma index_codebase_by_id_witness :
  let store := points (index_codebase hash2 embed_ok fits []
                         [{| file_path := "a.ts"; read_text := Ok "new" |}]
                         (Some [point_of hash1 "a.ts" "old"])) in
  (forall p, p ∈ [point_of hash1 "a.ts" "old"] ->
     (forall f, f ∈ [{| file_path := "a.ts"; read_text := Ok "new" |}] ->
        hash2 (file_path f) <> point_id p) -> p ∈ store) /\
  (forall p q, p ∈ store -> q ∈ store -> point_id p = point_id q -> p = q).
Proof.
  apply (index_codebase_by_id hash2 embed_ok fits []
           [{| file_path := "a.ts"; read_text := Ok "new" |}]
           (Some [point_of hash1 "a.ts" "old"])).
  by repeat constructor.
Defined.

Lemma index_codebase_sorted_witness :
  store_sorted
    (points (index_codebase hash1 embed_ok fits []
               [{| file_path := "bb.ts"; read_text := Ok "b" |};
                {| file_path := "a.ts"; read_text := Ok "a" |}] None)).
Proof. apply index_codebase_sorted. constructor. Defined.

Lemma index_codebase_lookup_witness :
  _load_file_payload
    (points (index_codebase hash1 embed_ok fits ["lib"]
               [{| file_path := "bb.ts"; read_text := Ok "b" |};
                {| file_path := "a.ts"; read_text := Ok "a" |}] None))
    "a.ts" = Some ("a.ts", "a").
Proof.
  apply (index_codebase_lookup hash1 embed_ok fits ["lib"]
           [{| file_path := "bb.ts"; read_text := Ok "b" |};
            {| file_path := "a.ts"; read_text := Ok "a" |}]
           {| file_path := "a.ts"; read_text := Ok "a" |} "a").
  - repeat constructor; simpl; rewrite ?elem_of_cons, ?elem_of_nil; intuition congruence.
  - intros f1 f2 Hf1 Hf2.
    repeat (apply elem_of_cons in Hf1 as [-> | Hf1]);
      repeat (apply elem_of_cons in Hf2 as [-> | Hf2]);
      try (by apply elem_of_nil in Hf1); try (by apply elem_of_nil in Hf2);
      by vm_compute.
  - right. left.
  - repeat split; try done. intros content _. by eexists.
  - done.
Defined.
