(* ===== verification/IndexRun.v ===== *)
(** * IndexRun: a run of [index_codebase], from the configuration to the last call

    [Indexer] has the loop of index_codebase.py over files that are given,
    with patterns that are strings.  This file has the function as a whole
    (lines 35 to 64), as a computation [io] on a [project]: it reads the
    configuration ([load_config], lines 19 to 21, and lines 36 to 38),
    collects the files ([find_files], line 40), creates the collection when
    the store does not list it ([ensure_collection], lines 43 to 47) and
    runs the loop with its calls ([index_step_io], lines 49 to 64).

    The configuration is whatever YAML the file holds, so the patterns are
    a Python value: [should_ignore_dyn] is [should_ignore] on every value,
    with the [TypeError] of a value that cannot be iterated and of a pattern
    that is no string.  That test stands outside the [try] of the loop, as
    do the calls of lines 43 to 47, each of which can fail: their
    exceptions end the run, while those of reading, embedding and upserting
    a file are printed.

    Paths are those of a POSIX host, where [str(path)] is the normal form
    that [as_posix] returns.  [tree] gives, for the string of [base_path],
    every path below it in the order in which [rglob] visits them; both
    calls of [rglob] see the same tree.

    The theorems: a run refines the loop of [Indexer] and makes the calls
    of [run_spec]; a typed configuration cannot make it raise; every file
    found is dealt with; the calls are bounded and follow the protocol
    [next_index_phase] on every input. *)

From stdpp Require Import base tactics list strings gmap sorting.
From S2P Require Import Prelude PyStr Paths Graph Store Services Typing Indexer.

#[local] Open Scope py_scope.

(** ** Data *)

(** The outcome of opening and parsing [indexer/config.yaml]: there is no
    file, it cannot be opened or decoded (with the exception of [open] or
    of the decoder), its text is no YAML, or it parses to a value. *)
Inductive config_file : Type :=
| ConfigMissing
| ConfigUnreadable (e : pyexn)
| ConfigMalformed
| ConfigYaml (config : pyval).

(** What a run of the indexer meets: the configuration file, the files
    below a path, the collections of the store by their names (or the
    exception of the client), the exception of [recreate_collection] when
    it fails, the hash function of the process, the replies of the
    embedding endpoint, and what the client and the store make of a value
    as a vector. *)
Record project : Type := Project {
  config_yaml : config_file;
  tree : string -> list source_file;
  collections : outcome (gmap string (list point));
  recreate_error : option pyexn;
  hash_of : string -> Z;
  embedder : string -> http_reply;
  verdicts : pyval -> vector_verdict
}.

(** Line 13. *)
Definition COLLECTION_NAME : string := "codebase".

(** ** Operations *)

(** [load_config()], lines 19 to 21. *)
Definition load_config (f : config_file) : outcome pyval :=
  match f with
  | ConfigMissing => Raise FileNotFoundError
  | ConfigUnreadable e => Raise e
  | ConfigMalformed => Raise YAMLError
  | ConfigYaml config => Ok config
  end.

(** [Path(config["project_path"])], line 37, as its string. *)
Definition project_path (config : pyval) : outcome string :=
  v <- getitem_str config "project_path" ;; path_of (H := posix_flavour) v.

(** [list(base_path.rglob("*" + suffix))] on the paths below [base_path]:
    the pattern is matched against the name, which ends the path. *)
Definition rglob (entries : list source_file) (suffix : string)
  : list source_file :=
  filter (fun f => endswith (file_path f) suffix) entries.

(** Line 40. *)
Definition find_files (entries : list source_file) : list source_file :=
  rglob entries ".ts" ++ rglob entries ".tsx".

(** [any(path.startswith(pattern) for pattern in patterns)]: [any] stops at
    the first pattern that matches. *)
Fixpoint any_startswith (path : string) (patterns : list pyval) : outcome bool :=
  match patterns with
  | [] => Ok false
  | pattern :: rest =>
      match pattern with
      | PStr p => if startswith path p then Ok true else any_startswith path rest
      | _ => Raise TypeError
      end
  end.

(** [should_ignore(path, ignore_patterns)], lines 32 and 33, on any value
    of [ignore_patterns]. *)
Definition should_ignore_dyn (path : string) (ignore_patterns : pyval)
  : outcome bool :=
  patterns <- py_iter ignore_patterns ;; any_startswith path patterns.

(** [client.recreate_collection(...)], lines 44 to 47: the collection is
    empty afterwards. *)
Definition recreate_collection (w : project) : outcome (list point) :=
  match recreate_error w with
  | Some e => Raise e
  | None => Ok []
  end.

(** Lines 43 to 47: the collection as the loop finds it. *)
Definition ensure_collection (w : project) : io (list point) :=
  cols <<- io_call CallGetCollections (collections w) ;;
  match cols !! COLLECTION_NAME with
  | Some store => io_ret store
  | None => io_call CallRecreate (recreate_collection w)
  end.

(** The body of the [try], lines 53 to 62, with its calls. *)
Definition index_file_io (w : project) (store : list point) (f : source_file)
  : io (list point) :=
  content <<- io_lift (read_text f) ;;
  embedding <<- io_call (CallEmbed content) (get_embedding (embedder w content)) ;;
  p <<- io_lift (point_struct (verdicts w embedding) (hash_of w (file_path f))
                   (file_path f) content) ;;
  io_call (CallUpsert p embedding) (upsert store p (verdicts w embedding)).

(** The body of [for file_path in files], lines 50 to 64. *)
Definition index_step_io (w : project) (ignore : pyval) (st : index_state)
  (f : source_file) : io index_state :=
  ignored <<- io_lift (should_ignore_dyn (file_path f) ignore) ;;
  if ignored : bool then io_ret st
  else
    io_try
      (store' <<- index_file_io w (points st) f ;;
       io_ret {| points := store'; failed := failed st |})
      (fun e => io_ret {| points := points st;
                          failed := failed st ++ [(file_path f, e)] |}).

(** [index_codebase()], lines 35 to 64. *)
Definition index_codebase_io (w : project) : io index_state :=
  config <<- io_lift (load_config (config_yaml w)) ;;
  base_path <<- io_lift (project_path config) ;;
  ignore <<- io_lift (py_get config "ignore" (PList [])) ;;
  let files := find_files (tree w base_path) in
  store <<- ensure_collection w ;;
  io_fold (index_step_io w ignore) {| points := store; failed := [] |} files.

(** ** Specification *)

(** The patterns of a value whose elements are strings. *)
Definition str_patterns (ignore : pyval) : option (list string) :=
  match py_iter ignore with
  | Ok vs => if forallb is_str vs then Some (omap str_of vs) else None
  | Raise _ => None
  end.

(** The calls that a file comes to: none when it cannot be read, the
    embedding of its text, and the upsert of its point when the endpoint
    returned an embedding that the client takes as a vector. *)
Definition file_calls (w : project) (f : source_file) : list call :=
  match read_text f with
  | Raise _ => []
  | Ok content =>
      CallEmbed content ::
      match get_embedding (embedder w content) with
      | Ok embedding =>
          match verdicts w embedding with
          | VectorInvalid => []
          | StoreUnreachable | VectorMisfit | VectorFits =>
              [CallUpsert (point_of (hash_of w) (file_path f) content) embedding]
          end
      | Raise _ => []
      end
  end.

(** The calls of the loop. *)
Definition run_calls (w : project) (ignore : list string)
  (files : list source_file) : list call :=
  files ≫= (fun f => if should_ignore (file_path f) ignore then []
                     else file_calls w f).

(** The calls of lines 43 to 47. *)
Definition collection_calls (existing : option (list point)) : list call :=
  CallGetCollections :: match existing with Some _ => [] | None => [CallRecreate] end.

(** What lines 43 to 47 come to among the collections [cols]: the
    collection that is there, none after it was created, or the exception
    of creating it. *)
Definition found_collection (w : project) (cols : gmap string (list point))
  : outcome (option (list point)) :=
  match cols !! COLLECTION_NAME, recreate_error w with
  | None, Some e => Raise e
  | existing, _ => Ok existing
  end.

(** The calls and the outcome of a run on a configuration with the path
    [base_path] and the patterns [ignore]. *)
Definition run_spec (w : project) (base_path : string) (ignore : list string)
  : list call * outcome index_state :=
  let files := find_files (tree w base_path) in
  match collections w with
  | Raise e => ([CallGetCollections], Raise e)
  | Ok cols =>
      match found_collection w cols with
      | Raise e => (collection_calls None, Raise e)
      | Ok existing =>
          (collection_calls existing ++ run_calls w ignore files,
           Ok (index_codebase (hash_of w) (embedder w) (verdicts w) ignore files
                 existing))
      end
  end.

(** A file was dealt with by a run: it was passed over because of a
    pattern, its failure was printed, or its point was upserted. *)
Definition handled (w : project) (ignore : list string) (st : index_state)
  (trace : list call) (f : source_file) : Prop :=
  should_ignore (file_path f) ignore = true \/
  (exists e, (file_path f, e) ∈ failed st) \/
  (exists content embedding, read_text f = Ok content /\
     CallUpsert (point_of (hash_of w) (file_path f) content) embedding ∈ trace).

(** Where a run stands in the sequence of its calls: before the collections
    are listed, after that, in the loop, and after the embedding of a
    text. *)
Inductive index_phase : Type :=
| Unlisted
| Listed
| Ready
| Embedded (content : string).

(** The protocol of a run: the collections are listed first; the collection
    is created at most once, right after that; an upsert follows the
    embedding of the text that it stores. *)
Definition next_index_phase (p : index_phase) (c : call) : option index_phase :=
  match p, c with
  | Unlisted, CallGetCollections => Some Listed
  | Listed, CallRecreate => Some Ready
  | (Listed | Ready | Embedded _), CallEmbed content => Some (Embedded content)
  | Embedded content, CallUpsert p _ =>
      if decide (payload p ≫= get_text = Some content) then Some Ready else None
  | _, _ => None
  end.

(** The phases of the loop. *)
Definition in_loop (p : index_phase) : Prop := p <> Unlisted.

(** What a run needs of the configuration: the string of [base_path] and
    the patterns, when the configuration has them. *)
Definition config_view (config : pyval) : option (string * list string) :=
  match project_path config, py_get config "ignore" (PList []) with
  | Ok base_path, Ok ignore =>
      match str_patterns ignore with
      | Some patterns => Some (base_path, patterns)
      | None => None
      end
  | _, _ => None
  end.

(** ** The files *)

Lemma elem_of_rglob entries suffix f :
  f ∈ rglob entries suffix <-> endswith (file_path f) suffix = true /\ f ∈ entries.
Proof. unfold rglob. rewrite list_elem_of_filter, Is_true_true. tauto. Qed.

(** No name matches both patterns. *)
Lemma ts_not_tsx path : endswith path ".ts" = true -> endswith path ".tsx" = false.
Proof.
  intros Hts. destruct (endswith path ".tsx") eqn:Htsx; [| done].
  by pose proof (endswith_last_char path ".ts" ".tsx" ltac:(done) ltac:(done) Hts Htsx).
Qed.

Lemma elem_of_find_files entries f :
  f ∈ find_files entries <->
  f ∈ entries /\
  (endswith (file_path f) ".ts" = true \/ endswith (file_path f) ".tsx" = true).
Proof. unfold find_files. rewrite elem_of_app, !elem_of_rglob. tauto. Qed.

Lemma length_find_files entries : length (find_files entries) <= length entries.
Proof.
  unfold find_files, rglob. rewrite length_app.
  induction entries as [|f entries IH]; [done |].
  rewrite !filter_cons. pose proof (ts_not_tsx (file_path f)) as Hf.
  destruct (endswith (file_path f) ".ts"); simpl.
  - rewrite Hf by done. simpl. lia.
  - destruct (endswith (file_path f) ".tsx"); simpl; lia.
Qed.

Lemma NoDup_rglob entries suffix :
  NoDup (file_path <$> entries) -> NoDup (file_path <$> rglob entries suffix).
Proof.
  unfold rglob. induction entries as [|f entries IH]; [done |].
  rewrite fmap_cons, NoDup_cons. intros [Hf Hnd]. rewrite filter_cons.
  case_decide; [| by apply IH]. rewrite fmap_cons. constructor; [| by apply IH].
  intros (g & Hg & [_ Hin]%list_elem_of_filter)%list_elem_of_fmap.
  apply Hf, list_elem_of_fmap. by exists g.
Qed.

Lemma NoDup_find_files entries :
  NoDup (file_path <$> entries) -> NoDup (file_path <$> find_files entries).
Proof.
  intros Hnd. unfold find_files. rewrite fmap_app. apply NoDup_app.
  split; [by apply NoDup_rglob |]. split; [| by apply NoDup_rglob].
  intros path (f & -> & [Hts _]%elem_of_rglob)%list_elem_of_fmap
    (g & Hfg & [Htsx _]%elem_of_rglob)%list_elem_of_fmap.
  rewrite Hfg in Hts. apply ts_not_tsx in Hts. congruence.
Qed.

(** ** The patterns *)

Lemma any_startswith_str path (patterns : list string) :
  any_startswith path (PStr <$> patterns) = Ok (should_ignore path patterns).
Proof.
  induction patterns as [|p patterns IH]; [done |]. rewrite fmap_cons. simpl.
  by destruct (startswith path p).
Qed.

(** On patterns that are strings, [should_ignore_dyn] is [should_ignore]. *)
Lemma should_ignore_dyn_str path ignore patterns :
  str_patterns ignore = Some patterns ->
  should_ignore_dyn path ignore = Ok (should_ignore path patterns).
Proof.
  unfold str_patterns, should_ignore_dyn.
  destruct (py_iter ignore) as [vs|]; [| done].
  destruct (forallb is_str vs) eqn:Hvs; [| done]. intros [= <-]. simpl.
  by rewrite <- (omap_str_of vs Hvs) at 1; rewrite any_startswith_str.
Qed.

Lemma should_ignore_dyn_not_iterable path ignore e :
  py_iter ignore = Raise e -> should_ignore_dyn path ignore = Raise TypeError.
Proof. unfold should_ignore_dyn. by destruct ignore. Qed.

Lemma str_patterns_list (patterns : list string) :
  str_patterns (PList (PStr <$> patterns)) = Some patterns.
Proof.
  unfold str_patterns. simpl.
  assert (forallb is_str (PStr <$> patterns) = true) as ->
    by (apply forallb_is_str; by exists patterns).
  f_equal. induction patterns as [|p patterns IH]; [done |].
  rewrite fmap_cons. csimpl. by rewrite IH.
Qed.

(** A configuration of the expected type has what a run needs. *)
Lemma config_view_typed config :
  has_type config_type config = true -> is_Some (config_view config).
Proof.
  intros (base & patterns & Hbase & Hget)%config_typed.
  unfold config_view, project_path. rewrite Hbase, Hget. simpl.
  by rewrite str_patterns_list.
Qed.

(** ** The loop *)

Lemma found_collection_Ok w cols existing :
  found_collection w cols = Ok existing -> existing = cols !! COLLECTION_NAME.
Proof.
  unfold found_collection.
  destruct (cols !! COLLECTION_NAME), (recreate_error w); by intros [= <-].
Qed.

Lemma found_collection_Raise w cols e :
  found_collection w cols = Raise e <->
  cols !! COLLECTION_NAME = None /\ recreate_error w = Some e.
Proof.
  unfold found_collection.
  destruct (cols !! COLLECTION_NAME), (recreate_error w); naive_solver.
Qed.

Lemma ensure_collection_spec w t :
  ensure_collection w t =
  match collections w with
  | Raise e => (t ++ [CallGetCollections], Raise e)
  | Ok cols =>
      (t ++ collection_calls (cols !! COLLECTION_NAME),
       existing <- found_collection w cols ;; Ok (default [] existing))
  end.
Proof.
  unfold ensure_collection, io_bind, io_call, collection_calls, found_collection.
  unfold recreate_collection.
  destruct (collections w) as [cols|]; [| done].
  destruct (cols !! COLLECTION_NAME); simpl; [by destruct (recreate_error w) |].
  rewrite <- app_assoc. by destruct (recreate_error w).
Qed.

(** The body of the [try] makes the calls of the file and comes to what
    [index_file] comes to. *)
Lemma index_file_io_spec w store f t :
  index_file_io w store f t =
  (t ++ file_calls w f, index_file (hash_of w) (embedder w) (verdicts w) store f).
Proof.
  unfold index_file_io, index_file, file_calls, point_struct, point_of.
  unfold io_bind, io_lift, io_call.
  destruct (read_text f) as [content|]; simpl; [| by rewrite app_nil_r].
  destruct (get_embedding (embedder w content)) as [embedding|]; simpl; [| done].
  destruct (verdicts w embedding); simpl; by rewrite <- ?app_assoc.
Qed.

(** The calls of a step, whatever the patterns are: none, or those of the
    file; at most two. *)
Lemma index_step_io_trace w ignore st f t :
  exists cs, (index_step_io w ignore st f t).1 = t ++ cs /\
    (cs = [] \/ cs = file_calls w f).
Proof.
  unfold index_step_io, io_bind, io_lift, io_try, io_ret.
  destruct (should_ignore_dyn (file_path f) ignore) as [[] |];
    try (exists []; split; [by rewrite app_nil_r | by left]).
  exists (file_calls w f). rewrite index_file_io_spec.
  split; [by destruct (index_file _ _ _ _ _) | by right].
Qed.

Lemma length_file_calls w f : length (file_calls w f) <= 2.
Proof.
  unfold file_calls. destruct (read_text f) as [content|]; simpl; [| lia].
  destruct (get_embedding _) as [embedding|]; simpl; [| lia].
  destruct (verdicts w embedding); simpl; lia.
Qed.

Lemma index_step_io_calls w ignore st f t :
  exists cs, (index_step_io w ignore st f t).1 = t ++ cs /\ length cs <= 2.
Proof.
  destruct (index_step_io_trace w ignore st f t) as (cs & Hcs & [-> | ->]);
    eexists; (split; [done |]); [simpl; lia | apply length_file_calls].
Qed.

Lemma index_step_io_spec w ignore patterns st f t :
  str_patterns ignore = Some patterns ->
  index_step_io w ignore st f t =
  (t ++ (if should_ignore (file_path f) patterns then [] else file_calls w f),
   Ok (index_step (hash_of w) (embedder w) (verdicts w) patterns st f)).
Proof.
  intros Hp. unfold index_step_io, index_step, io_bind, io_lift, io_try, io_ret.
  rewrite (should_ignore_dyn_str _ _ _ Hp).
  destruct (should_ignore (file_path f) patterns); [by rewrite app_nil_r |].
  rewrite index_file_io_spec. by destruct (index_file _ _ _ _).
Qed.

Lemma index_loop_spec w ignore patterns files st t :
  str_patterns ignore = Some patterns ->
  io_fold (index_step_io w ignore) st files t =
  (t ++ run_calls w patterns files,
   Ok (foldl (index_step (hash_of w) (embedder w) (verdicts w) patterns) st files)).
Proof.
  intros Hp. revert st t. induction files as [|f files IH]; intros st t.
  - unfold io_ret. simpl. by rewrite app_nil_r.
  - cbn [io_fold foldl]. unfold io_bind at 1.
    rewrite (index_step_io_spec _ _ _ _ _ _ Hp), IH.
    unfold run_calls. rewrite bind_cons. by rewrite <- app_assoc.
Qed.

(** The loop makes at most two calls for a file, whatever the patterns are
    and however it ends. *)
Lemma index_loop_calls w ignore files st t :
  exists cs, (io_fold (index_step_io w ignore) st files t).1 = t ++ cs /\
    length cs <= 2 * length files.
Proof.
  revert st t. induction files as [|f files IH]; intros st t.
  - exists []. split; [by rewrite app_nil_r | simpl; lia].
  - cbn [io_fold]. unfold io_bind at 1.
    destruct (index_step_io_calls w ignore st f t) as (cs & Hcs & Hlen).
    destruct (index_step_io w ignore st f t) as [t' [st'|e]]; simpl in Hcs; subst t'.
    + destruct (IH st' (t ++ cs)) as (cs' & -> & Hlen').
      exists (cs ++ cs'). rewrite <- app_assoc. split; [done |].
      rewrite length_app. simpl. lia.
    + exists cs. split; [done | simpl; lia].
Qed.

(** ** The run *)

(** A run whose configuration has the path and patterns that are strings
    makes the calls of [run_spec] and comes to its outcome. *)
Lemma index_run_io_spec w config base_path ignore patterns t :
  config_yaml w = ConfigYaml config ->
  project_path config = Ok base_path ->
  py_get config "ignore" (PList []) = Ok ignore ->
  str_patterns ignore = Some patterns ->
  index_codebase_io w t =
  (t ++ (run_spec w base_path patterns).1, (run_spec w base_path patterns).2).
Proof.
  intros Hc Hb Hi Hp. unfold index_codebase_io, run_spec.
  rewrite Hc. simpl. rewrite io_bind_lift_Ok, Hb, io_bind_lift_Ok, Hi.
  rewrite io_bind_lift_Ok. unfold io_bind. rewrite ensure_collection_spec.
  destruct (collections w) as [cols|]; [| done].
  destruct (found_collection w cols) as [existing|e] eqn:Hf; simpl.
  - pose proof (found_collection_Ok _ _ _ Hf) as ->.
    rewrite (index_loop_spec _ _ _ _ _ _ Hp). simpl. by rewrite <- app_assoc.
  - by apply found_collection_Raise in Hf as [-> _].
Qed.

Lemma config_view_Some config base_path patterns :
  config_view config = Some (base_path, patterns) ->
  exists ignore, project_path config = Ok base_path /\
    py_get config "ignore" (PList []) = Ok ignore /\
    str_patterns ignore = Some patterns.
Proof.
  unfold config_view. destruct (project_path config) as [b|]; [| done].
  destruct (py_get config "ignore" (PList [])) as [ignore|]; [| done].
  destruct (str_patterns ignore) as [ps|] eqn:E; [| done].
  intros [= -> ->]. by exists ignore.
Qed.

Lemma elem_of_run_calls w patterns files c :
  c ∈ run_calls w patterns files <->
  exists f, f ∈ files /\ should_ignore (file_path f) patterns = false /\
    c ∈ file_calls w f.
Proof.
  unfold run_calls. rewrite list_elem_of_bind. split.
  - intros (f & Hc & Hf). exists f.
    destruct (should_ignore (file_path f) patterns); [by apply elem_of_nil in Hc | done].
  - intros (f & Hf & Hi & Hc). exists f. by rewrite Hi.
Qed.

Lemma elem_of_printed hash embed verdict patterns files f e :
  f ∈ files -> should_ignore (file_path f) patterns = false ->
  file_outcome hash embed verdict f = Raise e ->
  (file_path f, e) ∈ printed hash embed verdict patterns files.
Proof.
  intros Hf Hi He. unfold printed. apply list_elem_of_omap. exists f.
  by rewrite Hi, He.
Qed.

(** Every file is dealt with by the loop. *)
Lemma run_handles w patterns files existing f :
  f ∈ files ->
  handled w patterns
    (index_codebase (hash_of w) (embedder w) (verdicts w) patterns files existing)
    (run_calls w patterns files) f.
Proof.
  intros Hf. unfold handled, index_codebase. rewrite index_run_spec. simpl.
  destruct (should_ignore (file_path f) patterns) eqn:Hi; [by left | right].
  destruct (file_outcome (hash_of w) (embedder w) (verdicts w) f) as [p|e] eqn:He.
  - right. unfold file_outcome in He.
    destruct (read_text f) as [content|] eqn:Hr; [| done]. simpl in He.
    destruct (get_embedding _) as [embedding|] eqn:Hemb; [| done]. simpl in He.
    destruct (verdicts w embedding) eqn:Hv; try done.
    case_decide; [done |]. injection He as <-.
    exists content, embedding. split; [done |]. apply elem_of_run_calls.
    exists f. split; [done |]. split; [done |].
    unfold file_calls. rewrite Hr, Hemb, Hv. right. left.
  - left. exists e. by apply elem_of_printed.
Qed.

(** ** Theorems *)

(** The files of a run are the paths below the base path whose names end
    in [.ts] or in [.tsx], and a path is taken once: no name matches both
    patterns of line 40. *)
Theorem find_files_once entries :
  NoDup (file_path <$> entries) ->
  NoDup (file_path <$> find_files entries) /\
  length (find_files entries) <= length entries /\
  forall f, f ∈ find_files entries <->
    f ∈ entries /\ (endswith (file_path f) ".ts" = true \/
                    endswith (file_path f) ".tsx" = true).
Proof.
  intros Hnd. split; [by apply NoDup_find_files |].
  split; [apply length_find_files | apply elem_of_find_files].
Qed.

(** C7: [index_codebase()] as a whole refines the loop of [Indexer]: on a
    configuration that has a path and patterns that are strings, the run
    lists the collections, creates the collection when it is not listed,
    and makes for every file that is not ignored the calls of that file, in
    the order of the files; it returns the state of [index_codebase] on the
    files found, or ends with the exception of the store when the
    collections cannot be listed or the collection cannot be created,
    before any file is read. *)
Theorem index_codebase_io_refines w config base_path patterns t :
  config_yaml w = ConfigYaml config ->
  config_view config = Some (base_path, patterns) ->
  index_codebase_io w t =
  match collections w with
  | Raise e => (t ++ [CallGetCollections], Raise e)
  | Ok cols =>
      let files := find_files (tree w base_path) in
      let existing := cols !! COLLECTION_NAME in
      match existing, recreate_error w with
      | None, Some e => (t ++ [CallGetCollections; CallRecreate], Raise e)
      | _, _ =>
          (t ++ collection_calls existing ++ run_calls w patterns files,
           Ok (index_codebase (hash_of w) (embedder w) (verdicts w) patterns files
                 existing))
      end
  end.
Proof.
  intros Hc (ignore & Hb & Hi & Hp)%config_view_Some.
  rewrite (index_run_io_spec w config base_path ignore patterns t) by done.
  unfold run_spec, found_collection. destruct (collections w) as [cols|]; [| done].
  by destruct (cols !! COLLECTION_NAME), (recreate_error w).
Qed.

(** C16: on a configuration of the expected type, a dict with a string
    [project_path] and, when it is there, a list of strings [ignore], a run
    ends with an exception only when the store cannot list its collections
    or cannot create the collection that it does not list, and with that
    exception: no value of the configuration and no file makes it raise. *)
Theorem index_codebase_io_typed w config e :
  config_yaml w = ConfigYaml config ->
  has_type config_type config = true ->
  outcome_of (index_codebase_io w) = Raise e <->
  collections w = Raise e \/
  exists cols, collections w = Ok cols /\ cols !! COLLECTION_NAME = None /\
    recreate_error w = Some e.
Proof.
  intros Hc [[base_path patterns] Hv]%config_view_typed.
  apply config_view_Some in Hv as (ignore & Hb & Hi & Hp).
  unfold outcome_of.
  rewrite (index_run_io_spec w config base_path ignore patterns []) by done.
  unfold run_spec. destruct (collections w) as [cols|e']; simpl; [| naive_solver].
  destruct (found_collection w cols) as [existing|e'] eqn:Hf; simpl.
  - split; [done |]. intros [? | (cols' & [= <-] & Hr%found_collection_Raise)];
      [done | congruence].
  - apply found_collection_Raise in Hf. naive_solver.
Qed.

(** C13: no file is left out because another one failed: when the store
    lists its collections and has the collection or creates it, the run
    returns, and every file found was passed over because of a pattern, or
    its failure was printed, or its upsert was called. *)
Theorem index_codebase_io_handles_all w config base_path patterns cols existing :
  config_yaml w = ConfigYaml config ->
  config_view config = Some (base_path, patterns) ->
  collections w = Ok cols -> found_collection w cols = Ok existing ->
  exists st, outcome_of (index_codebase_io w) = Ok st /\
    forall f, f ∈ find_files (tree w base_path) ->
      handled w patterns st (calls_of (index_codebase_io w)) f.
Proof.
  intros Hc (ignore & Hb & Hi & Hp)%config_view_Some Hcols Hfound.
  unfold outcome_of, calls_of.
  rewrite (index_run_io_spec w config base_path ignore patterns []) by done.
  unfold run_spec. rewrite Hcols, Hfound. cbn [fst snd]. rewrite app_nil_l.
  eexists. split; [done |].
  intros f Hf.
  destruct (run_handles w patterns _ existing f Hf)
    as [? | [? | (content & embedding & ? & Hin)]]; [by left | by right; left |].
  right. right. exists content, embedding. split; [done |].
  apply elem_of_app. by right.
Qed.

(** C21: the calls of a run are bounded by the size of the tree, whatever the
    configuration holds and however the run ends: at most two calls to the
    store before the loop and two calls for every path of the tree. *)
Theorem index_codebase_io_calls_bound w n :
  (forall base_path, length (tree w base_path) <= n) ->
  length (calls_of (index_codebase_io w)) <= 2 + 2 * n.
Proof.
  intros Hn. unfold calls_of, index_codebase_io, io_bind, io_lift.
  destruct (load_config (config_yaml w)) as [config|]; simpl; [| lia].
  destruct (project_path config) as [base_path|]; simpl; [| lia].
  destruct (py_get config "ignore" (PList [])) as [ignore|]; simpl; [| lia].
  rewrite ensure_collection_spec.
  destruct (collections w) as [cols|]; simpl; [| lia].
  destruct (found_collection w cols) as [existing|e]; simpl;
    [| destruct (cols !! COLLECTION_NAME); simpl; lia].
  destruct (index_loop_calls w ignore (find_files (tree w base_path))
              {| points := default [] existing; failed := [] |}
              (collection_calls (cols !! COLLECTION_NAME))) as (cs & -> & Hcs).
  pose proof (length_find_files (tree w base_path)). specialize (Hn base_path).
  rewrite length_app. unfold collection_calls.
  destruct (cols !! COLLECTION_NAME); simpl; lia.
Qed.

(** C33: patterns that cannot be iterated end the run at the first file,
    outside the [try]: the collection has been created by then, and no file
    is read; with no file to index the same configuration is accepted. *)
Theorem index_codebase_io_bad_patterns w config base_path ignore e cols existing :
  config_yaml w = ConfigYaml config ->
  project_path config = Ok base_path ->
  py_get config "ignore" (PList []) = Ok ignore ->
  py_iter ignore = Raise e ->
  collections w = Ok cols -> found_collection w cols = Ok existing ->
  index_codebase_io w [] =
  (collection_calls existing,
   match find_files (tree w base_path) with
   | [] => Ok {| points := default [] existing; failed := [] |}
   | _ :: _ => Raise TypeError
   end).
Proof.
  intros Hc Hb Hi He Hcols Hfound. unfold index_codebase_io.
  rewrite Hc. simpl. rewrite io_bind_lift_Ok, Hb, io_bind_lift_Ok, Hi.
  rewrite io_bind_lift_Ok. unfold io_bind at 1.
  rewrite ensure_collection_spec, Hcols, Hfound.
  rewrite <- (found_collection_Ok _ _ _ Hfound). cbn [app bind].
  destruct (find_files (tree w base_path)) as [|f files]; [done |].
  cbn [io_fold]. unfold index_step_io at 1.
  rewrite (should_ignore_dyn_not_iterable _ _ _ He).
  unfold io_bind at 1. by rewrite io_bind_lift_Raise.
Qed.

(** ** The protocol *)

Lemma file_calls_protocol w f p :
  in_loop p ->
  exists q, run_protocol next_index_phase p (file_calls w f) = Some q /\ in_loop q.
Proof.
  intros Hp. unfold file_calls.
  destruct (read_text f) as [content|]; [| by exists p].
  assert (next_index_phase p (CallEmbed content) = Some (Embedded content)) as Hnext
    by by destruct p.
  destruct (get_embedding _) as [embedding|];
    [destruct (verdicts w embedding) |]; simpl; rewrite Hnext; simpl;
    rewrite ?decide_True by done; by eexists.
Qed.

Lemma index_loop_protocol w ignore files st t p :
  in_loop p ->
  exists cs q, (io_fold (index_step_io w ignore) st files t).1 = t ++ cs /\
    run_protocol next_index_phase p cs = Some q /\ in_loop q.
Proof.
  revert st t p. induction files as [|f files IH]; intros st t p Hp.
  { exists [], p. by rewrite app_nil_r. }
  cbn [io_fold]. unfold io_bind at 1.
  destruct (index_step_io_trace w ignore st f t) as (cs & Hcs & Hshape).
  assert (exists q, run_protocol next_index_phase p cs = Some q /\ in_loop q)
    as (q & Hq & Hloop).
  { destruct Hshape as [-> | ->]; [by exists p | by apply file_calls_protocol]. }
  destruct (index_step_io w ignore st f t) as [t' [st'|e]]; simpl in Hcs; subst t'.
  - destruct (IH st' (t ++ cs) q Hloop) as (cs' & q' & -> & Hq' & Hloop').
    exists (cs ++ cs'), q'. rewrite <- app_assoc. split; [done |].
    by rewrite run_protocol_app, Hq.
  - by exists cs, q.
Qed.

(** C14: whatever the configuration, the tree, the store and the embedding
    endpoint are, and however the run ends, the calls of [index_codebase]
    follow its protocol: the collections are listed before anything else,
    the collection is created at most once and only right after that, and
    every upsert comes right after the embedding of the text that it
    stores. *)
Theorem index_codebase_io_protocol w :
  is_Some (run_protocol next_index_phase Unlisted (calls_of (index_codebase_io w))).
Proof.
  unfold calls_of, index_codebase_io, io_bind, io_lift.
  destruct (load_config (config_yaml w)) as [config|]; simpl; [| by eexists].
  destruct (project_path config) as [base_path|]; simpl; [| by eexists].
  destruct (py_get config "ignore" (PList [])) as [ignore|]; simpl; [| by eexists].
  rewrite ensure_collection_spec.
  destruct (collections w) as [cols|]; simpl; [| by eexists].
  set (listed := cols !! COLLECTION_NAME).
  assert (exists p, run_protocol next_index_phase Unlisted (collection_calls listed)
                    = Some p /\ in_loop p) as (p & Hp & Hloop).
  { destruct listed; [by exists Listed | by exists Ready]. }
  destruct (found_collection w cols) as [existing|e]; cbn [bind fst];
    [| by rewrite Hp].
  destruct (index_loop_protocol w ignore (find_files (tree w base_path))
              {| points := default [] existing; failed := [] |}
              (collection_calls listed) p Hloop) as (cs & q & -> & Hq & _).
  rewrite run_protocol_app, Hp. simpl. rewrite Hq. by eexists.
Qed.

(** ** Examples and witnesses *)

(** A project: a configuration whose path is not in normal form, a tree
    with a directory whose name ends in [.ts], and a store without
    collections. *)
Definition demo_config : pyval :=
  PDict [("project_path", PStr "./proj/");
         ("ignore", PList [PStr "proj/node_modules"; PStr "gen"])].

Definition demo_tree (base_path : string) : list source_file :=
  if decide (base_path = "proj") then
    [{| file_path := "proj/ui/view.tsx"; read_text := Ok "V" |};
     {| file_path := "proj/a.ts"; read_text := Ok "A" |};
     {| file_path := "proj/node_modules/x.ts"; read_text := Ok "X" |};
     {| file_path := "proj/readme.md"; read_text := Ok "R" |};
     {| file_path := "proj/gen/types.ts"; read_text := Ok "G" |};
     {| file_path := "proj/dir.ts"; read_text := Raise IsADirectoryError |}]
  else [].

Definition demo_project : project :=
  {| config_yaml := ConfigYaml demo_config;
     tree := demo_tree;
     collections := Ok ∅;
     recreate_error := None;
     hash_of := hash1;
     embedder := embed_ok;
     verdicts := fits |}.

(** The configuration with [ignore:] left empty, which YAML reads as
    [None]. *)
Definition demo_no_patterns : project :=
  {| config_yaml := ConfigYaml (PDict [("project_path", PStr "proj");
                                       ("ignore", PNone)]);
     tree := demo_tree;
     collections := Ok ∅;
     recreate_error := None;
     hash_of := hash1;
     embedder := embed_ok;
     verdicts := fits |}.

(** A run of the example: the files with [.ts] come before those with
    [.tsx]; a pattern is a prefix of the whole path, so [gen] does not
    ignore [proj/gen/types.ts]; the directory [dir.ts] is found and its
    failure printed; the file that is no TypeScript is not read. *)
Theorem index_codebase_io_example :
  index_codebase_io demo_project [] =
  ([CallGetCollections; CallRecreate;
    CallEmbed "A"; CallUpsert (point_of hash1 "proj/a.ts" "A") (PList []);
    CallEmbed "G"; CallUpsert (point_of hash1 "proj/gen/types.ts" "G") (PList []);
    CallEmbed "V"; CallUpsert (point_of hash1 "proj/ui/view.tsx" "V") (PList [])],
   Ok {| points := [point_of hash1 "proj/a.ts" "A";
                    point_of hash1 "proj/ui/view.tsx" "V";
                    point_of hash1 "proj/gen/types.ts" "G"];
         failed := [("proj/dir.ts", IsADirectoryError)] |}).
Proof. by vm_compute. Qed.

Lemma find_files_once_witness :
  NoDup (file_path <$> find_files (demo_tree "proj")) /\
  length (find_files (demo_tree "proj")) <= length (demo_tree "proj") /\
  forall f, f ∈ find_files (demo_tree "proj") <->
    f ∈ demo_tree "proj" /\ (endswith (file_path f) ".ts" = true \/
                             endswith (file_path f) ".tsx" = true).
Proof.
  apply (find_files_once (demo_tree "proj")).
  vm_compute. repeat constructor; set_solver.
Defined.

Lemma index_codebase_io_refines_witness :
  index_codebase_io demo_project [] =
  ([] ++ collection_calls None ++
     run_calls demo_project ["proj/node_modules"; "gen"]
       (find_files (demo_tree "proj")),
   Ok (index_codebase hash1 embed_ok fits ["proj/node_modules"; "gen"]
         (find_files (demo_tree "proj")) None)).
Proof.
  apply (index_codebase_io_refines demo_project demo_config "proj"
           ["proj/node_modules"; "gen"] []); reflexivity.
Defined.

Lemma index_codebase_io_typed_witness :
  outcome_of (index_codebase_io demo_project) = Raise ConnectError <->
  collections demo_project = Raise ConnectError \/
  exists cols, collections demo_project = Ok cols /\
    cols !! COLLECTION_NAME = None /\
    recreate_error demo_project = Some ConnectError.
Proof.
  apply (index_codebase_io_typed demo_project demo_config ConnectError);
    reflexivity.
Defined.

Lemma index_codebase_io_handles_all_witness :
  exists st, outcome_of (index_codebase_io demo_project) = Ok st /\
    forall f, f ∈ find_files (demo_tree "proj") ->
      handled demo_project ["proj/node_modules"; "gen"] st
        (calls_of (index_codebase_io demo_project)) f.
Proof.
  apply (index_codebase_io_handles_all demo_project demo_config "proj"
           ["proj/node_modules"; "gen"] ∅ None); reflexivity.
Defined.

Lemma index_codebase_io_calls_bound_witness :
  length (calls_of (index_codebase_io demo_project)) <= 2 + 2 * 6.
Proof.
  apply (index_codebase_io_calls_bound demo_project 6).
  intros base_path. simpl. unfold demo_tree. case_decide; simpl; lia.
Defined.

Lemma index_codebase_io_bad_patterns_witness :
  index_codebase_io demo_no_patterns [] =
  (collection_calls None, Raise TypeError).
Proof.
  exact (index_codebase_io_bad_patterns demo_no_patterns
           (PDict [("project_path", PStr "proj"); ("ignore", PNone)])
           "proj" PNone TypeError ∅ None
           eq_refl eq_refl eq_refl eq_refl eq_refl eq_refl).
Defined.
