(* ===== verification/System.v ===== *)
(** * System: the indexer and the handler together

    [index_codebase] fills the collection that [rag_endpoint] reads.  The
    theorems of this file are about a request that is served from a
    collection as a run of the indexer left it: when the chat model is
    asked, the prompt holds the text of every related file and of the target
    file that the run indexed, as the run read it.  [indexed_files_in_prompt]
    says it of the loop of [Indexer], [indexed_run_in_prompt] of a whole run
    of [IndexRun], from the configuration on. *)

From stdpp Require Import base tactics list strings gmap.
From S2P Require Import Prelude PyStr Paths Graph Traversal Store Assembler.
From S2P Require Import Prompt Services Endpoint Indexer IndexRun.

Section system.
Context `{PathFlavour}.
Context (hash : string -> Z) (embed : string -> http_reply).
Context (verdict : pyval -> vector_verdict).

(** ** Lemmas *)

Lemma hit_entry_payload hit e :
  hit_entry hit = Some e ->
  payload hit = Some {| get_path := Some e.1; get_text := Some e.2 |}.
Proof.
  unfold hit_entry. destruct (payload hit) as [[[path|] [text|]]|]; try done.
  simpl. destruct (truthy path && truthy text); [| done]. by intros [= <-].
Qed.

(** In a collection with one point for the path [p], holding [content],
    every entry that is offered for [p] holds [content]. *)
Lemma offers_text store results related_files target p content e :
  (forall hit, hit ∈ results -> hit ∈ store) ->
  (forall q, q ∈ store -> path_matches p q ->
     payload q = Some {| get_path := Some p; get_text := Some content |}) ->
  stored_text store p = Some content ->
  e ∈ offers store results related_files target -> e.1 = p -> e.2 = content.
Proof.
  intros Hsub Hu Hst. unfold offers. rewrite !elem_of_app.
  intros [Hhit | [Hb | Hb]] <-.
  - apply list_elem_of_omap in Hhit as (hit & Hin & He%hit_entry_payload).
    specialize (Hu hit (Hsub hit Hin)). rewrite He in Hu.
    assert (path_matches e.1 hit) as Hm by (unfold path_matches; by rewrite He).
    specialize (Hu Hm). by simplify_eq.
  - apply elem_of_backfill in Hb as [_ Hb]. congruence.
  - apply elem_of_backfill in Hb as [_ Hb]. congruence.
Qed.

(** ** Theorem *)

(** A request that is served from the collection of an indexing run has
    the files of the run in its prompt.  After [index_codebase] on a new
    collection, over files with distinct paths whose hashes do not collide,
    when the hits of the search are points of that collection and the chat
    model is asked, the prompt is that of the context that [build_context]
    builds from the collection, and this context holds, for the target
    file and for every related file that the run indexed, the path with
    the text that the run read. *)
Theorem indexed_files_in_prompt ignore files f content w req related_files p prompt :
  NoDup (file_path <$> files) ->
  (forall f1 f2, f1 ∈ files -> f2 ∈ files ->
     hash (file_path f1) = hash (file_path f2) -> file_path f1 = file_path f2) ->
  f ∈ files -> indexable hash embed verdict ignore f -> read_text f = Ok content ->
  let store := points (index_codebase hash embed verdict ignore files None) in
  collection w = store ->
  (forall v ranked hit, ranking w v = Ok ranked -> hit ∈ ranked -> hit ∈ store) ->
  get_related_files (graph_json w) (target_file req) (depth req) = Ok related_files ->
  p ∈ as_posix <$> (related_files ++ [target_file req]) ->
  p = file_path f ->
  CallChat prompt ∈ calls_of (rag_endpoint w req) ->
  exists emb ranked,
    embedding_of (embeddings w (question req)) = Ok emb /\
    ranking w emb = Ok ranked /\
    let ctx := build_context (collection w) (take 10 ranked) related_files
                 (target_file req) in
    prompt = build_prompt (question req) ctx /\ (p, content) ∈ ctx.
Proof.
  intros Hnd Hinj Hf Hgood Hread store Hc Hrank Hrel Hp -> Hchat.
  rewrite calls_of_rag_endpoint in Hchat.
  apply rag_spec_chat in Hchat as [_ (emb & ranked & rel' & Hemb & Hr & Hrel' & _ & ->)].
  rewrite Hrel in Hrel'. injection Hrel' as <-. rewrite Hc.
  exists emb, ranked. split_and!; [done .. |].
  destruct (indexed_point hash embed verdict ignore files f content) as [Hin Hu];
    try done. fold store in Hin, Hu.
  assert (stored_text store (file_path f) = Some content) as Hst.
  { unfold stored_text. by rewrite (first_match_unique _ _ _ Hin). }
  assert (file_path f ∈
            (build_context store (take 10 ranked) related_files
               (target_file req)).*1) as (e & He1 & He)%list_elem_of_fmap.
  { apply elem_of_context_paths. unfold offers.
    rewrite fmap_app, elem_of_app. right. unfold backfill.
    change [as_posix (target_file req)] with (as_posix <$> [target_file req]).
    rewrite <- omap_app, <- (fmap_app as_posix related_files [target_file req]).
    apply list_elem_of_fmap. exists (file_path f, content). split; [done |].
    by apply elem_of_backfill. }
  assert (e.2 = content) as He2.
  { apply (offers_text store (take 10 ranked) related_files (target_file req)
             (file_path f)); try done.
    - intros hit Hhit%(subseteq_take 10). by apply (Hrank emb ranked).
    - intros q Hq Hm. by rewrite (Hu q Hq Hm).
    - by apply elem_of_context_offers. }
  destruct e as [p text]. simpl in *. by subst.
Qed.

End system.

(** C11: indexing, then asking.  After a whole run of the indexer on a store
    without the collection, with a configuration that has a path and
    patterns that are strings, over a tree with distinct paths whose hashes
    do not collide, a request that is served from the collection that the
    run left, with hits from that collection, has the files of the run in
    its prompt: the prompt is that of the context that [build_context]
    builds from the collection, the first ten points of the ranking, the
    related files and the target file, and for the target file and for
    every related file that the run indexed this context holds the path
    with the text that the run read. *)
Theorem indexed_run_in_prompt `{PathFlavour} proj config base_path patterns cols
    st f content w req related_files p prompt :
  config_yaml proj = ConfigYaml config ->
  config_view config = Some (base_path, patterns) ->
  collections proj = Ok cols -> cols !! COLLECTION_NAME = None ->
  outcome_of (index_codebase_io proj) = Ok st ->
  let files := find_files (tree proj base_path) in
  NoDup (file_path <$> tree proj base_path) ->
  (forall f1 f2, f1 ∈ files -> f2 ∈ files ->
     hash_of proj (file_path f1) = hash_of proj (file_path f2) ->
     file_path f1 = file_path f2) ->
  f ∈ files -> indexable (hash_of proj) (embedder proj) (verdicts proj) patterns f ->
  read_text f = Ok content ->
  collection w = points st ->
  (forall v ranked hit, ranking w v = Ok ranked -> hit ∈ ranked -> hit ∈ points st) ->
  get_related_files (graph_json w) (target_file req) (depth req) = Ok related_files ->
  p ∈ as_posix <$> (related_files ++ [target_file req]) ->
  p = file_path f ->
  CallChat prompt ∈ calls_of (rag_endpoint w req) ->
  exists emb ranked,
    embedding_of (embeddings w (question req)) = Ok emb /\
    ranking w emb = Ok ranked /\
    let ctx := build_context (collection w) (take 10 ranked) related_files
                 (target_file req) in
    prompt = build_prompt (question req) ctx /\ (p, content) ∈ ctx.
Proof.
  intros Hc (ignore & Hb & Hi & Hp)%config_view_Some Hcols Hnone Hst files Hnd.
  unfold outcome_of in Hst.
  rewrite (index_run_io_spec proj config base_path ignore patterns []) in Hst
    by done.
  unfold run_spec, found_collection in Hst. rewrite Hcols, Hnone in Hst.
  destruct (recreate_error proj); [done |]. injection Hst as <-.
  apply indexed_files_in_prompt. by apply NoDup_find_files.
Qed.

(** ** Witness (POSIX flavour) *)

(** Two files, and a world whose collection is what indexing them leaves. *)
Definition two_files : list source_file :=
  [{| file_path := "X"; read_text := Ok "x" |};
   {| file_path := "YY"; read_text := Ok "y" |}].

Definition indexed_world : world :=
  {| embeddings := embeddings demo;
     ranking := fun _ => Ok [point_of hash1 "YY" "y"];
     collection := points (index_codebase hash1 embed_ok fits [] two_files None);
     scroll_error := fun _ => None;
     graph_json := FileJson (encode_adj [("X", ["YY"])]);
     chat_completions := chat_completions demo |}.

Lemma indexed_files_in_prompt_witness :
  exists emb ranked,
    embedding_of (embeddings indexed_world "q") = Ok emb /\
    ranking indexed_world emb = Ok ranked /\
    let ctx := build_context (H := posix_flavour) (collection indexed_world)
                 (take 10 ranked) ["YY"] "X" in
    build_prompt "q" [("YY", "y"); ("X", "x")] = build_prompt "q" ctx /\
    ("X", "x") ∈ ctx.
Proof.
  apply (indexed_files_in_prompt (H := posix_flavour) hash1 embed_ok fits [] two_files
           {| file_path := "X"; read_text := Ok "x" |} "x" indexed_world
           {| question := "q"; target_file := "X"; depth := 1 |} ["YY"]).
  - vm_compute. repeat constructor; rewrite ?elem_of_cons, ?elem_of_nil;
      intuition congruence.
  - intros f1 f2 Hf1 Hf2.
    repeat (apply elem_of_cons in Hf1 as [-> | Hf1]);
      repeat (apply elem_of_cons in Hf2 as [-> | Hf2]);
      try (by apply elem_of_nil in Hf1); try (by apply elem_of_nil in Hf2);
      by vm_compute.
  - left.
  - repeat split; try done. intros content _. by eexists.
  - done.
  - done.
  - intros v ranked hit [= <-] ->%list_elem_of_singleton. vm_compute. right. left.
  - done.
  - vm_compute. right. left.
  - done.
  - vm_compute. do 3 right. left.
Defined.

(** The project of [IndexRun], and a world whose collection is what a run
    on it leaves. *)
Definition project_world : world :=
  {| embeddings := embeddings demo;
     ranking := fun _ => Ok [point_of hash1 "proj/a.ts" "A"];
     collection :=
       points (index_codebase hash1 embed_ok fits ["proj/node_modules"; "gen"]
                 (find_files (demo_tree "proj")) None);
     scroll_error := fun _ => None;
     graph_json := FileJson (encode_adj [("proj/a.ts", ["./proj/ui/view.tsx"])]);
     chat_completions := chat_completions demo |}.

Lemma indexed_run_in_prompt_witness :
  exists emb ranked,
    embedding_of (embeddings project_world "q") = Ok emb /\
    ranking project_world emb = Ok ranked /\
    let ctx := build_context (H := posix_flavour) (collection project_world)
                 (take 10 ranked) ["proj/ui/view.tsx"] "proj/a.ts" in
    build_prompt "q" [("proj/a.ts", "A"); ("proj/ui/view.tsx", "V")] =
    build_prompt "q" ctx /\
    ("proj/ui/view.tsx", "V") ∈ ctx.
Proof.
  apply (indexed_run_in_prompt (H := posix_flavour) demo_project demo_config
           "proj" ["proj/node_modules"; "gen"] ∅
           (index_codebase hash1 embed_ok fits ["proj/node_modules"; "gen"]
              (find_files (demo_tree "proj")) None)
           {| file_path := "proj/ui/view.tsx"; read_text := Ok "V" |} "V"
           project_world
           {| question := "q"; target_file := "proj/a.ts"; depth := 1 |}
           ["proj/ui/view.tsx"]); try reflexivity.
  - vm_compute. repeat constructor; set_solver.
  - intros f1 f2 Hf1 Hf2. vm_compute in Hf1, Hf2.
    repeat (apply elem_of_cons in Hf1 as [-> | Hf1]);
      repeat (apply elem_of_cons in Hf2 as [-> | Hf2]);
      try (by apply elem_of_nil in Hf1); try (by apply elem_of_nil in Hf2);
      by vm_compute.
  - vm_compute. do 4 right. left.
  - repeat split; try done. intros content _. by eexists.
  - intros v ranked hit [= <-] ->%list_elem_of_singleton. vm_compute. left.
  - vm_compute. left.
  - vm_compute. do 3 right. left.
Defined.
